(** * USB passthrough manager: VSOCK transport and device-passthrough protocol

    A shallow embedding of the Python sources

    - [upm/channel/json_transport.py]  (newline-delimited JSON framing),
    - [vsock_bridge/protocols/dpm.py]  (typed protocol messages),
    - [vsock_bridge/vsock.py]          (the reconnecting [VsockClient]),
    - [upm/host/service.py]            (the authoritative [HostService]),
    - [upm/guest/device_registry.py]   (the guest mirror [DeviceRegister]),
    - [vhotplug/vhotplug.py]           (the [UserDevices] table),

    together with the properties the specification states about them.

    Conventions.  Python exceptions are values of [exn]; a computation that
    may raise returns [res].  Code that mutates an object is written in
    state-passing style ([M W A]); the state survives a raised exception,
    as it does in Python.  Locks are not modelled: every method is read as
    one sequential run.  Of the log calls, those of level error and above
    appear in the trace. *)

From Stdlib Require Import ZArith DecimalFacts DecimalPos.
From Stdlib.Strings Require Import Byte.
From stdpp Require Import base option list strings.

(** ** Python values and exceptions *)

(** The values [json.loads] produces and [json.dumps] accepts.  Numbers
    are integers; an object is its list of members in order. *)
#[warnings="-register-all"]
Inductive json : Type :=
  | JNull
  | JBool (b : bool)
  | JNum (n : Z)
  | JStr (s : string)
  | JArr (xs : list json)
  | JObj (kvs : list (string * json)).

(** What a caller may hand to [send]: a JSON value, or an instance of a
    class (such as a [dpm.Message]) that [json.dumps] cannot serialize. *)
Inductive pyobj : Type :=
  | PJson (j : json)
  | PInstance (class_name : string).

Inductive exn : Type :=
  | ValueError
  | TypeError
  | AttributeError
  | KeyError
  | OSError
  | JSONDecodeError.

Inductive res (A : Type) : Type :=
  | Ok (a : A)
  | Raise (e : exn).
Arguments Ok {A} a.
Arguments Raise {A} e.

Definition res_bind {A B} (r : res A) (k : A -> res B) : res B :=
  match r with
  | Ok a => k a
  | Raise e => Raise e
  end.

Notation "'try!' x ':=' r 'in' k" := (res_bind r (fun x => k))
  (at level 10, x name, r at level 100, k at level 200, only parsing).

(** State passing with exceptions: the world is returned in both cases. *)
Definition M (W A : Type) : Type := W -> res A * W.

Definition ret {W A} (a : A) : M W A := fun w => (Ok a, w).
Definition raise {W A} (e : exn) : M W A := fun w => (Raise e, w).
Definition bind {W A B} (m : M W A) (k : A -> M W B) : M W B :=
  fun w => match m w with
           | (Ok a, w') => k a w'
           | (Raise e, w') => (Raise e, w')
           end.
Definition lift {W A} (r : res A) : M W A := fun w => (r, w).
Definition modify {W} (f : W -> W) : M W unit := fun w => (Ok tt, f w).
Definition gets {W A} (f : W -> A) : M W A := fun w => (Ok (f w), w).

Notation "'do!' x ':=' m 'in' k" := (bind m (fun x => k))
  (at level 10, x name, m at level 100, k at level 200, only parsing).
Notation "'run!' m 'then' k" := (bind m (fun _ => k))
  (at level 10, m at level 100, k at level 200, only parsing).

(** ** Bytes *)

Abbreviation bytes := (list byte).

#[global] Instance byte_eq_dec : EqDecision byte := Byte.byte_eq_dec.

(** The byte [b"\n"]. *)
Definition nl : byte := x0a.

(** [bytes.strip()] without argument removes ASCII whitespace:
    space, [\t], [\n], [\r], [\x0b] and [\f]. *)
Definition is_space (b : byte) : bool :=
  match b with
  | x20 | x09 | x0a | x0d | x0b | x0c => true
  | _ => false
  end.

Fixpoint lstrip (l : bytes) : bytes :=
  match l with
  | [] => []
  | b :: l' => if is_space b then lstrip l' else l
  end.

Definition rstrip (l : bytes) : bytes := rev (lstrip (rev l)).

Definition strip (l : bytes) : bytes := rstrip (lstrip l).

(** [buf.split(b"\n", 1)] guarded by [b"\n" in buf]: [None] when the
    buffer holds no newline, else the bytes before the first newline and
    the bytes after it. *)
Fixpoint split_nl (buf : bytes) : option (bytes * bytes) :=
  match buf with
  | [] => None
  | b :: rest =>
      if decide (b = nl) then Some ([], rest)
      else match split_nl rest with
           | Some (line, rest') => Some (b :: line, rest')
           | None => None
           end
  end.

(** ** Python dictionaries

    A [dict] with string keys keeps its items in insertion order: it is the
    list of its items, each key at most once. *)

Abbreviation pydict V := (list (string * V)).

Section pydict.
Context {V : Type}.

(** [d.get(k)], and [k in d] as [is_Some]. *)
Fixpoint dict_get (k : string) (d : pydict V) : option V :=
  match d with
  | [] => None
  | (k', v) :: d' => if decide (k' = k) then Some v else dict_get k d'
  end.

(** [d[k] = v]: a present key keeps its place, a new key goes last. *)
Fixpoint dict_set (k : string) (v : V) (d : pydict V) : pydict V :=
  match d with
  | [] => [(k, v)]
  | (k', v') :: d' =>
      if decide (k' = k) then (k, v) :: d' else (k', v') :: dict_set k v d'
  end.

(** [del d[k]] for a key the caller found present. *)
Fixpoint dict_del (k : string) (d : pydict V) : pydict V :=
  match d with
  | [] => []
  | (k', v') :: d' =>
      if decide (k' = k) then d' else (k', v') :: dict_del k d'
  end.

Definition dict_has (k : string) (d : pydict V) : bool :=
  bool_decide (is_Some (dict_get k d)).
End pydict.

(** A JSON value as a Python object: the keys of a dict are distinct. *)
#[warnings="-register-all"]
Inductive wf_json : json -> Prop :=
  | wf_null : wf_json JNull
  | wf_bool b : wf_json (JBool b)
  | wf_num n : wf_json (JNum n)
  | wf_str s : wf_json (JStr s)
  | wf_arr xs : Forall wf_json xs -> wf_json (JArr xs)
  | wf_obj kvs :
      NoDup kvs.*1 -> Forall (fun kv => wf_json kv.2) kvs -> wf_json (JObj kvs).

(** ** Observable effects

    What a run leaves behind, oldest first: traffic on the socket, calls to
    the external collaborators, and log records of level error or above. *)

Inductive log_level : Type := LError | LCritical.

Inductive event : Type :=
  | EConnectFailed                       (* [connect] raised [OSError]; [time.sleep(1)] *)
  | EConnected                           (* [connect] returned *)
  | ESendall (data : bytes)              (* [sendall(data)] returned *)
  | ESendallFailed (data : bytes)        (* [sendall(data)] raised [OSError] *)
  | EClosed                              (* [conn.close()] *)
  | EPassthrough (device_id target_vm : string)  (* [passthrough_handler] was called *)
  | EWriteRegistry (data : pydict (pydict json)) (* [atomic_write_registry(data)] *)
  | EPopup (device_id : string)          (* [show_new_device_popup_async] *)
  | ELog (level : log_level) (text : string).

(** The data of the writes that went through, and the calls made to the
    passthrough handler, in order. *)
Definition sent (t : list event) : list bytes :=
  omap (fun e => match e with ESendall data => Some data | _ => None end) t.

Definition handler_calls (t : list event) : list (string * string) :=
  omap (fun e => match e with
                 | EPassthrough device_id target_vm => Some (device_id, target_vm)
                 | _ => None
                 end) t.

(** ** The JSON library

    [json.dumps] and [json.loads] belong to Python's standard library, not
    to this repository: they are parameters of the development.
    [json_dumps j] stands for
    [json.dumps(j, separators=(",", ":")).encode("utf-8")] and
    [json_loads b] for [json.loads(b.decode("utf-8"))], a failing decode or
    parse being [Raise]. *)
Class JsonLib : Type := {
  json_dumps : json -> bytes;
  json_loads : bytes -> res json;
}.

(** ** upm/channel/json_transport.py *)

Module json_transport.
Section with_json.
Context `{!JsonLib}.

(** The bytes [send] computes before it writes:
    [(json.dumps(obj, separators=(",", ":")) + "\n").encode("utf-8")]. *)
Definition wire (obj : pyobj) : res bytes :=
  match obj with
  | PJson j => Ok (json_dumps j ++ [nl])
  | PInstance _ => Raise TypeError
  end.

(** [send(sock, obj)]; [sendall] is the socket's method. *)
Definition send {W} (sendall : bytes -> M W unit) (obj : pyobj) : M W unit :=
  do! data := lift (wire obj) in
  sendall data.

(** A socket that accepts every write and keeps what was written. *)
Definition pipe_sendall (data : bytes) : M bytes unit :=
  modify (fun written => written ++ data).

(** What successive [sock.recv(4096)] calls return.  A zero-byte chunk
    is the end of the stream, and so is the end of the list. *)
Inductive recv_result : Type :=
  | Recv (chunk : bytes)
  | RecvFails.

(** How a generator run ends once every yielded value was consumed. *)
Inductive ending : Type :=
  | StopIteration
  | Raised (e : exn).

(** The inner loop [while b"\n" in buf]: the messages yielded, and the
    buffer left (or the exception that ended the generator).  Every turn
    removes at least the newline, so [length buf] turns are enough. *)
Fixpoint drain (fuel : nat) (buf : bytes) : list json * res bytes :=
  match fuel with
  | O => ([], Ok buf)
  | S fuel' =>
      match split_nl buf with
      | None => ([], Ok buf)
      | Some (line, rest) =>
          let line := strip line in
          match line with
          | [] => drain fuel' rest
          | _ :: _ =>
              match json_loads line with
              | Ok msg =>
                  let '(ys, r) := drain fuel' rest in (msg :: ys, r)
              | Raise e => ([], Raise e)
              end
          end
      end
  end.

(** The outer loop [while True], started with buffer [buf]. *)
Fixpoint receive_from (buf : bytes) (sock : list recv_result)
  : list json * ending :=
  match sock with
  | [] => ([], StopIteration)
  | RecvFails :: _ => ([], Raised OSError)
  | Recv [] :: _ => ([], StopIteration)
  | Recv chunk :: sock' =>
      let buf := buf ++ chunk in
      match drain (length buf) buf with
      | (ys, Ok buf') =>
          let '(zs, e) := receive_from buf' sock' in (ys ++ zs, e)
      | (ys, Raise e) => (ys, Raised e)
      end
  end.

(** [receive(sock)]: [buf = b""]. *)
Definition receive (sock : list recv_result) : list json * ending :=
  receive_from [] sock.

End with_json.
End json_transport.

(** *** The stream as lines

    The reading of a byte stream that [receive] is compared with: its
    newline-terminated lines in order, and the bytes after the last
    newline. *)

Module framing.

Fixpoint lines_of (s : bytes) : list bytes * bytes :=
  match s with
  | [] => ([], [])
  | b :: s' =>
      let '(ls, r) := lines_of s' in
      if decide (b = nl) then ([] :: ls, r)
      else match ls with
           | [] => ([], b :: r)
           | l :: ls' => ((b :: l) :: ls', r)
           end
  end.

Definition complete_lines (s : bytes) : list bytes := (lines_of s).1.

Definition unterminated (s : bytes) : bytes := (lines_of s).2.

(** The buffer the inner loop hands back, or the exception it ends with. *)
Definition left_over (e : json_transport.ending) (buf : bytes) : res bytes :=
  match e with
  | json_transport.StopIteration => Ok buf
  | json_transport.Raised x => Raise x
  end.

(** The stream is over: the next [recv] returns no byte. *)
Definition at_eof (sock : list json_transport.recv_result) : Prop :=
  match sock with
  | [] | json_transport.Recv [] :: _ => True
  | _ => False
  end.

(** A line as [send] writes it: no newline inside, not empty, and no
    whitespace at either end. *)
Definition one_line (l : bytes) : Prop :=
  (nl ∉ l) ∧ l ≠ [] ∧ strip l = l.

Section with_json.
Context `{!JsonLib}.

(** What [receive] does with one line after another. *)
Fixpoint yield_lines (ls : list bytes) : list json * json_transport.ending :=
  match ls with
  | [] => ([], json_transport.StopIteration)
  | l :: ls' =>
      match strip l with
      | [] => yield_lines ls'
      | line =>
          match json_loads line with
          | Ok msg => let '(ys, e) := yield_lines ls' in (msg :: ys, e)
          | Raise e => ([], json_transport.Raised e)
          end
      end
  end.

(** An envelope the JSON library writes on one line and reads back. *)
Definition valid_envelope (E : json) : Prop :=
  one_line (json_dumps E) ∧ json_loads (json_dumps E) = Ok E.

(** Several [send] calls in a row on the same socket. *)
Fixpoint send_each {W} (sendall : bytes -> M W unit) (objs : list json)
  : M W unit :=
  match objs with
  | [] => ret tt
  | obj :: objs' =>
      run! json_transport.send sendall (PJson obj) then
      send_each sendall objs'
  end.
End with_json.
End framing.

(** ** vsock_bridge/protocols/dpm.py *)

Module dpm.

(** [d.get(k)] on a value that came out of [json.loads]: Python's [None]
    is [JNull]; a value that is not a dict has no [get]. *)
Definition get (d : json) (k : string) : res json :=
  match d with
  | JObj kvs => Ok (default JNull (dict_get k kvs))
  | _ => Raise AttributeError
  end.

(** [d.get(k, fallback)]. *)
Definition get_or (d : json) (k : string) (fallback : json) : res json :=
  match d with
  | JObj kvs => Ok (default fallback (dict_get k kvs))
  | _ => Raise AttributeError
  end.

(** [x == "text"] for a value [x] of any type. *)
Definition str_eqb (x : json) (text : string) : bool :=
  match x with
  | JStr s => bool_decide (s = text)
  | _ => false
  end.

Definition _str_ok (v : json) : res string :=
  match v with
  | JStr s => if decide (s = "") then Raise ValueError else Ok s
  | _ => Raise ValueError
  end.

Definition is_str (v : json) : bool :=
  match v with JStr _ => true | _ => false end.

Definition _is_list_of_str (v : json) : bool :=
  match v with
  | JArr xs => forallb is_str xs
  | _ => false
  end.

(** [list(v)] once [_is_list_of_str(v)] holds. *)
Definition str_items (v : json) : list string :=
  match v with
  | JArr xs => omap (fun x => match x with JStr s => Some s | _ => None end) xs
  | _ => []
  end.

(** The guard [v is not None and not isinstance(v, str)] raising
    [ValueError], and the value it lets through. *)
Definition str_or_none (v : json) : res (option string) :=
  match v with
  | JNull => Ok None
  | JStr s => Ok (Some s)
  | _ => Raise ValueError
  end.

Definition of_opt_str (o : option string) : json :=
  match o with
  | Some s => JStr s
  | None => JNull
  end.

Definition of_strs (l : list string) : json := JArr (JStr <$> l).

Definition envelope (msg_type : string) (payload : json) : json :=
  JObj [("type", JStr msg_type); ("payload", payload)].

Module DeviceConnected.
Definition MSG_TYPE : string := "device_connected".

Record t : Type := mk {
  device_id : string;
  vendor : string;
  product : string;
  permitted_vms : list string;
  current_vm : option string;
}.

Definition init (device_id vendor product : string)
    (permitted_vms : list string) (current_vm : option string) : res t :=
  try! device_id := _str_ok (JStr device_id) in
  try! vendor := _str_ok (JStr vendor) in
  try! product := _str_ok (JStr product) in
  Ok (mk device_id vendor product permitted_vms current_vm).

(** The [device] property: the dict kept in [_data]. *)
Definition device (m : t) : pydict json :=
  [("device_id", JStr (device_id m));
   ("vendor", JStr (vendor m));
   ("product", JStr (product m));
   ("permitted_vms", of_strs (permitted_vms m));
   ("current_vm", of_opt_str (current_vm m))].

Definition to_json (m : t) : json :=
  envelope MSG_TYPE (JObj [("device", JObj (device m))]).

Definition from_payload (pl : json) : res t :=
  try! dev := get pl "device" in
  match dev with
  | JObj _ =>
      try! device_id := res_bind (get dev "device_id") _str_ok in
      try! vendor := res_bind (get dev "vendor") _str_ok in
      try! product := res_bind (get dev "product") _str_ok in
      try! fallback := get_or dev "permitted-vms" (JArr []) in
      try! permitted := get_or dev "permitted_vms" fallback in
      try! fallback := get dev "current-vm" in
      try! current_vm := get_or dev "current_vm" fallback in
      if _is_list_of_str permitted then
        try! current_vm := str_or_none current_vm in
        init device_id vendor product (str_items permitted) current_vm
      else Raise ValueError
  | _ => Raise ValueError
  end.

Definition from_message (msg : json) : res (option t) :=
  try! ty := get msg "type" in
  if str_eqb ty MSG_TYPE then
    try! pl := get_or msg "payload" (JObj []) in
    try! m := from_payload pl in
    Ok (Some m)
  else Ok None.

(** The messages [init] builds: the three names are not empty. *)
Definition well_formed (m : t) : Prop :=
  device_id m ≠ "" ∧ vendor m ≠ "" ∧ product m ≠ "".
End DeviceConnected.

Module DeviceRemoved.
Definition MSG_TYPE : string := "device_removed".

Record t : Type := mk { device_id : string }.

Definition init (device_id : string) : res t :=
  try! device_id := _str_ok (JStr device_id) in
  Ok (mk device_id).

Definition to_json (m : t) : json :=
  envelope MSG_TYPE (JObj [("device_id", JStr (device_id m))]).

Definition from_payload (pl : json) : res t :=
  try! device_id := res_bind (get pl "device_id") _str_ok in
  init device_id.

Definition from_message (msg : json) : res (option t) :=
  try! ty := get msg "type" in
  if str_eqb ty MSG_TYPE then
    try! pl := get_or msg "payload" (JObj []) in
    try! m := from_payload pl in
    Ok (Some m)
  else Ok None.
End DeviceRemoved.

Module PassthroughAck.
Definition MSG_TYPE : string := "passthrough_ack".

(** The three keys [__init__] stores in [_data].  The [reason] argument
    is checked and then dropped: no field holds it. *)
Record t : Type := mk {
  device_id : string;
  current_vm : option string;
  status : string;
}.

(** [status not in ("ok", "denied", "error")], negated. *)
Definition status_ok (status : json) : bool :=
  str_eqb status "ok" || str_eqb status "denied" || str_eqb status "error".

Definition init (device_id : string) (current_vm : option string)
    (status : string) (reason : option string) : res t :=
  if status_ok (JStr status) then
    try! device_id := _str_ok (JStr device_id) in
    Ok (mk device_id current_vm status)
  else Raise ValueError.

(** [self.reason]: the class has the properties [device_id],
    [current_vm] and [status] and the attributes [MSG_TYPE] and [_data];
    nothing is called [reason], so the lookup raises. *)
Definition reason (m : t) : res (option string) := Raise AttributeError.

Definition to_json (m : t) : res json :=
  let payload :=
    [("device_id", JStr (device_id m));
     ("current_vm", of_opt_str (current_vm m));
     ("status", JStr (status m))] in
  try! r := reason m in
  let payload :=
    match r with
    | Some text => dict_set "reason" (JStr text) payload
    | None => payload
    end in
  Ok (envelope MSG_TYPE (JObj payload)).

Definition from_payload (pl : json) : res t :=
  try! device_id := res_bind (get pl "device_id") _str_ok in
  try! fallback := get pl "current-vm" in
  try! current_vm := get_or pl "current_vm" fallback in
  try! status := get_or pl "status" (JStr "ok") in
  try! reason := get pl "reason" in
  try! current_vm := str_or_none current_vm in
  if status_ok status then
    try! reason := str_or_none reason in
    match status with
    | JStr status => init device_id current_vm status reason
    | _ => Raise ValueError
    end
  else Raise ValueError.

Definition from_message (msg : json) : res (option t) :=
  try! ty := get msg "type" in
  if str_eqb ty MSG_TYPE then
    try! pl := get_or msg "payload" (JObj []) in
    try! m := from_payload pl in
    Ok (Some m)
  else Ok None.

(** What [from_payload] reads from a payload dict for [current_vm] and
    for [reason]. *)
Definition field_current_vm (pl : pydict json) : json :=
  default (default JNull (dict_get "current-vm" pl)) (dict_get "current_vm" pl).

Definition field_reason (pl : pydict json) : json :=
  default JNull (dict_get "reason" pl).

(** The three values a status may have. *)
Definition statuses : list json := [JStr "ok"; JStr "denied"; JStr "error"].
End PassthroughAck.

Module ConnectedDevices.
Definition MSG_TYPE : string := "connected_devices".

(** One value of the [clean] dict. *)
Record info : Type := mk_info {
  vendor : string;
  product : string;
  permitted_vms : list string;
  current_vm : option string;
}.

Record t : Type := mk { devices : pydict info }.

Definition clean_info (i : json) : res info :=
  match i with
  | JObj _ =>
      try! vendor := res_bind (get i "vendor") _str_ok in
      try! product := res_bind (get i "product") _str_ok in
      try! fallback := get_or i "permitted-vms" (JArr []) in
      try! permitted := get_or i "permitted_vms" fallback in
      try! fallback := get i "current-vm" in
      try! current_vm := get_or i "current_vm" fallback in
      if _is_list_of_str permitted then
        try! current_vm := str_or_none current_vm in
        Ok (mk_info vendor product (str_items permitted) current_vm)
      else Raise ValueError
  | _ => Raise ValueError
  end.

(** The loop [for did, info in devices.items()]. *)
Fixpoint clean_items (items : pydict json) (clean : pydict info)
  : res (pydict info) :=
  match items with
  | [] => Ok clean
  | (did, i) :: items' =>
      try! c := clean_info i in
      clean_items items' (dict_set did c clean)
  end.

Definition init (devices : pydict json) : res t :=
  try! clean := clean_items devices [] in
  Ok (mk clean).

Definition info_dict (i : info) : pydict json :=
  [("vendor", JStr (vendor i));
   ("product", JStr (product i));
   ("permitted_vms", of_strs (permitted_vms i));
   ("current_vm", of_opt_str (current_vm i))].

(** The [devices] property as the dict of dicts it is. *)
Definition devices_dict (m : t) : pydict (pydict json) :=
  prod_map id info_dict <$> devices m.

(** [out] is filled in the order of [self.devices.items()], whose keys
    are distinct, so it has the same keys in the same order. *)
Definition to_json (m : t) : json :=
  let out := prod_map id (fun i => JObj (info_dict i)) <$> devices m in
  envelope MSG_TYPE (JObj [("devices", JObj out)]).

Definition from_payload (pl : json) : res t :=
  try! raw := get pl "devices" in
  match raw with
  | JObj items => init items
  | _ => Raise ValueError
  end.

Definition from_message (msg : json) : res (option t) :=
  try! ty := get msg "type" in
  if str_eqb ty MSG_TYPE then
    try! pl := get_or msg "payload" (JObj []) in
    try! m := from_payload pl in
    Ok (Some m)
  else Ok None.
End ConnectedDevices.

(** [if pl:] on a payload: an empty dict, list or string, zero, [False]
    and [None] are falsy. *)
Definition truthy (v : json) : bool :=
  match v with
  | JNull | JBool false | JStr "" | JArr [] | JObj [] => false
  | JNum n => negb (Z.eqb n 0)
  | _ => true
  end.

Module GetDevices.
Definition MSG_TYPE : string := "get_devices".

Definition to_json : json := envelope MSG_TYPE (JObj []).

Definition from_payload (pl : json) : res unit :=
  if truthy pl then Raise ValueError else Ok tt.

Definition from_message (msg : json) : res (option unit) :=
  try! ty := get msg "type" in
  if str_eqb ty MSG_TYPE then
    try! pl := get_or msg "payload" (JObj []) in
    try! m := from_payload pl in
    Ok (Some m)
  else Ok None.
End GetDevices.

Module Reset.
Definition MSG_TYPE : string := "reset".

Definition to_json : json := envelope MSG_TYPE (JObj []).

Definition from_payload (pl : json) : res unit :=
  if truthy pl then Raise ValueError else Ok tt.

Definition from_message (msg : json) : res (option unit) :=
  try! ty := get msg "type" in
  if str_eqb ty MSG_TYPE then
    try! pl := get_or msg "payload" (JObj []) in
    try! m := from_payload pl in
    Ok (Some m)
  else Ok None.
End Reset.

Module PassthroughRequest.
Definition MSG_TYPE : string := "passthrough_request".

Record t : Type := mk { device_id : string; target_vm : string }.

Definition init (device_id target_vm : string) : res t :=
  try! device_id := _str_ok (JStr device_id) in
  try! target_vm := _str_ok (JStr target_vm) in
  Ok (mk device_id target_vm).

Definition to_json (m : t) : json :=
  envelope MSG_TYPE
    (JObj [("device_id", JStr (device_id m));
           ("target_vm", JStr (target_vm m))]).

Definition from_payload (pl : json) : res t :=
  try! device_id := res_bind (get pl "device_id") _str_ok in
  try! target_vm := res_bind (get pl "target_vm") _str_ok in
  init device_id target_vm.

Definition from_message (msg : json) : res (option t) :=
  try! ty := get msg "type" in
  if str_eqb ty MSG_TYPE then
    try! pl := get_or msg "payload" (JObj []) in
    try! m := from_payload pl in
    Ok (Some m)
  else Ok None.
End PassthroughRequest.

Definition get_message_type (msg : json) : res json := get msg "type".

End dpm.

(** ** vsock_bridge/vsock.py: [VsockClient] *)

(** [try: body except Exception: handler]. *)
Definition try_except {W A} (body : M W A) (handler : exn -> M W A) : M W A :=
  fun w => match body w with
           | (Ok a, w') => (Ok a, w')
           | (Raise e, w') => handler e w'
           end.

(** [try: body except OSError: handler]: any other exception goes on to
    the caller. *)
Definition try_except_OSError {W A} (body : M W A) (handler : M W A) : M W A :=
  fun w => match body w with
           | (Raise OSError, w') => handler w'
           | out => out
           end.

Module vsock.

(** The peer and the channel, as the client meets them: how many
    [connect] calls raise [OSError] before the [i]-th connection is
    made (the peer does appear in the end, so [server()] returns), and
    whether the [i]-th [sendall] call succeeds.  Both count from 0. *)
Record network : Type := {
  connect_failures : nat -> nat;
  sendall_ok : nat -> bool;
}.

(** The fields of a [VsockClient] that change: whether [self.conn] is a
    socket, and how far into [network] the client is. *)
Record VsockClient : Type := mkClient {
  conn : bool;
  connects : nat;
  sendalls : nat;
}.

(** A client, the object whose callbacks it holds, and the trace. *)
Record world (Owner : Type) : Type := mkWorld {
  client : VsockClient;
  owner : Owner;
  trace : list event;
}.
Arguments mkWorld {Owner} client owner trace.
Arguments client {Owner} w.
Arguments owner {Owner} w.
Arguments trace {Owner} w.

Section client.
Context `{!JsonLib} {Owner : Type}.
Variable net : network.
(** The [on_disconnect] callback given to the constructor.  Both
    callers pass a method that only updates a field of its object. *)
Variable on_disconnect : Owner -> Owner.

Definition emit (es : list event) : M (world Owner) unit :=
  modify (fun w => mkWorld (client w) (owner w) (trace w ++ es)).

Definition log (level : log_level) (text : string) : M (world Owner) unit :=
  emit [ELog level text].

Definition set_client (c : VsockClient) : M (world Owner) unit :=
  modify (fun w => mkWorld c (owner w) (trace w)).

(** [server()]: connect if there is no connection, retrying every
    second until the peer accepts. *)
Definition server : M (world Owner) unit :=
  do! c := gets client in
  if conn c then ret tt
  else
    run! emit (replicate (connect_failures net (connects c)) EConnectFailed
               ++ [EConnected]) then
    set_client (mkClient true (S (connects c)) (sendalls c)).

(** [self.conn.sendall(data)]. *)
Definition sendall (data : bytes) : M (world Owner) unit :=
  do! c := gets client in
  run! set_client (mkClient (conn c) (connects c) (S (sendalls c))) then
  if sendall_ok net (sendalls c) then emit [ESendall data]
  else run! emit [ESendallFailed data] then raise OSError.

Definition close_connection : M (world Owner) unit :=
  do! c := gets client in
  if conn c then
    run! emit [EClosed] then
    run! set_client (mkClient false (connects c) (sendalls c)) then
    modify (fun w => mkWorld (client w) (on_disconnect (owner w)) (trace w))
  else ret tt.

(** The loop [for _ in range(n)] of [send]. *)
Fixpoint send_attempts (n : nat) (data : pyobj) : M (world Owner) bool :=
  match n with
  | O => ret false
  | S n' =>
      try_except
        (run! server then
         run! json_transport.send sendall data then
         ret true)
        (fun _ =>
           run! log LError "Vsock server error, send failed! Retrying..." then
           run! close_connection then
           send_attempts n' data)
  end.

Definition send (data : pyobj) : M (world Owner) bool :=
  send_attempts 5 data.

(** The loop [for msg in json_transport.receive(...): self.on_message(msg)]:
    the messages the generator yields are handed over one by one; a call
    that raises ends the loop. *)
Fixpoint for_each (on_message : json -> M (world Owner) unit)
    (msgs : list json) : M (world Owner) unit :=
  match msgs with
  | [] => ret tt
  | msg :: msgs' =>
      run! on_message msg then
      for_each on_message msgs'
  end.

(** One turn of the loop [while not self.stop_flag.is_set()] of [run];
    [sock] is what the [recv] calls of this turn return.  The generator
    raises what [recv] or [json.loads] raised once the messages before
    were handed over.  The text of [err] is left out of the log record. *)
Definition run_once (on_message : json -> M (world Owner) unit)
    (sock : list json_transport.recv_result) : M (world Owner) unit :=
  run! try_except_OSError
         (run! server then
          let '(msgs, e) := json_transport.receive sock in
          run! for_each on_message msgs then
          match e with
          | json_transport.StopIteration => ret tt
          | json_transport.Raised x => raise x
          end)
         (log LError "VSOCK server error") then
  close_connection.

End client.
End vsock.

(** ** upm/host/service.py: [HostService] *)

Module host.

(** One value of [device_registry]: the dict [notify_device_connected]
    stores, with the argument types its signature declares. *)
Record entry : Type := mk_entry {
  device_id : string;
  vendor : string;
  product : string;
  permitted_vms : list string;
  current_vm : string;
}.

(** The same value as the dict it is, keys as the host spells them. *)
Definition entry_dict (e : entry) : json :=
  JObj [("device_id", JStr (device_id e));
        ("vendor", JStr (vendor e));
        ("product", JStr (product e));
        ("permitted-vms", dpm.of_strs (permitted_vms e));
        ("current-vm", JStr (current_vm e))].

Record HostService : Type := mk {
  device_registry : pydict entry;
  connected : bool;
}.

Abbreviation W := (vsock.world HostService).

Section service.
Context `{!JsonLib}.
Variable net : vsock.network.
(** The constructor argument: [None], or the external operation that
    moves the device, returning whether it succeeded. *)
Variable passthrough_handler : option (string -> string -> bool).

Definition set_registry (reg : pydict entry) : M W unit :=
  modify (fun w =>
    vsock.mkWorld (vsock.client w)
      (mk reg (connected (vsock.owner w))) (vsock.trace w)).

Definition set_connected (b : bool) (self : HostService) : HostService :=
  mk (device_registry self) b.

Definition registry : M W (pydict entry) :=
  gets (fun w => device_registry (vsock.owner w)).

Definition on_connect : HostService -> HostService := set_connected true.

Definition on_disconnect : HostService -> HostService := set_connected false.

(** [self.gui_vm.send]. *)
Definition gui_vm_send (data : pyobj) : M W bool :=
  vsock.send net on_disconnect data.

Definition log (level : log_level) (text : string) : M W unit :=
  vsock.log level text.

Definition notify_device_connected (device_id vendor product : string)
    (permitted_vms : list string) (current_vm : string) : M W bool :=
  do! reg := registry in
  if dict_has device_id reg then
    run! log LError ("Device " +:+ device_id
                     +:+ " already in registry, connection request ignored.") then
    ret true
  else
    run! set_registry
      (dict_set device_id
         (mk_entry device_id vendor product permitted_vms current_vm) reg) then
    do! device_connected_msg :=
      lift (dpm.DeviceConnected.init device_id vendor product permitted_vms
              (Some current_vm)) in
    gui_vm_send (PJson (dpm.DeviceConnected.to_json device_connected_msg)).

(** [reset_msg = dpm.Reset()] is handed to [send] as the object it is,
    not as [reset_msg.to_json()]. *)
Definition reset : M W bool :=
  run! set_registry [] then
  gui_vm_send (PInstance "Reset").

Definition notify_device_disconnected (device_id : string) : M W bool :=
  do! reg := registry in
  if dict_has device_id reg then
    run! set_registry (dict_del device_id reg) then
    do! device_removed_msg := lift (dpm.DeviceRemoved.init device_id) in
    gui_vm_send (PJson (dpm.DeviceRemoved.to_json device_removed_msg))
  else
    run! log LError ("Device " +:+ device_id
                     +:+ " not found in registry, disconnection request ignored.") then
    ret false.

Definition notify_device_passthrough (device_id new_vm : string) : M W bool :=
  do! reg := registry in
  match dict_get device_id reg with
  | None =>
      run! log LError ("Device " +:+ device_id
                       +:+ " not found in registry, passthrough request ignored.") then
      ret false
  | Some e =>
      if bool_decide (new_vm ∈ permitted_vms e) then
        if bool_decide (new_vm ≠ current_vm e) then
          run! set_registry
            (dict_set device_id
               (mk_entry (host.device_id e) (vendor e) (product e)
                  (permitted_vms e) new_vm) reg) then
          do! passthrough_ack_msg :=
            lift (dpm.PassthroughAck.init device_id (Some new_vm) "ok" None) in
          do! data := lift (dpm.PassthroughAck.to_json passthrough_ack_msg) in
          gui_vm_send (PJson data)
        else ret true
      else
        run! log LError ("Device " +:+ device_id
                         +:+ " not permitted on VM " +:+ new_vm) then
        ret false
  end.

(** [self.passthrough_handler(self.metadata, device_id, target_vm)]. *)
Definition call_passthrough_handler (device_id target_vm : string) : M W bool :=
  match passthrough_handler with
  | None => raise TypeError
  | Some handler =>
      run! vsock.emit [EPassthrough device_id target_vm] then
      ret (handler device_id target_vm)
  end.

Definition handle_request (msg : json) : M W unit :=
  do! msgtype := lift (dpm.get_message_type msg) in
  if dpm.str_eqb msgtype dpm.GetDevices.MSG_TYPE then
    do! reg := registry in
    do! connected_devices :=
      lift (dpm.ConnectedDevices.init (prod_map id entry_dict <$> reg)) in
    do! sent := gui_vm_send (PJson (dpm.ConnectedDevices.to_json connected_devices)) in
    if sent then ret tt
    else log LError "System error! Service restart required."
  else if dpm.str_eqb msgtype dpm.PassthroughRequest.MSG_TYPE then
    do! passthrough_request := lift (dpm.PassthroughRequest.from_message msg) in
    match passthrough_request with
    | None => raise AttributeError
    | Some request =>
        let device_id := dpm.PassthroughRequest.device_id request in
        let target_vm := dpm.PassthroughRequest.target_vm request in
        do! reg := registry in
        if dict_has device_id reg then
          do! passed := call_passthrough_handler device_id target_vm in
          if passed then
            do! notified := notify_device_passthrough device_id target_vm in
            if notified then ret tt
            else log LError "Notify error! Service restart required."
          else log LError "Passthrough error! Service restart required"
        else log LError ("Device " +:+ device_id +:+ " not found in registry")
    end
  else log LError "Unknown msg".

End service.
End host.

(** ** upm/guest/device_registry.py: [DeviceRegister] *)

Module guest.

(** The mirror: device id to the dict received for it. *)
Record DeviceRegister : Type := mk {
  device_registry : pydict (pydict json);
  connected : bool;
}.

Abbreviation W := (vsock.world DeviceRegister).

Definition set_registry (reg : pydict (pydict json)) : M W unit :=
  modify (fun w =>
    vsock.mkWorld (vsock.client w)
      (mk reg (connected (vsock.owner w))) (vsock.trace w)).

Definition registry : M W (pydict (pydict json)) :=
  gets (fun w => device_registry (vsock.owner w)).

(** [atomic_write_registry(self.device_registry)]: the file write is the
    persistence collaborator's; the method swallows its failures. *)
Definition atomic_write_registry : M W unit :=
  do! reg := registry in
  vsock.emit [EWriteRegistry reg].

Definition show_vm (vm : option string) : string := default "None" vm.

Definition on_msg (msg : json) : M W unit :=
  do! msgtype := lift (dpm.get_message_type msg) in
  if dpm.str_eqb msgtype dpm.DeviceConnected.MSG_TYPE then
    do! dev := lift (dpm.DeviceConnected.from_message msg) in
    match dev with
    | None => raise AttributeError
    | Some dev =>
        do! reg := registry in
        run! set_registry
          (dict_set (dpm.DeviceConnected.device_id dev)
             (dpm.DeviceConnected.device dev) reg) then
        run! atomic_write_registry then
        vsock.emit [EPopup (dpm.DeviceConnected.device_id dev)]
    end
  else if dpm.str_eqb msgtype dpm.DeviceRemoved.MSG_TYPE then
    do! dev := lift (dpm.DeviceRemoved.from_message msg) in
    match dev with
    | None => raise AttributeError
    | Some dev =>
        do! reg := registry in
        if dict_has (dpm.DeviceRemoved.device_id dev) reg then
          run! set_registry (dict_del (dpm.DeviceRemoved.device_id dev) reg) then
          atomic_write_registry
        else vsock.log LError (dpm.DeviceRemoved.device_id dev +:+ " not found!")
    end
  else if dpm.str_eqb msgtype dpm.ConnectedDevices.MSG_TYPE then
    do! connected_devices := lift (dpm.ConnectedDevices.from_message msg) in
    match connected_devices with
    | None => raise AttributeError
    | Some connected_devices =>
        run! set_registry (dpm.ConnectedDevices.devices_dict connected_devices) then
        atomic_write_registry
    end
  else if dpm.str_eqb msgtype dpm.PassthroughAck.MSG_TYPE then
    do! ack := lift (dpm.PassthroughAck.from_message msg) in
    match ack with
    | None => raise AttributeError
    | Some ack =>
        if bool_decide (dpm.PassthroughAck.status ack = "ok") then
          do! reg := registry in
          match dict_get (dpm.PassthroughAck.device_id ack) reg with
          | None => raise KeyError
          | Some d =>
              run! set_registry
                (dict_set (dpm.PassthroughAck.device_id ack)
                   (dict_set "current_vm"
                      (dpm.of_opt_str (dpm.PassthroughAck.current_vm ack)) d)
                   reg) then
              atomic_write_registry
          end
        else
          vsock.log LError
            ("Passthrough failed: " +:+ dpm.PassthroughAck.device_id ack
             +:+ " -> " +:+ show_vm (dpm.PassthroughAck.current_vm ack))
    end
  else if dpm.str_eqb msgtype dpm.Reset.MSG_TYPE then
    run! set_registry [] then
    atomic_write_registry
  else vsock.log LError "Unexpected msg".

Section client.
Context `{!JsonLib}.
Variable net : vsock.network.

Definition set_connected (b : bool) (self : DeviceRegister) : DeviceRegister :=
  mk (device_registry self) b.

Definition on_disconnect : DeviceRegister -> DeviceRegister :=
  set_connected false.

(** [self.server.send]. *)
Definition server_send (data : pyobj) : M W bool :=
  vsock.send net on_disconnect data.

Definition request_passthrough (device_id new_vm : string) : M W bool :=
  do! passthrough_request :=
    lift (dpm.PassthroughRequest.init device_id new_vm) in
  do! sent :=
    server_send (PJson (dpm.PassthroughRequest.to_json passthrough_request)) in
  if sent then ret true
  else
    run! vsock.log LError "Failed to send passthrough request to host" then
    ret false.

Definition on_connect : M W unit :=
  run! modify (fun w =>
         vsock.mkWorld (vsock.client w) (set_connected true (vsock.owner w))
           (vsock.trace w)) then
  do! sent := server_send (PJson dpm.GetDevices.to_json) in
  if sent then ret tt
  else vsock.log LCritical "System error! Service restart required.".

End client.

End guest.

(** ** vhotplug/vhotplug.py: [UserDevices] *)

Module vhotplug.
Section UserDevices.
(** The type of the [usbInfo] values.  [copy.deepcopy] stores a value of
    its own, which a value of the model is anyway. *)
Context {usbInfo : Type}.

(** [self._devices]; an id is the string [dev_id()] returns, or [None]. *)
Definition UserDevices : Type := list (option string * usbInfo).

Fixpoint get (id : option string) (self : UserDevices) : option usbInfo :=
  match self with
  | [] => None
  | (id', info) :: self' =>
      if decide (id' = id) then Some info else get id self'
  end.

Fixpoint add (id : option string) (info : usbInfo) (self : UserDevices)
  : UserDevices :=
  match self with
  | [] => [(id, info)]
  | (id', info') :: self' =>
      if decide (id' = id) then (id, info) :: self'
      else (id', info') :: add id info self'
  end.

(** [del self._devices[id]]. *)
Fixpoint remove (id : option string) (self : UserDevices) : UserDevices :=
  match self with
  | [] => []
  | (id', info') :: self' =>
      if decide (id' = id) then self' else (id', info') :: remove id self'
  end.

(** [delete(id)]: what it returns, and the devices afterwards. *)
Definition delete (id : option string) (self : UserDevices)
  : bool * UserDevices :=
  if bool_decide (is_Some (get id self)) then (true, remove id self)
  else (false, self).

Definition list_ids (self : UserDevices) : list (option string) := self.*1.

Definition has (id : option string) (self : UserDevices) : bool :=
  bool_decide (id ≠ None) && bool_decide (is_Some (get id self)).

End UserDevices.
End vhotplug.

(** ** Vocabulary of the properties *)

(** Every run of [m] takes a world to one related to it by [R], whether
    the run returns or raises. *)
Definition keeps {W A} (R : W -> W -> Prop) (m : M W A) : Prop :=
  forall w, R w (m w).2.



(** The events of the client itself: traffic and log records, not the
    calls its owner makes to its collaborators. *)
Definition client_event (e : event) : Prop :=
  match e with
  | EPassthrough _ _ | EWriteRegistry _ | EPopup _ => False
  | _ => True
  end.

(** The passthrough handler was not called between [w] and [w']. *)
Definition same_calls {Owner} (w w' : vsock.world Owner) : Prop :=
  handler_calls (vsock.trace w') = handler_calls (vsock.trace w).

(** [decodes r]: a [from_message] call returned a message, not [None]. *)
Definition decodes {A} (r : res (option A)) : bool :=
  match r with
  | Ok (Some _) => true
  | _ => false
  end.

Module reg_rel.

(** An entry of the host registry after a passthrough: the same device,
    now on a VM of its permitted list. *)
Definition moved (e e' : host.entry) : Prop :=
  e' = e
  ∨ (host.current_vm e' ∈ host.permitted_vms e
     ∧ e' = host.mk_entry (host.device_id e) (host.vendor e) (host.product e)
              (host.permitted_vms e) (host.current_vm e')).

(** The same devices in the same order, each one where it was or moved. *)
Definition step (reg reg' : pydict host.entry) : Prop :=
  Forall2 (fun kv kv' => kv.1 = kv'.1 ∧ moved kv.2 kv'.2) reg reg'.

(** The entry the guest keeps for a device the host announced, and the
    one it keeps for a device of a snapshot. *)
Definition announced (e : host.entry) : pydict json :=
  dpm.DeviceConnected.device
    (dpm.DeviceConnected.mk (host.device_id e) (host.vendor e) (host.product e)
       (host.permitted_vms e) (Some (host.current_vm e))).

Definition info_of (e : host.entry) : dpm.ConnectedDevices.info :=
  dpm.ConnectedDevices.mk_info (host.vendor e) (host.product e)
    (host.permitted_vms e) (Some (host.current_vm e)).

(** An entry [ConnectedDevices] accepts, and a device of a snapshot
    that it builds. *)
Definition valid (e : host.entry) : Prop :=
  host.vendor e ≠ "" ∧ host.product e ≠ "".

Definition valid_info (i : dpm.ConnectedDevices.info) : Prop :=
  dpm.ConnectedDevices.vendor i ≠ "" ∧ dpm.ConnectedDevices.product i ≠ "".

(** The envelope of an ack, as a peer would write it. *)
Definition ack (device_id : string) (current_vm : option string)
    (status : string) : json :=
  dpm.envelope dpm.PassthroughAck.MSG_TYPE
    (JObj [("device_id", JStr device_id);
           ("current_vm", dpm.of_opt_str current_vm);
           ("status", JStr status)]).

(** A relation on registries, read on the worlds that hold them. *)
Definition on_registry (R : pydict host.entry -> pydict host.entry -> Prop)
    (w w' : host.W) : Prop :=
  R (host.device_registry (vsock.owner w))
    (host.device_registry (vsock.owner w')).

End reg_rel.

(** ** A reference JSON codec

    An executable instance of [JsonLib], used to run the model on concrete
    messages.  It writes what [json.dumps(obj, separators=(",", ":"))]
    writes for the values of [json] (with [ensure_ascii], the default) and
    reads JSON text back.  Characters are the code points below 256;
    floats, raw bytes above 127 and [\u] escapes above 255 are outside it
    and are refused. *)

Module RefJson.

Definition of_string (s : string) : bytes := String.list_byte_of_string s.

Definition hex_digit (n : N) : byte :=
  nth (N.to_nat n) (of_string "0123456789abcdef") x30.

(** One character of a string, as [py_encode_basestring_ascii] writes it. *)
Definition escape (c : byte) : bytes :=
  match c with
  | x22 => [x5c; x22]
  | x5c => [x5c; x5c]
  | x08 => [x5c; x62]
  | x0c => [x5c; x66]
  | x0a => [x5c; x6e]
  | x0d => [x5c; x72]
  | x09 => [x5c; x74]
  | _ =>
      let n := Byte.to_N c in
      if ((n <? 32) || (126 <? n))%N
      then [x5c; x75; x30; x30; hex_digit (n / 16); hex_digit (n mod 16)]
      else [c]
  end.

Definition quote (s : string) : bytes :=
  x22 :: flat_map escape (of_string s) ++ [x22].

Fixpoint digits (u : Decimal.uint) : bytes :=
  match u with
  | Decimal.Nil => []
  | Decimal.D0 u => x30 :: digits u
  | Decimal.D1 u => x31 :: digits u
  | Decimal.D2 u => x32 :: digits u
  | Decimal.D3 u => x33 :: digits u
  | Decimal.D4 u => x34 :: digits u
  | Decimal.D5 u => x35 :: digits u
  | Decimal.D6 u => x36 :: digits u
  | Decimal.D7 u => x37 :: digits u
  | Decimal.D8 u => x38 :: digits u
  | Decimal.D9 u => x39 :: digits u
  end.

Definition decimal (z : Z) : bytes :=
  match z with
  | Z0 => [x30]
  | Zpos p => digits (Pos.to_uint p)
  | Zneg p => x2d :: digits (Pos.to_uint p)
  end.

(** [sep.join(parts)]. *)
Fixpoint join (sep : byte) (parts : list bytes) : bytes :=
  match parts with
  | [] => []
  | part :: parts' =>
      part ++ match parts' with
              | [] => []
              | _ :: _ => sep :: join sep parts'
              end
  end.

Fixpoint dumps (j : json) : bytes :=
  match j with
  | JNull => of_string "null"
  | JBool true => of_string "true"
  | JBool false => of_string "false"
  | JNum n => decimal n
  | JStr s => quote s
  | JArr xs => x5b :: join x2c (map dumps xs) ++ [x5d]
  | JObj kvs =>
      x7b :: join x2c (map (fun kv => quote kv.1 ++ x3a :: dumps kv.2) kvs)
      ++ [x7d]
  end.

(** JSON whitespace: space, [\t], [\n], [\r]. *)
Definition is_ws (b : byte) : bool :=
  match b with
  | x20 | x09 | x0a | x0d => true
  | _ => false
  end.

Fixpoint skip_ws (s : bytes) : bytes :=
  match s with
  | b :: s' => if is_ws b then skip_ws s' else s
  | [] => []
  end.

(** The input after the byte [c], if it starts with it. *)
Definition expect (c : byte) (s : bytes) : option bytes :=
  match s with
  | b :: r => if decide (b = c) then Some r else None
  | [] => None
  end.

Fixpoint expect_all (cs : bytes) (s : bytes) : option bytes :=
  match cs with
  | [] => Some s
  | c :: cs' =>
      match expect c s with
      | Some r => expect_all cs' r
      | None => None
      end
  end.

Definition hex_val (b : byte) : option N :=
  let n := Byte.to_N b in
  if ((48 <=? n) && (n <=? 57))%N then Some (n - 48)%N
  else if ((97 <=? n) && (n <=? 102))%N then Some (n - 87)%N
  else if ((65 <=? n) && (n <=? 70))%N then Some (n - 55)%N
  else None.

(** The longest run of digits at the start of the input. *)
Fixpoint parse_uint (s : bytes) : Decimal.uint * bytes :=
  match s with
  | x30 :: r => let '(u, r') := parse_uint r in (Decimal.D0 u, r')
  | x31 :: r => let '(u, r') := parse_uint r in (Decimal.D1 u, r')
  | x32 :: r => let '(u, r') := parse_uint r in (Decimal.D2 u, r')
  | x33 :: r => let '(u, r') := parse_uint r in (Decimal.D3 u, r')
  | x34 :: r => let '(u, r') := parse_uint r in (Decimal.D4 u, r')
  | x35 :: r => let '(u, r') := parse_uint r in (Decimal.D5 u, r')
  | x36 :: r => let '(u, r') := parse_uint r in (Decimal.D6 u, r')
  | x37 :: r => let '(u, r') := parse_uint r in (Decimal.D7 u, r')
  | x38 :: r => let '(u, r') := parse_uint r in (Decimal.D8 u, r')
  | x39 :: r => let '(u, r') := parse_uint r in (Decimal.D9 u, r')
  | _ => (Decimal.Nil, s)
  end.

(** A fraction or an exponent follows: the number is a float. *)
Definition float_follows (r : bytes) : bool :=
  match r with
  | x2e :: _ | x65 :: _ | x45 :: _ => true
  | _ => false
  end.

(** An integer without sign: [0], or digits that do not start with [0]. *)
Definition parse_nat (s : bytes) : option (N * bytes) :=
  match expect x30 s with
  | Some r => if float_follows r then None else Some (0%N, r)
  | None =>
      match parse_uint s with
      | (Decimal.Nil, _) => None
      | (u, r) => if float_follows r then None else Some (N.of_uint u, r)
      end
  end.

Definition parse_int (s : bytes) : option (Z * bytes) :=
  match expect x2d s with
  | Some s' =>
      match parse_nat s' with
      | Some (n, r) => Some ((- Z.of_N n)%Z, r)
      | None => None
      end
  | None =>
      match parse_nat s with
      | Some (n, r) => Some (Z.of_N n, r)
      | None => None
      end
  end.

(** The character an escape letter stands for. *)
Definition unescape (e : byte) : option byte :=
  match e with
  | x22 => Some x22
  | x5c => Some x5c
  | x2f => Some x2f
  | x62 => Some x08
  | x66 => Some x0c
  | x6e => Some x0a
  | x72 => Some x0d
  | x74 => Some x09
  | _ => None
  end.

(** The characters of a string up to its closing quote. *)
Fixpoint parse_chars (s : bytes) : option (bytes * bytes) :=
  match s with
  | [] => None
  | x22 :: r => Some ([], r)
  | x5c :: x75 :: a :: b :: c :: d :: r =>
      match hex_val a, hex_val b, hex_val c, hex_val d with
      | Some 0%N, Some 0%N, Some hi, Some lo =>
          match Byte.of_N (hi * 16 + lo), parse_chars r with
          | Some ch, Some (cs, r') => Some (ch :: cs, r')
          | _, _ => None
          end
      | _, _, _, _ => None
      end
  | x5c :: e :: r =>
      match unescape e, parse_chars r with
      | Some ch, Some (cs, r') => Some (ch :: cs, r')
      | _, _ => None
      end
  | ch :: r =>
      let n := Byte.to_N ch in
      if ((n <? 32) || (127 <? n))%N then None
      else match parse_chars r with
           | Some (cs, r') => Some (ch :: cs, r')
           | None => None
           end
  end.

Definition parse_string (s : bytes) : option (string * bytes) :=
  match expect x22 s with
  | Some r =>
      match parse_chars r with
      | Some (cs, r') => Some (String.string_of_list_byte cs, r')
      | None => None
      end
  | None => None
  end.

Section with_value.
(** The parser of one value, one level down. *)
Variable parse_value : bytes -> option (json * bytes).

(** After [[] when the array is not empty: values separated by commas,
    up to the closing bracket. *)
Fixpoint parse_items (fuel : nat) (s : bytes) : option (list json * bytes) :=
  match fuel with
  | O => None
  | S fuel' =>
      match parse_value s with
      | Some (v, r) =>
          match expect x2c (skip_ws r) with
          | Some r' =>
              match parse_items fuel' r' with
              | Some (vs, r'') => Some (v :: vs, r'')
              | None => None
              end
          | None =>
              match expect x5d (skip_ws r) with
              | Some r' => Some ([v], r')
              | None => None
              end
          end
      | None => None
      end
  end.

(** After [{] when the object is not empty: members separated by commas,
    up to the closing brace.  The pairs are returned in the order read. *)
Fixpoint parse_members (fuel : nat) (s : bytes)
  : option (list (string * json) * bytes) :=
  match fuel with
  | O => None
  | S fuel' =>
      match parse_string (skip_ws s) with
      | Some (k, r) =>
          match expect x3a (skip_ws r) with
          | Some r' =>
              match parse_value r' with
              | Some (v, r'') =>
                  match expect x2c (skip_ws r'') with
                  | Some r3 =>
                      match parse_members fuel' r3 with
                      | Some (kvs, r4) => Some ((k, v) :: kvs, r4)
                      | None => None
                      end
                  | None =>
                      match expect x7d (skip_ws r'') with
                      | Some r3 => Some ([(k, v)], r3)
                      | None => None
                      end
                  end
              | None => None
              end
          | None => None
          end
      | None => None
      end
  end.
End with_value.

(** [dict(pairs)]: a repeated key keeps its first place and its last
    value. *)
Definition dict_of_pairs (pairs : list (string * json)) : pydict json :=
  foldl (fun d kv => dict_set kv.1 kv.2 d) [] pairs.

Fixpoint parse_value (fuel : nat) (s : bytes) : option (json * bytes) :=
  match fuel with
  | O => None
  | S fuel' =>
      let s := skip_ws s in
      match expect x22 s with
      | Some _ =>
          match parse_string s with
          | Some (str, r) => Some (JStr str, r)
          | None => None
          end
      | None =>
      match expect x5b s with
      | Some r =>
          match expect x5d (skip_ws r) with
          | Some r' => Some (JArr [], r')
          | None =>
              match parse_items (parse_value fuel') fuel' r with
              | Some (vs, r') => Some (JArr vs, r')
              | None => None
              end
          end
      | None =>
      match expect x7b s with
      | Some r =>
          match expect x7d (skip_ws r) with
          | Some r' => Some (JObj [], r')
          | None =>
              match parse_members (parse_value fuel') fuel' r with
              | Some (kvs, r') => Some (JObj (dict_of_pairs kvs), r')
              | None => None
              end
          end
      | None =>
      match expect_all (of_string "null") s with
      | Some r => Some (JNull, r)
      | None =>
      match expect_all (of_string "true") s with
      | Some r => Some (JBool true, r)
      | None =>
      match expect_all (of_string "false") s with
      | Some r => Some (JBool false, r)
      | None =>
      match parse_int s with
      | Some (n, r) => Some (JNum n, r)
      | None => None
      end end end end end end end
  end.

(** [json.loads]: one value, then nothing but whitespace. *)
Definition loads (s : bytes) : res json :=
  match parse_value (S (length s)) s with
  | Some (v, r) =>
      match skip_ws r with
      | [] => Ok v
      | _ :: _ => Raise JSONDecodeError
      end
  | None => Raise JSONDecodeError
  end.

Definition lib : JsonLib := {| json_dumps := dumps; json_loads := loads |}.

(** What may follow a value in a text: nothing, a comma, or a closing
    bracket or brace. *)
Definition delimited (rest : bytes) : Prop :=
  match rest with
  | [] => True
  | b :: _ => b = x2c ∨ b = x5d ∨ b = x7d
  end.

(** [pv] reads the text of [x] back, whatever delimited text follows. *)
Definition reads (pv : bytes -> option (json * bytes)) (x : json) : Prop :=
  forall rest, delimited rest -> pv (dumps x ++ rest) = Some (x, rest).

End RefJson.

(** ** Concrete data for the examples *)

Module sample.

(** A peer that accepts the first connection and every write. *)
Definition good_net : vsock.network :=
  {| vsock.connect_failures := fun _ => 0; vsock.sendall_ok := fun _ => true |}.

(** A peer that refuses every write. *)
Definition dead_net : vsock.network :=
  {| vsock.connect_failures := fun _ => 0; vsock.sendall_ok := fun _ => false |}.

(** A handler that moves every device. *)
Definition handler_ok : option (string -> string -> bool) :=
  Some (fun _ _ => true).

Definition D : host.entry :=
  host.mk_entry "D" "Acme" "Keyboard" ["vm-a"; "vm-b"] "vm-a".

(** A host that knows [D], not yet connected to the GUI VM. *)
Definition host0 : host.W :=
  vsock.mkWorld (vsock.mkClient false 0 0) (host.mk [("D", D)] false) [].

Definition request (device_id target_vm : string) : json :=
  dpm.PassthroughRequest.to_json (dpm.PassthroughRequest.mk device_id target_vm).

Definition guest0 : guest.W :=
  vsock.mkWorld (vsock.mkClient false 0 0) (guest.mk [] false) [].

Definition connected1 : dpm.DeviceConnected.t :=
  dpm.DeviceConnected.mk "D" "Acme" "Keyboard" ["vm-a"; "vm-b"] (Some "vm-a").

Definition connected2 : dpm.DeviceConnected.t :=
  dpm.DeviceConnected.mk "D" "Other" "Mouse" ["vm-c"] None.

Definition E1 : json := dpm.DeviceConnected.to_json connected1.

Definition E2 : json := request "D" "vm-b".

(** What the reference codec puts on the wire for a list of envelopes. *)
Definition stream (Es : list json) : bytes :=
  concat ((fun E => RefJson.dumps E ++ [nl]) <$> Es).

(** A stream read in two pieces, and in three. *)
Definition cut (n : nat) (s : bytes) : list bytes := [take n s; drop n s].

Definition cut3 (n m : nat) (s : bytes) : list bytes :=
  [take n s; take (m - n) (drop n s); drop m s].

(** A handler that moves no device. *)
Definition handler_no : option (string -> string -> bool) :=
  Some (fun _ _ => false).

(** A host whose registry holds a device without a vendor name. *)
Definition host_bad : host.W :=
  vsock.mkWorld (vsock.mkClient false 0 0)
    (host.mk [("E", host.mk_entry "E" "" "Mouse" ["vm-a"] "")] false) [].

(** A guest whose mirror holds [D] as the host announced it. *)
Definition guest1 : guest.W :=
  vsock.mkWorld (vsock.mkClient false 0 0)
    (guest.mk [("D", reg_rel.announced D)] false) [].

(** A snapshot of two devices. *)
Definition snapshot : dpm.ConnectedDevices.t :=
  dpm.ConnectedDevices.mk
    [("D", reg_rel.info_of D);
     ("E", dpm.ConnectedDevices.mk_info "Acme" "Mouse" ["vm-a"] None)].

(** The answer to [get_devices] of a host that holds [D]. *)
Definition reply : json :=
  dpm.ConnectedDevices.to_json
    (dpm.ConnectedDevices.mk [("D", reg_rel.info_of D)]).

(** The announcement of a second device. *)
Definition E3 : json :=
  dpm.DeviceConnected.to_json
    (dpm.DeviceConnected.mk "E" "Acme" "Mouse" ["vm-a"] (Some "")).

(** Devices as [UserDevices] keeps them, the [usbInfo] being a number. *)
Definition user_devices : vhotplug.UserDevices (usbInfo:=nat) :=
  [(Some "1-1", 7); (Some "1-2", 9)].

End sample.

(** * Properties *)

(** ** Framing: [json_transport.send] and [json_transport.receive] *)

Section split_facts.
Implicit Types buf line rest s t : bytes.

Lemma split_nl_None buf : split_nl buf = None ↔ nl ∉ buf.
Proof.
  induction buf as [|b buf IH]; simpl.
  - split; [intros _; apply not_elem_of_nil | done].
  - destruct (decide (b = nl)) as [->|Hb].
    + split; [done | intros H; exfalso; apply H; left].
    + rewrite not_elem_of_cons. destruct (split_nl buf) as [[l r]|].
      * split; [done | intros [_ H]; by apply IH in H].
      * split; [intros _; split; [congruence | by apply IH] | done].
Qed.

Lemma split_nl_Some buf line rest :
  split_nl buf = Some (line, rest) → buf = line ++ nl :: rest ∧ nl ∉ line.
Proof.
  revert line. induction buf as [|b buf IH]; intros line; simpl; [done|].
  destruct (decide (b = nl)) as [->|Hb].
  - intros [= <- <-]. split; [done | apply not_elem_of_nil].
  - destruct (split_nl buf) as [[l r]|] eqn:E; [|done].
    intros [= <- <-]. destruct (IH l eq_refl) as [-> Hl].
    split; [done | rewrite not_elem_of_cons; split; [congruence | done]].
Qed.

Lemma split_nl_shorter buf line rest :
  split_nl buf = Some (line, rest) → length rest < length buf.
Proof.
  intros H. apply split_nl_Some in H as [-> _].
  rewrite length_app. simpl. lia.
Qed.
End split_facts.

Section lines_facts.
Import framing.
Implicit Types s t l : bytes.

Lemma lines_of_no_nl t : nl ∉ t → lines_of t = ([], t).
Proof.
  induction t as [|b t IH]; [done|].
  rewrite not_elem_of_cons. intros [Hb Ht]. simpl.
  rewrite (IH Ht). destruct (decide (b = nl)); congruence.
Qed.

Lemma lines_of_line l rest :
  nl ∉ l →
  lines_of (l ++ nl :: rest) = (l :: complete_lines rest, unterminated rest).
Proof.
  unfold complete_lines, unterminated.
  induction l as [|b l IH]; simpl.
  - intros _. by destruct (lines_of rest) as [ls r].
  - rewrite not_elem_of_cons. intros [Hb Hl]. rewrite (IH Hl).
    by rewrite decide_False by congruence.
Qed.

Lemma unterminated_no_nl s : nl ∉ unterminated s.
Proof.
  unfold unterminated. induction s as [|b s IH]; simpl.
  - apply not_elem_of_nil.
  - destruct (lines_of s) as [ls r]. simpl in IH.
    destruct (decide (b = nl)) as [->|Hb]; [done|].
    destruct ls; simpl; [|done].
    rewrite not_elem_of_cons. split; [congruence | done].
Qed.

(** Reading [a ++ b] is reading [a], then reading what [a] left
    unterminated followed by [b]. *)
Lemma lines_of_app a b :
  lines_of (a ++ b) =
  (complete_lines a ++ complete_lines (unterminated a ++ b),
   unterminated (unterminated a ++ b)).
Proof.
  unfold complete_lines, unterminated.
  induction a as [|x a IH]; simpl.
  - by destruct (lines_of b).
  - rewrite IH. destruct (lines_of a) as [L1 R1]. simpl.
    destruct (decide (x = nl)) as [->|Hx]; [done|].
    destruct L1 as [|l L1]; simpl; [|done].
    destruct (lines_of (R1 ++ b)) as [L2 R2]. simpl.
    rewrite decide_False by done. by destruct L2.
Qed.

Lemma complete_lines_app a b :
  complete_lines (a ++ b) =
  complete_lines a ++ complete_lines (unterminated a ++ b).
Proof. unfold complete_lines at 1. by rewrite lines_of_app. Qed.

Lemma complete_lines_app_no_nl s t :
  nl ∉ t → complete_lines (s ++ t) = complete_lines s.
Proof.
  intros Ht. rewrite complete_lines_app.
  unfold complete_lines at 2. rewrite lines_of_no_nl; simpl.
  - apply app_nil_r.
  - rewrite elem_of_app. intros [H|H]; [by apply unterminated_no_nl in H | done].
Qed.
End lines_facts.

Section receive_facts.
Context `{!JsonLib}.
Import framing json_transport.

Lemma drain_lines fuel buf :
  length buf ≤ fuel →
  drain fuel buf =
  ((yield_lines (complete_lines buf)).1,
   left_over (yield_lines (complete_lines buf)).2 (unterminated buf)).
Proof.
  revert buf. induction fuel as [|fuel IH]; intros buf Hlen.
  - destruct buf; [done | simpl in Hlen; lia].
  - simpl. destruct (split_nl buf) as [[line rest]|] eqn:E.
    + pose proof (split_nl_shorter _ _ _ E) as Hlt.
      apply split_nl_Some in E as [-> Hline].
      unfold complete_lines, unterminated. rewrite lines_of_line by done.
      simpl. rewrite IH by lia.
      destruct (strip line) as [|c cs]; [done|].
      destruct (json_loads (c :: cs)); [|done].
      by destruct (yield_lines (complete_lines rest)).
    + apply split_nl_None in E.
      unfold complete_lines, unterminated. by rewrite lines_of_no_nl.
Qed.

Lemma yield_lines_app ls1 ls2 :
  yield_lines (ls1 ++ ls2) =
  match yield_lines ls1 with
  | (ys, StopIteration) =>
      let '(zs, e) := yield_lines ls2 in (ys ++ zs, e)
  | (ys, Raised x) => (ys, Raised x)
  end.
Proof.
  induction ls1 as [|l ls1 IH]; simpl.
  - by destruct (yield_lines ls2).
  - destruct (strip l) as [|c cs]; [exact IH|].
    destruct (json_loads (c :: cs)); [|done].
    rewrite IH. destruct (yield_lines ls1) as [ys [|x]]; [|done].
    by destruct (yield_lines ls2).
Qed.

(** Whatever the reads, [receive] yields what the stream's complete
    lines yield. *)
Lemma receive_from_lines chunks tail buf :
  Forall (λ c, c ≠ []) chunks → at_eof tail → nl ∉ buf →
  receive_from buf ((Recv <$> chunks) ++ tail) =
  yield_lines (complete_lines (buf ++ concat chunks)).
Proof.
  intros Hne Htail. revert buf.
  induction Hne as [|c chunks Hc _ IH]; intros buf Hbuf; simpl.
  - rewrite app_nil_r. unfold complete_lines. rewrite lines_of_no_nl by done.
    destruct tail as [|[[|]|]]; done.
  - destruct c as [|b c]; [done|].
    rewrite drain_lines by done.
    rewrite (assoc_L (++) buf), (complete_lines_app (buf ++ b :: c)).
    rewrite yield_lines_app.
    destruct (yield_lines (complete_lines (buf ++ b :: c))) as [ys [|x]]; simpl;
      [|done].
    by rewrite IH by apply unterminated_no_nl.
Qed.

Lemma receive_lines chunks tail :
  Forall (λ c, c ≠ []) chunks → at_eof tail →
  receive ((Recv <$> chunks) ++ tail) =
  yield_lines (complete_lines (concat chunks)).
Proof.
  intros Hne Htail. unfold receive.
  by rewrite receive_from_lines by (done || apply not_elem_of_nil).
Qed.

Lemma send_each_pipe (Es : list json) (written : bytes) :
  send_each pipe_sendall Es written =
  (Ok tt, written ++ concat ((λ E, json_dumps E ++ [nl]) <$> Es)).
Proof.
  revert written. induction Es as [|E Es IH]; intros written; simpl.
  - by rewrite app_nil_r.
  - unfold bind, send, bind, lift, wire, pipe_sendall, modify.
    rewrite IH. by rewrite <- (assoc_L (++)).
Qed.

Lemma lines_of_sent (Es : list json) :
  Forall (λ E, nl ∉ json_dumps E) Es →
  lines_of (concat ((λ E, json_dumps E ++ [nl]) <$> Es)) = (json_dumps <$> Es, []).
Proof.
  induction 1 as [|E Es HE _ IH]; [done|].
  rewrite !fmap_cons. cbn [concat].
  rewrite <- (assoc_L (++)), <- cons_middle, lines_of_line by done.
  unfold complete_lines, unterminated. by rewrite IH.
Qed.

Lemma yield_lines_valid (Es : list json) :
  Forall valid_envelope Es →
  yield_lines (json_dumps <$> Es) = (Es, StopIteration).
Proof.
  induction 1 as [|E Es [(_ & Hne & Hstrip) Hload] _ IH]; [done|].
  rewrite fmap_cons. cbn [yield_lines].
  rewrite Hstrip. destruct (json_dumps E) as [|c cs]; [done|].
  by rewrite Hload, IH.
Qed.

Lemma receive_sent (Es : list json) chunks tail :
  Forall valid_envelope Es →
  concat chunks = concat ((λ E, json_dumps E ++ [nl]) <$> Es) →
  Forall (λ c, c ≠ []) chunks → at_eof tail →
  receive ((Recv <$> chunks) ++ tail) = (Es, StopIteration).
Proof.
  intros HEs Hcat Hne Htail. rewrite receive_lines, Hcat by done.
  unfold complete_lines. rewrite lines_of_sent.
  - by apply yield_lines_valid.
  - eapply Forall_impl; [exact HEs|]. by intros E [[? _] _].
Qed.

(** Claim C6 (framing round trip).  Let [E] be a valid envelope and
    [written] the bytes that [send] writes for it (compact JSON and one
    newline).  However the reads cut [written] into non-empty chunks,
    [receive] yields exactly [E] and then ends normally at the end of the
    stream: [decode (encode E) = E]. *)
Theorem framing_round_trip (E : json) (written : bytes)
    (chunks : list bytes) (tail : list recv_result) :
  valid_envelope E →
  send pipe_sendall (PJson E) [] = (Ok tt, written) →
  concat chunks = written →
  Forall (λ c, c ≠ []) chunks → at_eof tail →
  receive ((Recv <$> chunks) ++ tail) = ([E], StopIteration).
Proof.
  intros HE Hsend Hcat Hne Htail.
  apply receive_sent; [by constructor | | done | done].
  rewrite Hcat. injection Hsend as <-. simpl. by rewrite app_nil_r.
Qed.

(** Claim C7 (line independence).  Let [written] be what [send] writes
    for the valid envelopes [Es], one after the other.  For every
    partition of [written] into non-empty chunks, in the middle of a line
    or not, [receive] yields the envelopes [Es], all of them, once each
    and in the order sent. *)
Theorem line_independence (Es : list json) (written : bytes)
    (chunks : list bytes) (tail : list recv_result) :
  Forall valid_envelope Es →
  send_each pipe_sendall Es [] = (Ok tt, written) →
  concat chunks = written →
  Forall (λ c, c ≠ []) chunks → at_eof tail →
  receive ((Recv <$> chunks) ++ tail) = (Es, StopIteration).
Proof.
  intros HEs Hsend Hcat Hne Htail.
  apply receive_sent; [done | | done | done].
  rewrite Hcat. rewrite send_each_pipe in Hsend. by injection Hsend as <-.
Qed.

(** Claim C10 (an unterminated tail is dropped).  Let the stream be
    [s ++ t] where [t] holds no newline, read in any non-empty chunks
    and then ended by a zero-byte read.  [receive] yields what it yields
    for [s] alone and ends the same way: the bytes of [t] produce no
    message and no error.  When the whole stream is such a tail, nothing
    is yielded. *)
Theorem unterminated_tail_discarded (s t : bytes)
    (chunks : list bytes) (tail : list recv_result) :
  nl ∉ t →
  concat chunks = s ++ t →
  Forall (λ c, c ≠ []) chunks → at_eof tail →
  receive ((Recv <$> chunks) ++ tail) = receive [Recv s]
  ∧ (s = [] → receive ((Recv <$> chunks) ++ tail) = ([], StopIteration)).
Proof.
  intros Ht Hcat Hne Htail.
  assert (receive ((Recv <$> chunks) ++ tail) = receive [Recv s]) as Heq.
  { rewrite receive_lines, Hcat, complete_lines_app_no_nl by done.
    destruct s as [|b s]; [done|].
    change [Recv (b :: s)] with ((Recv <$> [b :: s]) ++ []).
    rewrite receive_lines; [|by repeat constructor|done].
    simpl. by rewrite app_nil_r. }
  split; [done|]. intros ->. by rewrite Heq.
Qed.
End receive_facts.

(** ** The reference codec reads back what it writes *)

Section ref_json_facts.
Import RefJson.

Lemma expect_cons (c : byte) (r : bytes) : expect c (c :: r) = Some r.
Proof. unfold expect. by rewrite decide_True. Qed.

Lemma expect_ne (c b : byte) (r : bytes) : b ≠ c → expect c (b :: r) = None.
Proof. intros H. unfold expect. by rewrite decide_False. Qed.

Lemma parse_uint_delimited (rest : bytes) :
  delimited rest → parse_uint rest = (Decimal.Nil, rest) ∧ float_follows rest = false.
Proof. destruct rest as [|b r]; [done|]. by intros [->|[->| ->]]. Qed.

Lemma parse_uint_digits (u : Decimal.uint) (rest : bytes) :
  delimited rest → parse_uint (digits u ++ rest) = (u, rest).
Proof.
  intros Hrest. induction u; simpl; rewrite ?IHu; try done.
  by apply parse_uint_delimited.
Qed.

(** The decimal writing of a positive number starts with a digit other
    than [0]. *)
Lemma pos_to_uint_head (p : positive) :
  match Pos.to_uint p with
  | Decimal.Nil | Decimal.D0 _ => False
  | _ => True
  end.
Proof.
  pose proof (Unsigned.to_uint_nonzero p) as Hnz.
  pose proof (Unsigned.to_uint_nonnil p) as Hnn.
  pose proof (Unsigned.to_of (Pos.to_uint p)) as Hnorm.
  rewrite Unsigned.of_to in Hnorm. simpl in Hnorm.
  destruct (Pos.to_uint p) as [|u| | | | | | | | |]; try done.
  rewrite unorm_D0 in Hnorm.
  assert (u ≠ Decimal.Nil) as Hu by (intros ->; by apply Hnz).
  pose proof (nb_digits_unorm u Hu) as Hlen.
  rewrite <- Hnorm in Hlen. simpl in Hlen. lia.
Qed.

Lemma parse_nat_pos (p : positive) (rest : bytes) :
  delimited rest →
  parse_nat (digits (Pos.to_uint p) ++ rest) = Some (Npos p, rest).
Proof.
  intros Hrest. unfold parse_nat.
  pose proof (pos_to_uint_head p) as Hhead.
  pose proof (Unsigned.of_to p) as Hof.
  rewrite parse_uint_digits by done.
  destruct (parse_uint_delimited rest Hrest) as [_ ->].
  destruct (Pos.to_uint p); try done; simpl; by rewrite <- Hof.
Qed.

Lemma parse_int_decimal (z : Z) (rest : bytes) :
  delimited rest → parse_int (decimal z ++ rest) = Some (z, rest).
Proof.
  intros Hrest. destruct z as [|p|p]; unfold parse_int.
  - simpl. unfold parse_nat. simpl.
    by destruct (parse_uint_delimited rest Hrest) as [_ ->].
  - pose proof (pos_to_uint_head p) as Hhead.
    pose proof (parse_nat_pos p rest Hrest) as Hnat. simpl.
    destruct (Pos.to_uint p); try done; simpl in *; by rewrite Hnat.
  - cbn [decimal app]. rewrite expect_cons. by rewrite parse_nat_pos.
Qed.

Lemma decimal_head (z : Z) :
  ∃ b tl, decimal z = b :: tl ∧ is_space b = false ∧ b ≠ x5d.
Proof.
  destruct z as [|p|p]; simpl.
  - by eexists _, _.
  - pose proof (pos_to_uint_head p) as Hhead.
    destruct (Pos.to_uint p); try done; simpl; by eexists _, _.
  - by eexists _, _.
Qed.

#[local] Arguments parse_int : simpl never.

Lemma parse_value_decimal (fuel : nat) (z : Z) (rest : bytes) :
  delimited rest →
  parse_value (S fuel) (decimal z ++ rest) = Some (JNum z, rest).
Proof.
  intros Hrest. pose proof (parse_int_decimal z rest Hrest) as Hint.
  destruct z as [|p|p]; simpl in *.
  - by rewrite Hint.
  - pose proof (pos_to_uint_head p) as Hhead.
    destruct (Pos.to_uint p); try done; simpl in *; by rewrite Hint.
  - by rewrite Hint.
Qed.

Lemma parse_chars_escape (c : byte) (r : bytes) :
  parse_chars (escape c ++ r) =
  match parse_chars r with
  | Some (cs, r') => Some (c :: cs, r')
  | None => None
  end.
Proof. destruct c; reflexivity. Qed.

Lemma parse_chars_escaped (cs rest : bytes) :
  parse_chars (flat_map escape cs ++ x22 :: rest) = Some (cs, rest).
Proof.
  induction cs as [|c cs IH]; [done|].
  cbn [flat_map]. rewrite <- (assoc_L (++)), parse_chars_escape. by rewrite IH.
Qed.

Lemma parse_string_quote (s : string) (rest : bytes) :
  parse_string (quote s ++ rest) = Some (s, rest).
Proof.
  unfold parse_string, quote. cbn [app]. rewrite expect_cons.
  rewrite <- (assoc_L (++)). cbn [app]. rewrite parse_chars_escaped.
  unfold of_string. by rewrite String.string_of_list_byte_of_string.
Qed.

Lemma json_ind' (P : json → Prop) :
  P JNull → (∀ b, P (JBool b)) → (∀ n, P (JNum n)) → (∀ s, P (JStr s)) →
  (∀ xs, Forall P xs → P (JArr xs)) →
  (∀ kvs, Forall (λ kv, P kv.2) kvs → P (JObj kvs)) →
  ∀ j, P j.
Proof.
  intros Hnull Hbool Hnum Hstr Harr Hobj.
  fix IH 1. intros [| b | n | s | xs | kvs].
  - exact Hnull.
  - apply Hbool.
  - apply Hnum.
  - apply Hstr.
  - apply Harr. induction xs as [|x xs IHxs]; constructor; [apply IH | exact IHxs].
  - apply Hobj. induction kvs as [|[k v] kvs IHkvs]; constructor;
      [apply IH | exact IHkvs].
Qed.

Lemma skip_ws_head (b : byte) (tl : bytes) :
  is_ws b = false → skip_ws (b :: tl) = b :: tl.
Proof. intros H. simpl. by rewrite H. Qed.

Lemma skip_ws_quote (s : string) (tail : bytes) :
  skip_ws (quote s ++ tail) = quote s ++ tail.
Proof. reflexivity. Qed.

Lemma dumps_head (j : json) :
  ∃ b tl, dumps j = b :: tl ∧ is_space b = false ∧ b ≠ x5d.
Proof.
  destruct j as [|[|]| n | s | xs | kvs]; try (by eexists _, _).
  apply decimal_head.
Qed.

Lemma is_ws_space (b : byte) : is_space b = false → is_ws b = false.
Proof. by destruct b. Qed.

Lemma skip_ws_dumps (j : json) (rest : bytes) :
  skip_ws (dumps j ++ rest) = dumps j ++ rest.
Proof.
  destruct (dumps_head j) as (b & tl & -> & Hb & _).
  by apply skip_ws_head, is_ws_space.
Qed.

Lemma skip_ws_delimited (rest : bytes) : delimited rest → skip_ws rest = rest.
Proof. destruct rest as [|b r]; [done|]. by intros [->|[->| ->]]. Qed.

Lemma dict_set_fresh {V} (k : string) (v : V) (d : pydict V) :
  k ∉ d.*1 → dict_set k v d = d ++ [(k, v)].
Proof.
  induction d as [|[k' v'] d IH]; [done|]. simpl.
  rewrite not_elem_of_cons. intros [Hne Hd].
  rewrite decide_False by done. by rewrite IH.
Qed.

Lemma dict_of_pairs_nodup (kvs : list (string * json)) :
  NoDup kvs.*1 → dict_of_pairs kvs = kvs.
Proof.
  unfold dict_of_pairs.
  enough (∀ acc, NoDup (acc ++ kvs).*1 →
            foldl (λ d kv, dict_set kv.1 kv.2 d) acc kvs = acc ++ kvs) as H.
  { intros Hnd. by apply (H []). }
  induction kvs as [|[k v] kvs IH]; intros acc Hnd; simpl.
  - by rewrite app_nil_r.
  - rewrite dict_set_fresh.
    + rewrite IH; rewrite <- (assoc_L (++)); done.
    + rewrite fmap_app in Hnd. apply NoDup_app in Hnd as (_ & Hdis & _).
      intros Hin. apply (Hdis k Hin). simpl. left.
Qed.

(** Lengths: every value takes at least one byte, and a joined list is
    at least as long as each part and as the number of parts. *)
Lemma join_length_part (sep : byte) (parts : list bytes) (part : bytes) :
  part ∈ parts → length part ≤ length (join sep parts).
Proof.
  induction parts as [|p parts IH]; [by intros ?%elem_of_nil|].
  rewrite elem_of_cons. simpl. rewrite length_app.
  intros [->|Hin]; [lia|]. specialize (IH Hin).
  destruct parts; [by apply elem_of_nil in Hin | simpl in *; lia].
Qed.

Lemma join_length_parts (sep : byte) (parts : list bytes) :
  Forall (λ p, p ≠ []) parts → length parts ≤ length (join sep parts).
Proof.
  induction 1 as [|p parts Hp _ IH]; [done|]. simpl. rewrite length_app.
  destruct p; [done|]. destruct parts; simpl in *; lia.
Qed.

Lemma parse_value_S (fuel : nat) (s : bytes) :
  parse_value (S fuel) s =
  let s := skip_ws s in
  match expect x22 s with
  | Some _ =>
      match parse_string s with
      | Some (str, r) => Some (JStr str, r)
      | None => None
      end
  | None =>
  match expect x5b s with
  | Some r =>
      match expect x5d (skip_ws r) with
      | Some r' => Some (JArr [], r')
      | None =>
          match parse_items (parse_value fuel) fuel r with
          | Some (vs, r') => Some (JArr vs, r')
          | None => None
          end
      end
  | None =>
  match expect x7b s with
  | Some r =>
      match expect x7d (skip_ws r) with
      | Some r' => Some (JObj [], r')
      | None =>
          match parse_members (parse_value fuel) fuel r with
          | Some (kvs, r') => Some (JObj (dict_of_pairs kvs), r')
          | None => None
          end
      end
  | None =>
  match expect_all (of_string "null") s with
  | Some r => Some (JNull, r)
  | None =>
  match expect_all (of_string "true") s with
  | Some r => Some (JBool true, r)
  | None =>
  match expect_all (of_string "false") s with
  | Some r => Some (JBool false, r)
  | None =>
  match parse_int s with
  | Some (n, r) => Some (JNum n, r)
  | None => None
  end end end end end end end.
Proof. reflexivity. Qed.

Lemma join_one (sep : byte) (p : bytes) : join sep [p] = p.
Proof. apply app_nil_r. Qed.

Lemma join_more (sep : byte) (p p' : bytes) (ps : list bytes) :
  join sep (p :: p' :: ps) = p ++ sep :: join sep (p' :: ps).
Proof. reflexivity. Qed.

Lemma parse_items_join (pv : bytes → option (json * bytes)) (fuel : nat)
    (xs : list json) (rest : bytes) :
  xs ≠ [] → length xs ≤ fuel → Forall (reads pv) xs →
  parse_items pv fuel (join x2c (map dumps xs) ++ x5d :: rest) = Some (xs, rest).
Proof.
  intros Hne Hlen Hreads. revert fuel Hlen.
  induction Hreads as [|x xs Hx Hxs IH]; [done|]. intros [|fuel] Hlen;
    [simpl in Hlen; lia|].
  cbn [parse_items]. destruct xs as [|x' xs].
  - cbn [map]. rewrite join_one, Hx by (right; by left).
    cbn [skip_ws is_ws]. rewrite expect_ne by done. by rewrite expect_cons.
  - rewrite !map_cons, join_more, <- !map_cons, <- (assoc_L (++)).
    cbn [app]. rewrite Hx by (by left).
    cbn [skip_ws is_ws]. rewrite expect_cons.
    rewrite IH; [done | done | simpl in *; lia].
Qed.

Lemma parse_members_join (pv : bytes → option (json * bytes)) (fuel : nat)
    (kvs : list (string * json)) (rest : bytes) :
  kvs ≠ [] → length kvs ≤ fuel → Forall (λ kv, reads pv kv.2) kvs →
  parse_members pv fuel
    (join x2c (map (λ kv, quote kv.1 ++ x3a :: dumps kv.2) kvs) ++ x7d :: rest)
  = Some (kvs, rest).
Proof.
  intros Hne Hlen Hreads. revert fuel Hlen.
  induction Hreads as [|[k v] kvs Hx Hxs IH]; [done|]. intros [|fuel] Hlen;
    [simpl in Hlen; lia|].
  cbn [parse_members].
  assert (∀ tail, parse_string (skip_ws ((quote k ++ x3a :: dumps v) ++ tail))
                  = Some (k, x3a :: dumps v ++ tail)) as Hkey.
  { intros tail. rewrite <- (assoc_L (++)), skip_ws_quote.
    rewrite parse_string_quote. by rewrite <- app_comm_cons. }
  destruct kvs as [|kv' kvs].
  - cbn [map fst snd]. rewrite join_one, Hkey.
    cbn [skip_ws is_ws]. rewrite expect_cons, Hx by (right; by right).
    cbn [skip_ws is_ws]. rewrite expect_ne by done. by rewrite expect_cons.
  - change (join x2c (map ?F ((k, v) :: kv' :: kvs)))
      with ((quote k ++ x3a :: dumps v) ++ x2c :: join x2c (map F (kv' :: kvs))).
    cbn [fst snd]. rewrite <- (assoc_L (++) (quote k ++ _)), Hkey.
    cbn [skip_ws is_ws]. rewrite expect_cons. cbn [app].
    rewrite Hx by (by left).
    cbn [skip_ws is_ws]. rewrite expect_cons.
    rewrite IH; [done | done | simpl in *; lia].
Qed.

Lemma elem_of_map {A B} (f : A → B) (l : list A) (y : B) :
  y ∈ map f l ↔ ∃ x, y = f x ∧ x ∈ l.
Proof.
  induction l as [|a l IH]; simpl.
  - split; [by intros ?%elem_of_nil | by intros (? & _ & ?%elem_of_nil)].
  - rewrite elem_of_cons, IH. split.
    + intros [->|(x & -> & Hx)]; [exists a | exists x]; by rewrite elem_of_cons; auto.
    + intros (x & -> & [->|Hx]%elem_of_cons); eauto.
Qed.

Lemma items_not_closed (xs : list json) (tail : bytes) :
  xs ≠ [] → expect x5d (skip_ws (join x2c (map dumps xs) ++ tail)) = None.
Proof.
  destruct xs as [|x xs]; [done|]. intros _. cbn [map join].
  destruct (dumps_head x) as (b & tl & -> & Hb & Hne). cbn [app].
  rewrite skip_ws_head by by apply is_ws_space. by apply expect_ne.
Qed.

Lemma members_not_closed (kvs : list (string * json)) (tail : bytes) :
  kvs ≠ [] →
  expect x7d
    (skip_ws (join x2c (map (λ kv, quote kv.1 ++ x3a :: dumps kv.2) kvs) ++ tail))
  = None.
Proof. destruct kvs as [|[k v] kvs]; [done|]. done. Qed.

Lemma dumps_length_pos (j : json) : 0 < length (dumps j).
Proof. destruct (dumps_head j) as (b & tl & -> & _). simpl. lia. Qed.

(** The parser reads back what the serializer wrote, given fuel for the
    length of the text. *)
Lemma parse_value_dumps (j : json) :
  wf_json j → ∀ fuel rest,
  length (dumps j) ≤ fuel → delimited rest →
  parse_value fuel (dumps j ++ rest) = Some (j, rest).
Proof.
  induction j as [|b|n|s|xs IH|kvs IH] using json_ind';
    intros Hwf fuel rest Hlen Hrest;
    (destruct fuel as [|fuel];
      [match type of Hlen with
       | length (dumps ?v) ≤ 0 => pose proof (dumps_length_pos v); lia
       end |]).
  - done.
  - by destruct b.
  - by apply parse_value_decimal.
  - cbn [dumps]. rewrite parse_value_S. cbv zeta. rewrite skip_ws_quote.
    rewrite parse_string_quote. by unfold quote.
  - rewrite parse_value_S. cbn [dumps].
    rewrite <- app_comm_cons, <- (assoc_L (++)). cbn [app skip_ws is_ws]. cbv zeta.
    rewrite (expect_ne x22) by done. rewrite expect_cons.
    destruct (decide (xs = [])) as [->|Hne].
    + cbn [map join app skip_ws is_ws]. by rewrite expect_cons.
    + rewrite items_not_closed by done.
      inversion Hwf as [| | | |? Hall|]; subst.
      cbn [dumps] in Hlen. cbn [length] in Hlen. rewrite length_app in Hlen.
      rewrite parse_items_join; [done | done | |].
      * assert (length (map dumps xs) ≤ length (join x2c (map dumps xs))) as Hparts.
        { apply join_length_parts.
          apply Forall_forall. intros p (x & -> & _)%elem_of_map.
          pose proof (dumps_length_pos x) as Hpos. intros Heq.
          rewrite Heq in Hpos. simpl in Hpos. lia. }
        rewrite length_map in Hparts. simpl in Hlen. lia.
      * rewrite Forall_forall in IH, Hall. apply Forall_forall.
        intros x Hx rest' Hrest'. apply IH; [done | by apply Hall | | done].
        assert (length (dumps x) ≤ length (join x2c (map dumps xs))) as Hpart.
        { apply join_length_part. apply elem_of_map. eauto. }
        simpl in Hlen. lia.
  - rewrite parse_value_S. cbn [dumps].
    rewrite <- app_comm_cons, <- (assoc_L (++)). cbn [app skip_ws is_ws]. cbv zeta.
    rewrite (expect_ne x22) by done. rewrite (expect_ne x5b) by done.
    rewrite expect_cons.
    destruct (decide (kvs = [])) as [->|Hne].
    + cbn [map join app skip_ws is_ws]. by rewrite expect_cons.
    + rewrite members_not_closed by done.
      inversion Hwf as [| | | | |? Hnd Hall]; subst.
      cbn [dumps] in Hlen. cbn [length] in Hlen. rewrite length_app in Hlen.
      set (F := λ kv : string * json, quote kv.1 ++ x3a :: dumps kv.2) in *.
      rewrite parse_members_join; [by rewrite dict_of_pairs_nodup | done | |].
      * assert (length (map F kvs) ≤ length (join x2c (map F kvs))) as Hparts.
        { apply join_length_parts.
          apply Forall_forall. by intros p (x & -> & _)%elem_of_map. }
        rewrite length_map in Hparts. simpl in Hlen. lia.
      * rewrite Forall_forall in IH, Hall. apply Forall_forall.
        intros kv Hkv rest' Hrest'. apply IH; [done | by apply Hall | | done].
        assert (length (F kv) ≤ length (join x2c (map F kvs))) as Hpart.
        { apply join_length_part. apply elem_of_map. eauto. }
        unfold F in Hpart at 1. rewrite length_app in Hpart.
        simpl in Hpart, Hlen. lia.
Qed.

Theorem loads_dumps (j : json) : wf_json j → loads (dumps j) = Ok j.
Proof.
  intros Hwf. unfold loads.
  rewrite <- (app_nil_r (dumps j)) at 2.
  rewrite parse_value_dumps; [done | done | | done].
  apply Nat.le_succ_diag_r.
Qed.

(** *** The text is one line *)

Lemma escape_no_nl (c : byte) : nl ∉ escape c.
Proof. destruct c; apply (bool_decide_unpack _); exact I. Qed.

Lemma not_elem_of_flat_map {A B} (f : A → list B) (l : list A) (y : B) :
  (∀ x, y ∉ f x) → y ∉ flat_map f l.
Proof.
  intros Hf. induction l as [|a l IH]; simpl; [apply not_elem_of_nil|].
  rewrite elem_of_app. intros [H|H]; [by apply (Hf a) | by apply IH].
Qed.

Lemma quote_no_nl (s : string) : nl ∉ quote s.
Proof.
  unfold quote. rewrite not_elem_of_cons. split; [done|].
  rewrite elem_of_app. intros [H|H].
  - revert H. apply not_elem_of_flat_map, escape_no_nl.
  - by apply list_elem_of_singleton in H.
Qed.

Lemma digits_no_nl (u : Decimal.uint) : nl ∉ digits u.
Proof.
  induction u; simpl; [apply not_elem_of_nil|..];
    (rewrite not_elem_of_cons; split; [done | assumption]).
Qed.

Lemma decimal_no_nl (z : Z) : nl ∉ decimal z.
Proof.
  destruct z as [|p|p]; simpl.
  - by apply (bool_decide_unpack _).
  - apply digits_no_nl.
  - rewrite not_elem_of_cons. split; [done | apply digits_no_nl].
Qed.

Lemma join_no_nl (parts : list bytes) :
  Forall (λ p, nl ∉ p) parts → nl ∉ join x2c parts.
Proof.
  induction 1 as [|p parts Hp _ IH]; simpl; [apply not_elem_of_nil|].
  rewrite elem_of_app. intros [H|H]; [done|].
  destruct parts; [by apply elem_of_nil in H|].
  apply elem_of_cons in H as [H|H]; [done | by apply IH].
Qed.

Lemma dumps_no_nl (j : json) : nl ∉ dumps j.
Proof.
  induction j as [|b|n|s|xs IH|kvs IH] using json_ind'.
  - by apply (bool_decide_unpack _).
  - destruct b; by apply (bool_decide_unpack _).
  - apply decimal_no_nl.
  - apply quote_no_nl.
  - cbn [dumps]. rewrite not_elem_of_cons. split; [done|].
    rewrite elem_of_app. intros [H|H]; [|by apply list_elem_of_singleton in H].
    revert H. apply join_no_nl. apply Forall_forall.
    intros p (x & -> & Hx)%elem_of_map. rewrite Forall_forall in IH. by apply IH.
  - cbn [dumps]. rewrite not_elem_of_cons. split; [done|].
    rewrite elem_of_app. intros [H|H]; [|by apply list_elem_of_singleton in H].
    revert H. apply join_no_nl. apply Forall_forall.
    intros p (kv & -> & Hkv)%elem_of_map. rewrite Forall_forall in IH.
    rewrite elem_of_app. intros [H|H]; [by apply quote_no_nl in H|].
    apply elem_of_cons in H as [H|H]; [done | by apply (IH kv)].
Qed.

Lemma digits_last (u : Decimal.uint) :
  u ≠ Decimal.Nil → ∃ l z, digits u = l ++ [z] ∧ is_space z = false.
Proof.
  induction u as [|u IH|u IH|u IH|u IH|u IH|u IH|u IH|u IH|u IH|u IH];
    [done|..]; intros _;
    (destruct (decide (digits u = [])) as [Hu|Hu];
     [simpl; rewrite Hu; by eexists [], _ |]);
    (destruct IH as (l & z & Hl & Hz); [by intros -> |]);
    simpl; rewrite Hl; by eexists (_ :: l), z.
Qed.

Lemma dumps_last (j : json) :
  ∃ l z, dumps j = l ++ [z] ∧ is_space z = false.
Proof.
  destruct j as [|[|]| n | s | xs | kvs].
  - by exists (of_string "nul"), x6c.
  - by exists (of_string "tru"), x65.
  - by exists (of_string "fals"), x65.
  - destruct n as [|p|p]; simpl.
    + by exists [], x30.
    + apply digits_last, Unsigned.to_uint_nonnil.
    + destruct (digits_last (Pos.to_uint p)) as (l & z & -> & Hz);
        [apply Unsigned.to_uint_nonnil|]. by exists (x2d :: l), z.
  - by eexists (x22 :: _), x22.
  - by eexists (x5b :: _), x5d.
  - by eexists (x7b :: _), x7d.
Qed.

Lemma strip_id (b z : byte) (tl l : bytes) :
  is_space b = false → is_space z = false →
  b :: tl = l ++ [z] → strip (b :: tl) = b :: tl.
Proof.
  intros Hb Hz Heq. unfold strip, rstrip. simpl. rewrite Hb, Heq.
  rewrite rev_app_distr. simpl. rewrite Hz.
  change (z :: rev l) with (rev [z] ++ rev l).
  by rewrite <- rev_app_distr, rev_involutive.
Qed.

Lemma dumps_one_line (j : json) : framing.one_line (dumps j).
Proof.
  split; [apply dumps_no_nl|].
  destruct (dumps_head j) as (b & tl & Hhead & Hb & _).
  destruct (dumps_last j) as (l & z & Hlast & Hz).
  rewrite Hhead. split; [done|].
  apply (strip_id b z tl l); [done | done | congruence].
Qed.

(** The reference codec makes every JSON value with distinct keys a
    valid envelope. *)
Theorem ref_json_valid (E : json) :
  wf_json E → @framing.valid_envelope lib E.
Proof.
  intros Hwf. split; [apply dumps_one_line | by apply loads_dumps].
Qed.
End ref_json_facts.

(** The reference codec writes [sample.E1] and [sample.E2] on one line
    each and reads them back. *)
Lemma sample_E1_valid : @framing.valid_envelope RefJson.lib sample.E1.
Proof.
  split; [split; [|split] |].
  - apply (bool_decide_unpack _). by vm_compute.
  - by vm_compute.
  - by vm_compute.
  - by vm_compute.
Defined.

Lemma sample_E2_valid : @framing.valid_envelope RefJson.lib sample.E2.
Proof.
  split; [split; [|split] |].
  - apply (bool_decide_unpack _). by vm_compute.
  - by vm_compute.
  - by vm_compute.
  - by vm_compute.
Defined.

(** [sample.E1] sent and read back in two reads, the first one ten bytes
    long. *)
Lemma framing_round_trip_witness :
  @json_transport.receive RefJson.lib
    ((json_transport.Recv <$> sample.cut 10 (RefJson.dumps sample.E1 ++ [nl]))
     ++ [json_transport.Recv []])
  = ([sample.E1], json_transport.StopIteration).
Proof.
  apply (@framing_round_trip RefJson.lib sample.E1
           (RefJson.dumps sample.E1 ++ [nl])).
  - exact sample_E1_valid.
  - reflexivity.
  - by vm_compute.
  - repeat constructor; by vm_compute.
  - exact I.
Defined.

(** [sample.E1] then [sample.E2], read in three pieces that cut both
    lines. *)
Lemma line_independence_witness :
  @json_transport.receive RefJson.lib
    (json_transport.Recv <$> sample.cut3 10 200 (sample.stream [sample.E1; sample.E2]))
  = ([sample.E1; sample.E2], json_transport.StopIteration).
Proof.
  rewrite <- (app_nil_r (_ <$> _)).
  apply (@line_independence RefJson.lib [sample.E1; sample.E2]
           (sample.stream [sample.E1; sample.E2])).
  - constructor; [exact sample_E1_valid|].
    constructor; [exact sample_E2_valid | constructor].
  - by vm_compute.
  - by vm_compute.
  - repeat constructor; by vm_compute.
  - exact I.
Defined.

(** [sample.E1] on a full line followed by [sample.E2] without its
    newline: only [sample.E1] is yielded. *)
Lemma unterminated_tail_discarded_witness :
  @json_transport.receive RefJson.lib
    ((json_transport.Recv
        <$> sample.cut 10 (sample.stream [sample.E1] ++ RefJson.dumps sample.E2))
     ++ [json_transport.Recv []])
  = ([sample.E1], json_transport.StopIteration).
Proof.
  refine (eq_trans
    (proj1 (@unterminated_tail_discarded RefJson.lib
              (sample.stream [sample.E1]) (RefJson.dumps sample.E2)
              _ _ _ _ _ _)) _).
  - apply (bool_decide_unpack _). by vm_compute.
  - reflexivity.
  - repeat constructor; by vm_compute.
  - exact I.
  - by vm_compute.
Defined.

(** ** Protocol messages: [dpm] *)

Section dpm_facts.
Import dpm.

Lemma str_ok_nonempty (s : string) : s ≠ "" → _str_ok (JStr s) = Ok s.
Proof. intros Hs. unfold _str_ok. by rewrite decide_False. Qed.

Lemma is_list_of_str_of_strs (l : list string) : _is_list_of_str (of_strs l) = true.
Proof. induction l as [|x l IH]; [done | exact IH]. Qed.

Lemma str_items_of_strs (l : list string) : str_items (of_strs l) = l.
Proof. induction l as [|x l IH]; [done|]. simpl. f_equal. exact IH. Qed.

Lemma str_or_none_of_opt_str (o : option string) : str_or_none (of_opt_str o) = Ok o.
Proof. by destruct o. Qed.

#[local] Arguments _str_ok : simpl never.
#[local] Arguments _is_list_of_str : simpl never.
#[local] Arguments str_items : simpl never.
#[local] Arguments str_or_none : simpl never.
#[local] Arguments of_strs : simpl never.
#[local] Arguments of_opt_str : simpl never.

Lemma request_from_message (device_id target_vm : string) :
  device_id ≠ "" → target_vm ≠ "" →
  PassthroughRequest.from_message
    (PassthroughRequest.to_json (PassthroughRequest.mk device_id target_vm))
  = Ok (Some (PassthroughRequest.mk device_id target_vm)).
Proof.
  intros Hd Ht. unfold PassthroughRequest.from_message. simpl.
  unfold PassthroughRequest.from_payload. simpl.
  unfold PassthroughRequest.init.
  by repeat (rewrite str_ok_nonempty by done; cbn [res_bind]).
Qed.

Lemma connected_from_message (m : DeviceConnected.t) :
  DeviceConnected.device_id m ≠ "" →
  DeviceConnected.vendor m ≠ "" →
  DeviceConnected.product m ≠ "" →
  DeviceConnected.from_message (DeviceConnected.to_json m) = Ok (Some m).
Proof.
  intros Hd Hv Hp. destruct m as [d v p perm cur]. simpl in *.
  unfold DeviceConnected.from_message. simpl.
  unfold DeviceConnected.from_payload. simpl.
  repeat (rewrite str_ok_nonempty by done; cbn [res_bind]).
  rewrite is_list_of_str_of_strs, str_or_none_of_opt_str. cbn [res_bind].
  unfold DeviceConnected.init.
  repeat (rewrite str_ok_nonempty by done; cbn [res_bind]).
  by rewrite str_items_of_strs.
Qed.

Lemma status_ok_statuses (v : json) :
  PassthroughAck.status_ok v = true ↔ v ∈ PassthroughAck.statuses.
Proof.
  unfold PassthroughAck.status_ok, PassthroughAck.statuses, str_eqb.
  rewrite !elem_of_cons, elem_of_nil.
  destruct v as [| | |s| |];
    try (split; [done | intros [H|[H|[H|[]]]]; discriminate H]).
  rewrite !orb_true_iff, !bool_decide_eq_true. split.
  - intros [[->| ->]| ->]; auto.
  - intros [[= ->]|[[= ->]|[[= ->]|[]]]]; auto.
Qed.

(** Claim C9, amended.  Take a [passthrough_ack] envelope whose payload
    has a non-empty string [device_id] and whose [current_vm] (or
    [current-vm]) and [reason] fields are absent, null or strings.  If
    the payload has no [status], decoding succeeds and the ack has status
    [ok].  If it has one, decoding succeeds with that status when it is
    [ok], [denied] or [error], and raises [ValueError] otherwise. *)
Theorem ack_status_defaults_to_ok (pl : pydict json) (device_id : string)
    (current_vm reason : option string) :
  dict_get "device_id" pl = Some (JStr device_id) →
  device_id ≠ "" →
  str_or_none (PassthroughAck.field_current_vm pl) = Ok current_vm →
  str_or_none (PassthroughAck.field_reason pl) = Ok reason →
  let decoded :=
    PassthroughAck.from_message (envelope PassthroughAck.MSG_TYPE (JObj pl)) in
  (dict_get "status" pl = None →
   decoded = Ok (Some (PassthroughAck.mk device_id current_vm "ok")))
  ∧ (∀ v, dict_get "status" pl = Some v →
       (v ∈ PassthroughAck.statuses →
        ∃ s, v = JStr s
             ∧ decoded = Ok (Some (PassthroughAck.mk device_id current_vm s)))
       ∧ (v ∉ PassthroughAck.statuses → decoded = Raise ValueError)).
Proof.
  intros Hid Hne Hcv Hreason decoded.
  assert (decoded =
    let status := default (JStr "ok") (dict_get "status" pl) in
    if PassthroughAck.status_ok status then
      match status with
      | JStr s => Ok (Some (PassthroughAck.mk device_id current_vm s))
      | _ => Raise ValueError
      end
    else Raise ValueError) as ->.
  { subst decoded. unfold PassthroughAck.from_message. simpl.
    unfold PassthroughAck.from_payload. simpl. rewrite Hid. simpl.
    rewrite str_ok_nonempty by done. cbn [res_bind].
    fold (PassthroughAck.field_current_vm pl). rewrite Hcv. cbn [res_bind].
    destruct (PassthroughAck.status_ok _) eqn:Hok; [|done].
    fold (PassthroughAck.field_reason pl). rewrite Hreason. cbn [res_bind].
    destruct (default _ _) as [| | |s| |] eqn:Hs; try done.
    unfold PassthroughAck.init. rewrite Hok.
    by rewrite str_ok_nonempty. }
  split.
  - intros ->. done.
  - intros v ->. simpl. split.
    + intros Hv. pose proof Hv as Hv'. apply status_ok_statuses in Hv' as ->.
      unfold PassthroughAck.statuses in Hv.
      rewrite !elem_of_cons, elem_of_nil in Hv.
      destruct Hv as [->|[->|[->|[]]]]; eauto.
    + intros Hv. destruct (PassthroughAck.status_ok v) eqn:Hok; [|done].
      by apply status_ok_statuses in Hok.
Qed.
End dpm_facts.

(** Claim C9 as stated fails: a payload with a valid [device_id] and no
    [status] is refused when its [current_vm] is not a string. *)
Lemma ack_without_status_refused :
  dpm.PassthroughAck.from_message
    (dpm.envelope dpm.PassthroughAck.MSG_TYPE
       (JObj [("device_id", JStr "D"); ("current_vm", JNum 5)]))
  = Raise ValueError.
Proof. reflexivity. Qed.

(** A payload with [device_id] and [current_vm] only decodes to an ack
    with status [ok]. *)
Lemma ack_status_defaults_to_ok_witness :
  dpm.PassthroughAck.from_message
    (dpm.envelope dpm.PassthroughAck.MSG_TYPE
       (JObj [("device_id", JStr "D"); ("current_vm", JStr "vm-b")]))
  = Ok (Some (dpm.PassthroughAck.mk "D" (Some "vm-b") "ok")).
Proof.
  apply (ack_status_defaults_to_ok
           [("device_id", JStr "D"); ("current_vm", JStr "vm-b")]
           "D" (Some "vm-b") None); done.
Defined.

(** ** The reconnecting client: [VsockClient.send] *)

Lemma first_true (f : nat → bool) (n : nat) :
  (∀ j, j < n → f j = false)
  ∨ (∃ k, k < n ∧ f k = true ∧ ∀ j, j < k → f j = false).
Proof.
  induction n as [|n [IH|(k & Hk & Hf & Hmin)]].
  - left. intros j Hj. lia.
  - destruct (f n) eqn:Hn.
    + right. exists n. split; [lia | split; [done|]]. intros j Hj. apply IH. lia.
    + left. intros j Hj. destruct (decide (j = n)) as [->|]; [done|]. apply IH. lia.
  - right. exists k. split; [lia | done].
Qed.

Section client_facts.
Context `{!JsonLib} {Owner : Type}.
Variable net : vsock.network.
Variable on_disconnect : Owner → Owner.
Import vsock.
Implicit Types w : world Owner.

Ltac run_client :=
  unfold try_except, bind, ret, raise, lift, gets, modify, server, sendall,
    close_connection, log, emit, set_client, json_transport.send,
    json_transport.wire; simpl.

Lemma send_attempts_fail n (data : json) w :
  sendall_ok net (sendalls (client w)) = false →
  ∃ w1, send_attempts net on_disconnect (S n) (PJson data) w
        = send_attempts net on_disconnect n (PJson data) w1
        ∧ sendalls (client w1) = S (sendalls (client w)).
Proof.
  intros Hfail. destruct w as [[c k i] o t]. simpl in *.
  cbn [send_attempts]. run_client.
  destruct c; run_client; rewrite Hfail; run_client; eexists; split; done.
Qed.

Lemma send_attempts_ok n (data : json) w :
  sendall_ok net (sendalls (client w)) = true →
  ∃ w1, send_attempts net on_disconnect (S n) (PJson data) w = (Ok true, w1)
        ∧ sendalls (client w1) = S (sendalls (client w)).
Proof.
  intros Hok. destruct w as [[c k i] o t]. simpl in *.
  cbn [send_attempts]. run_client.
  destruct c; run_client; rewrite Hok; run_client; eexists; split; done.
Qed.

Lemma send_attempts_first_success n (data : json) w k :
  k ≤ n →
  (∀ i, i < k → sendall_ok net (sendalls (client w) + i) = false) →
  (k < n → sendall_ok net (sendalls (client w) + k) = true) →
  (send_attempts net on_disconnect n (PJson data) w).1 = Ok (bool_decide (k < n))
  ∧ sendalls (client (send_attempts net on_disconnect n (PJson data) w).2)
    = sendalls (client w) + (S k `min` n).
Proof.
  revert w k. induction n as [|n IH]; intros w k Hk Hfail Hok.
  - simpl. split; [done | lia].
  - destruct k as [|k].
    + destruct (send_attempts_ok n data w) as (w1 & -> & Hw1).
      { rewrite <- (Nat.add_0_r (sendalls _)). apply Hok. lia. }
      simpl. split; [done | lia].
    + destruct (send_attempts_fail n data w) as (w1 & -> & Hw1).
      { rewrite <- (Nat.add_0_r (sendalls _)). apply Hfail. lia. }
      destruct (IH w1 k) as [Hr Hs].
      * lia.
      * intros i Hi. rewrite Hw1. replace (S (sendalls (client w)) + i) with (sendalls (client w) + S i) by lia. apply Hfail. lia.
      * intros Hlt. rewrite Hw1. replace (S (sendalls (client w)) + k) with (sendalls (client w) + S k) by lia. apply Hok. lia.
      * rewrite Hr, Hs, Hw1. split.
        -- f_equal. apply bool_decide_ext. lia.
        -- lia.
Qed.

(** Claim C8 (bounded send retries).  For every JSON message: if the
    next five writes all fail, [send] returns [False] and has made five
    writes, not a sixth; if one of the next five writes succeeds, [send]
    returns [True] (and has made at most five writes). *)
Theorem send_bounded_retries (data : json) w :
  ((∀ i, i < 5 → sendall_ok net (sendalls (client w) + i) = false) →
   (send net on_disconnect (PJson data) w).1 = Ok false
   ∧ sendalls (client (send net on_disconnect (PJson data) w).2)
     = sendalls (client w) + 5)
  ∧ ((∃ i, i < 5 ∧ sendall_ok net (sendalls (client w) + i) = true) →
     (send net on_disconnect (PJson data) w).1 = Ok true
     ∧ sendalls (client (send net on_disconnect (PJson data) w).2)
       ≤ sendalls (client w) + 5).
Proof.
  split.
  - intros Hfail.
    destruct (send_attempts_first_success 5 data w 5) as [Hr Hs]; [lia | done | lia |].
    unfold send. by rewrite Hr, Hs.
  - intros (i & Hi & Hok).
    (* the first success *)
    destruct (first_true (λ j, sendall_ok net (sendalls (client w) + j)) 5)
      as [Hnone|(k & Hk & Hkok & Hkfail)].
    { rewrite Hnone in Hok; done. }
    destruct (send_attempts_first_success 5 data w k) as [Hr Hs]; [lia | done | done |].
    unfold send. rewrite Hr, Hs. split; [by rewrite bool_decide_true | lia].
Qed.
End client_facts.

(** On a channel that refuses every write, [send] gives up after five
    writes; on one that accepts them, it succeeds. *)
Lemma send_bounded_retries_witness :
  ((@vsock.send RefJson.lib _ sample.dead_net host.on_disconnect
      (PJson sample.E2) sample.host0).1 = Ok false
   ∧ vsock.sendalls
       (vsock.client
          (@vsock.send RefJson.lib _ sample.dead_net host.on_disconnect
             (PJson sample.E2) sample.host0).2) = 0 + 5)
  ∧ (@vsock.send RefJson.lib _ sample.good_net host.on_disconnect
       (PJson sample.E2) sample.host0).1 = Ok true.
Proof.
  split.
  - apply (proj1 (@send_bounded_retries RefJson.lib _ sample.dead_net
                    host.on_disconnect sample.E2 sample.host0)).
    done.
  - apply (proj2 (@send_bounded_retries RefJson.lib _ sample.good_net
                    host.on_disconnect sample.E2 sample.host0)).
    exists 0. split; [lia | done].
Defined.

(** ** The host service and the guest mirror *)

Lemma sent_app (t1 t2 : list event) : sent (t1 ++ t2) = sent t1 ++ sent t2.
Proof. apply omap_app. Qed.

Lemma sent_connect_failed (n : nat) : sent (replicate n EConnectFailed) = [].
Proof. induction n as [|n IH]; [done | exact IH]. Qed.

Lemma handler_calls_app (t1 t2 : list event) :
  handler_calls (t1 ++ t2) = handler_calls t1 ++ handler_calls t2.
Proof. apply omap_app. Qed.

Section pydict_facts.
Context {V : Type}.
Implicit Types (k : string) (d : pydict V) (v : V).

Lemma dict_has_get k d v : dict_get k d = Some v → dict_has k d = true.
Proof. intros H. unfold dict_has. rewrite H. by apply bool_decide_eq_true. Qed.

Lemma dict_get_set k d v : dict_get k (dict_set k v d) = Some v.
Proof.
  induction d as [|[k' v'] d IH]; simpl.
  - by rewrite decide_True.
  - destruct (decide (k' = k)) as [->|Hk]; simpl.
    + by rewrite decide_True.
    + by rewrite decide_False.
Qed.

Lemma dict_get_set_ne k k' d v :
  k ≠ k' → dict_get k' (dict_set k v d) = dict_get k' d.
Proof.
  intros Hne. induction d as [|[k0 v0] d IH]; simpl.
  - by rewrite decide_False.
  - destruct (decide (k0 = k)) as [->|Hk]; simpl.
    + by rewrite !decide_False.
    + by rewrite IH.
Qed.

(** Assigning to a key that is there adds no item and moves none. *)
Lemma dict_set_keys k d v :
  dict_has k d = true → (dict_set k v d).*1 = d.*1.
Proof.
  unfold dict_has. rewrite bool_decide_eq_true.
  induction d as [|[k' v'] d IH]; simpl.
  - by intros [? [=]].
  - destruct (decide (k' = k)) as [->|Hk]; simpl; [done|].
    intros Hin. f_equal. by apply IH.
Qed.
End pydict_facts.

Section host_facts.
Context `{!JsonLib}.
Variable net : vsock.network.
Variable handler : option (string → string → bool).
Import host.
Implicit Types w : host.W.

(** The request a guest sends, as [handle_request] receives it. *)
Abbreviation request d t :=
  (dpm.PassthroughRequest.to_json (dpm.PassthroughRequest.mk d t)).

Ltac run_host :=
  unfold notify_device_passthrough, notify_device_connected,
    call_passthrough_handler, registry, log, set_registry,
    vsock.log, vsock.emit, try_except, bind, ret, raise, lift, gets, modify;
  cbn [fst snd vsock.client vsock.owner vsock.trace device_registry connected].

(** A well-formed request gets past decoding. *)
Lemma handle_request_passthrough (device_id target_vm : string) w :
  device_id ≠ "" → target_vm ≠ "" →
  handle_request net handler (request device_id target_vm) w =
  if dict_has device_id (device_registry (vsock.owner w)) then
    bind (call_passthrough_handler handler device_id target_vm)
      (λ passed,
         if passed : bool then
           bind (notify_device_passthrough net device_id target_vm)
             (λ notified, if notified : bool then ret tt
                else log LError "Notify error! Service restart required.")
         else log LError "Passthrough error! Service restart required") w
  else log LError ("Device " +:+ device_id +:+ " not found in registry") w.
Proof.
  intros Hd Ht. unfold handle_request.
  change (dpm.get_message_type (request device_id target_vm))
    with (Ok (JStr dpm.PassthroughRequest.MSG_TYPE) : res json).
  unfold bind at 1, lift at 1.
  change (dpm.str_eqb (JStr dpm.PassthroughRequest.MSG_TYPE) dpm.GetDevices.MSG_TYPE)
    with false.
  change (dpm.str_eqb (JStr dpm.PassthroughRequest.MSG_TYPE)
            dpm.PassthroughRequest.MSG_TYPE) with true.
  cbv iota. rewrite request_from_message by done.
  unfold bind at 1, lift at 1. unfold bind at 1, registry at 1, gets at 1.
  cbn [dpm.PassthroughRequest.device_id dpm.PassthroughRequest.target_vm].
  by destruct (dict_has _ _).
Qed.

(** The ack is built and then lost: [to_json] raises before anything is
    handed to [send].  The registry was already updated. *)
Lemma granted_request_raises (w : host.W) (device_id target_vm : string)
    (e : entry) (h : string → string → bool) :
  handler = Some h → h device_id target_vm = true →
  device_id ≠ "" → target_vm ≠ "" →
  dict_get device_id (device_registry (vsock.owner w)) = Some e →
  target_vm ∈ permitted_vms e → target_vm ≠ current_vm e →
  handle_request net handler (request device_id target_vm) w =
  (Raise AttributeError,
   vsock.mkWorld (vsock.client w)
     (mk (dict_set device_id
            (mk_entry (host.device_id e) (vendor e) (product e)
               (permitted_vms e) target_vm)
            (device_registry (vsock.owner w)))
         (connected (vsock.owner w)))
     (vsock.trace w ++ [EPassthrough device_id target_vm])).
Proof.
  intros Hh Hok Hd Ht He Hperm Hcur.
  rewrite handle_request_passthrough by done.
  rewrite (dict_has_get _ _ _ He).
  destruct w as [c [reg conn] t]. cbn in He.
  rewrite Hh. run_host. rewrite Hok. run_host. rewrite He.
  rewrite bool_decide_eq_true_2 by done.
  rewrite bool_decide_eq_true_2 by done. run_host.
  unfold dpm.PassthroughAck.init. simpl.
  by rewrite decide_False.
Qed.

(** Claim C2, amended.  For a request that names a registered device
    and a target VM outside its [permitted_vms], the host sends no ack,
    [denied] or other: no message is sent and no write is attempted.
    The registry, and with it the entry's [current-vm], is left as it
    was.  With a handler installed, the handler is called once for the
    request and the call returns normally; without one the call raises
    [TypeError] and changes nothing. *)
Theorem denied_request_sends_no_ack (w : host.W) (device_id target_vm : string)
    (e : entry) :
  device_id ≠ "" → target_vm ≠ "" →
  dict_get device_id (device_registry (vsock.owner w)) = Some e →
  target_vm ∉ permitted_vms e →
  let out := handle_request net handler (request device_id target_vm) w in
  device_registry (vsock.owner out.2) = device_registry (vsock.owner w)
  ∧ sent (vsock.trace out.2) = sent (vsock.trace w)
  ∧ vsock.sendalls (vsock.client out.2) = vsock.sendalls (vsock.client w)
  ∧ match handler with
    | Some _ =>
        out.1 = Ok tt
        ∧ handler_calls (vsock.trace out.2)
          = handler_calls (vsock.trace w) ++ [(device_id, target_vm)]
    | None => out = (Raise TypeError, w)
    end.
Proof.
  intros Hd Ht He Hperm out. subst out.
  rewrite handle_request_passthrough by done.
  rewrite (dict_has_get _ _ _ He).
  destruct w as [c [reg conn] t]. cbn in He.
  destruct handler as [h|]; run_host; [|done].
  destruct (h device_id target_vm); run_host.
  - rewrite He. rewrite bool_decide_eq_false_2 by done. run_host.
    rewrite !sent_app, !handler_calls_app. simpl. by rewrite !app_nil_r.
  - rewrite !sent_app, !handler_calls_app. simpl. by rewrite !app_nil_r.
Qed.


(** An object [json.dumps] refuses is never written: every attempt ends
    in [TypeError], the connection is closed, and after the last attempt
    [send] reports failure. *)
Lemma send_instance_fails (n : nat) (class_name : string) w :
  ∃ w', vsock.send_attempts net on_disconnect n (PInstance class_name) w
        = (Ok false, w')
        ∧ vsock.sendalls (vsock.client w') = vsock.sendalls (vsock.client w)
        ∧ sent (vsock.trace w') = sent (vsock.trace w)
        ∧ device_registry (vsock.owner w') = device_registry (vsock.owner w).
Proof.
  revert w. induction n as [|n IH]; intros w; [by eexists|].
  destruct w as [[c k i] [reg conn] t].
  cbn [vsock.send_attempts].
  unfold try_except, bind, ret, lift, gets, modify, vsock.server,
    vsock.close_connection, vsock.log, vsock.emit, vsock.set_client,
    json_transport.send, json_transport.wire; simpl.
  destruct c; simpl;
    match goal with
    | |- context [vsock.send_attempts _ _ n _ ?w1] =>
        destruct (IH w1) as (w' & -> & Hs & Ht & Hr)
    end;
    exists w'; simpl in *; repeat split; try done.
  - rewrite Ht, !sent_app; simpl. by rewrite !app_nil_r.
  - rewrite Ht, !sent_app, sent_connect_failed; simpl. by rewrite !app_nil_r.
Qed.

(** Claim C4, as the code has it.  [reset] empties the registry, but
    the [Reset] object it hands to [send] is not JSON: [reset] returns
    [False], and no byte is written, nor any write attempted, whatever
    the state of the channel. *)
Theorem reset_sends_no_message w :
  let out := reset net w in
  out.1 = Ok false
  ∧ device_registry (vsock.owner out.2) = []
  ∧ sent (vsock.trace out.2) = sent (vsock.trace w)
  ∧ vsock.sendalls (vsock.client out.2) = vsock.sendalls (vsock.client w).
Proof.
  intros out.
  assert (∃ w', out = (Ok false, w')
                ∧ vsock.sendalls (vsock.client w') = vsock.sendalls (vsock.client w)
                ∧ sent (vsock.trace w') = sent (vsock.trace w)
                ∧ device_registry (vsock.owner w') = [])
    as (w' & -> & Hs & Ht & Hr); [|done].
  subst out. unfold reset, gui_vm_send, vsock.send, bind, set_registry, modify.
  match goal with
  | |- context [vsock.send_attempts _ _ 5 _ ?w1] =>
      destruct (send_instance_fails 5 "Reset" w1) as (w' & -> & Hs & Ht & Hr)
  end.
  by exists w'.
Qed.

Lemma second_connect_ignored_on_host w (device_id vendor product : string)
    (permitted_vms : list string) (current_vm : string) :
  dict_has device_id (device_registry (vsock.owner w)) = true →
  notify_device_connected net device_id vendor product permitted_vms current_vm w
  = (Ok true,
     vsock.mkWorld (vsock.client w) (vsock.owner w)
       (vsock.trace w ++
        [ELog LError ("Device " +:+ device_id
                      +:+ " already in registry, connection request ignored.")])).
Proof.
  intros Hin. destruct w as [c [reg conn] t]. simpl in Hin.
  run_host. by rewrite Hin.
Qed.
End host_facts.

Section guest_facts.
Import guest.
Implicit Types w : guest.W.

(** The mirror stores the device of every [device_connected] message it
    decodes, over whatever it held for that id. *)
Lemma on_msg_device_connected w (m : dpm.DeviceConnected.t) :
  dpm.DeviceConnected.well_formed m →
  on_msg (dpm.DeviceConnected.to_json m) w =
  let reg := dict_set (dpm.DeviceConnected.device_id m)
               (dpm.DeviceConnected.device m)
               (device_registry (vsock.owner w)) in
  (Ok tt,
   vsock.mkWorld (vsock.client w) (mk reg (connected (vsock.owner w)))
     (vsock.trace w ++ [EWriteRegistry reg]
      ++ [EPopup (dpm.DeviceConnected.device_id m)])).
Proof.
  intros (Hd & Hv & Hp). unfold on_msg.
  change (dpm.get_message_type (dpm.DeviceConnected.to_json m))
    with (Ok (JStr dpm.DeviceConnected.MSG_TYPE) : res json).
  unfold bind at 1, lift at 1.
  change (dpm.str_eqb (JStr dpm.DeviceConnected.MSG_TYPE) dpm.DeviceConnected.MSG_TYPE)
    with true.
  cbv iota. rewrite connected_from_message by done.
  destruct w as [c [reg conn] t].
  unfold atomic_write_registry, registry, set_registry, vsock.emit,
    bind, ret, lift, gets, modify. simpl.
  by rewrite <- (assoc_L (++)).
Qed.
End guest_facts.

(** Claim C5, amended.  A second [device_connected] for a [device_id]
    that is already registered: the host leaves its registry as it was,
    sends nothing and returns [True]; the guest mirror decodes the message
    and puts its device in the place of the one it held, so the mirror
    still has one entry for that id, the second message's. *)
Theorem second_device_connected `{!JsonLib} (net : vsock.network)
    (hw : host.W) (device_id vendor product : string)
    (permitted_vms : list string) (current_vm : string)
    (gw : guest.W) (first second : dpm.DeviceConnected.t) :
  dict_has device_id (host.device_registry (vsock.owner hw)) = true →
  dpm.DeviceConnected.well_formed first →
  dpm.DeviceConnected.well_formed second →
  dpm.DeviceConnected.device_id second = dpm.DeviceConnected.device_id first →
  let host_out :=
    host.notify_device_connected net device_id vendor product permitted_vms
      current_vm hw in
  let gw1 := (guest.on_msg (dpm.DeviceConnected.to_json first) gw).2 in
  let guest_out := guest.on_msg (dpm.DeviceConnected.to_json second) gw1 in
  (host_out.1 = Ok true
   ∧ vsock.owner host_out.2 = vsock.owner hw
   ∧ sent (vsock.trace host_out.2) = sent (vsock.trace hw))
  ∧ (guest_out.1 = Ok tt
     ∧ (guest.device_registry (vsock.owner guest_out.2)).*1
       = (guest.device_registry (vsock.owner gw1)).*1
     ∧ dict_get (dpm.DeviceConnected.device_id first)
         (guest.device_registry (vsock.owner guest_out.2))
       = Some (dpm.DeviceConnected.device second)).
Proof.
  intros Hin Hfirst Hsecond Hid host_out gw1 guest_out. split.
  - subst host_out. rewrite second_connect_ignored_on_host by done. simpl.
    rewrite sent_app. simpl. by rewrite app_nil_r.
  - subst guest_out gw1. rewrite !on_msg_device_connected by done. simpl.
    rewrite Hid. split; [done|]. split.
    + apply dict_set_keys. eapply dict_has_get, dict_get_set.
    + apply dict_get_set.
Qed.

(** *** The claims on concrete data

    The host knows device [D], permitted on [vm-a] and [vm-b] and now on
    [vm-a]; the channel accepts every write and the handler moves every
    device. *)

(** Claim C1 at the failing input: a request to move [D] to [vm-b].  The
    handler succeeds and the registry is updated, but building the ack's
    JSON raises [AttributeError]: the exception leaves [handle_request]
    and no ack is sent. *)
Lemma granted_request_sends_no_ack :
  let out :=
    @host.handle_request RefJson.lib sample.good_net sample.handler_ok
      (sample.request "D" "vm-b") sample.host0 in
  out.1 = Raise AttributeError
  ∧ sent (vsock.trace out.2) = []
  ∧ handler_calls (vsock.trace out.2) = [("D", "vm-b")]
  ∧ host.device_registry (vsock.owner out.2)
    = [("D", host.mk_entry "D" "Acme" "Keyboard" ["vm-a"; "vm-b"] "vm-b")].
Proof. by vm_compute. Qed.

(** Claim C2 as stated fails: a request to move [D] to [vm-c], which is
    not permitted, is answered by no message at all. *)
Lemma denied_request_sends_nothing :
  let out :=
    @host.handle_request RefJson.lib sample.good_net sample.handler_ok
      (sample.request "D" "vm-c") sample.host0 in
  out.1 = Ok tt
  ∧ sent (vsock.trace out.2) = []
  ∧ vsock.trace out.2
    = [EPassthrough "D" "vm-c";
       ELog LError "Device D not permitted on VM vm-c";
       ELog LError "Notify error! Service restart required."].
Proof. by vm_compute. Qed.

Lemma denied_request_sends_no_ack_witness :
  let out :=
    @host.handle_request RefJson.lib sample.good_net sample.handler_ok
      (sample.request "D" "vm-c") sample.host0 in
  host.device_registry (vsock.owner out.2) = [("D", sample.D)]
  ∧ sent (vsock.trace out.2) = []
  ∧ vsock.sendalls (vsock.client out.2) = 0
  ∧ out.1 = Ok tt
  ∧ handler_calls (vsock.trace out.2) = [] ++ [("D", "vm-c")].
Proof.
  apply (@denied_request_sends_no_ack RefJson.lib sample.good_net
           sample.handler_ok sample.host0 "D" "vm-c" sample.D).
  - done.
  - done.
  - reflexivity.
  - apply (bool_decide_unpack _). by vm_compute.
Defined.



(** Claim C4 at a failing input: [reset] on the sample host, the channel
    being in order.  The registry is emptied, [reset] returns [False], and
    the trace shows five connections made and closed without one write. *)
Lemma reset_on_good_channel :
  let out := @host.reset RefJson.lib sample.good_net sample.host0 in
  out.1 = Ok false
  ∧ host.device_registry (vsock.owner out.2) = []
  ∧ sent (vsock.trace out.2) = []
  ∧ vsock.connects (vsock.client out.2) = 5
  ∧ vsock.sendalls (vsock.client out.2) = 0.
Proof. by vm_compute. Qed.

(** After it, a [get_devices] request is answered with an empty device
    mapping. *)
Lemma get_devices_after_reset :
  let w := (@host.reset RefJson.lib sample.good_net sample.host0).2 in
  let out :=
    @host.handle_request RefJson.lib sample.good_net sample.handler_ok
      dpm.GetDevices.to_json w in
  out.1 = Ok tt
  ∧ sent (vsock.trace out.2)
    = [RefJson.dumps
         (dpm.envelope "connected_devices" (JObj [("devices", JObj [])]))
       ++ [nl]].
Proof. by vm_compute. Qed.

(** Claim C5 as stated fails on the guest mirror: after two
    [device_connected] messages for [D] with different fields, the entry
    is the second message's device, not the first's. *)
Lemma mirror_keeps_second_device :
  let w1 := (guest.on_msg (dpm.DeviceConnected.to_json sample.connected1)
               sample.guest0).2 in
  let w2 := (guest.on_msg (dpm.DeviceConnected.to_json sample.connected2) w1).2 in
  guest.device_registry (vsock.owner w1)
  = [("D", dpm.DeviceConnected.device sample.connected1)]
  ∧ guest.device_registry (vsock.owner w2)
    = [("D", dpm.DeviceConnected.device sample.connected2)]
  ∧ dpm.DeviceConnected.device sample.connected2
    ≠ dpm.DeviceConnected.device sample.connected1.
Proof. by vm_compute. Qed.

Lemma second_device_connected_witness :
  let host_out :=
    @host.notify_device_connected RefJson.lib sample.good_net
      "D" "Other" "Mouse" ["vm-c"] "" sample.host0 in
  let gw1 := (guest.on_msg (dpm.DeviceConnected.to_json sample.connected1)
                sample.guest0).2 in
  let guest_out :=
    guest.on_msg (dpm.DeviceConnected.to_json sample.connected2) gw1 in
  (host_out.1 = Ok true
   ∧ vsock.owner host_out.2 = vsock.owner sample.host0
   ∧ sent (vsock.trace host_out.2) = sent (vsock.trace sample.host0))
  ∧ (guest_out.1 = Ok tt
     ∧ (guest.device_registry (vsock.owner guest_out.2)).*1
       = (guest.device_registry (vsock.owner gw1)).*1
     ∧ dict_get "D" (guest.device_registry (vsock.owner guest_out.2))
       = Some (dpm.DeviceConnected.device sample.connected2)).
Proof.
  apply (@second_device_connected RefJson.lib sample.good_net sample.host0
           "D" "Other" "Mouse" ["vm-c"] "" sample.guest0
           sample.connected1 sample.connected2).
  - reflexivity.
  - by repeat split.
  - by repeat split.
  - reflexivity.
Defined.

(** ** Further properties *)

(** *** Framing *)

(** Whatever the reads, [receive] yields what the newline-terminated lines
    of the stream yield, taken in order: each line stripped, the empty
    ones skipped, the others decoded until one fails. *)
Theorem receive_reads_complete_lines `{!JsonLib} (chunks : list bytes)
    (tail : list json_transport.recv_result) :
  Forall (λ c, c ≠ []) chunks → framing.at_eof tail →
  json_transport.receive ((json_transport.Recv <$> chunks) ++ tail)
  = framing.yield_lines (framing.complete_lines (concat chunks)).
Proof. apply receive_lines. Qed.

Lemma receive_reads_complete_lines_witness :
  @json_transport.receive RefJson.lib
    (json_transport.Recv <$> sample.cut 10 (sample.stream [sample.E1]))
  = @framing.yield_lines RefJson.lib [RefJson.dumps sample.E1].
Proof.
  rewrite <- (app_nil_r (_ <$> _)).
  refine (eq_trans (@receive_reads_complete_lines RefJson.lib _ [] _ _) _).
  - repeat constructor; by vm_compute.
  - exact I.
  - by vm_compute.
Defined.

(** *** Protocol messages *)

(** A [device_connected] message survives [to_json] and [from_message]. *)
Theorem device_connected_round_trip (m : dpm.DeviceConnected.t) :
  dpm.DeviceConnected.well_formed m →
  dpm.DeviceConnected.from_message (dpm.DeviceConnected.to_json m) = Ok (Some m).
Proof. intros (Hd & Hv & Hp). by apply connected_from_message. Qed.

Lemma device_connected_round_trip_witness :
  dpm.DeviceConnected.from_message (dpm.DeviceConnected.to_json sample.connected1)
  = Ok (Some sample.connected1).
Proof. apply (device_connected_round_trip sample.connected1). by repeat split. Defined.

(** So does a [passthrough_request]. *)
Theorem passthrough_request_round_trip (device_id target_vm : string) :
  device_id ≠ "" → target_vm ≠ "" →
  dpm.PassthroughRequest.from_message
    (dpm.PassthroughRequest.to_json (dpm.PassthroughRequest.mk device_id target_vm))
  = Ok (Some (dpm.PassthroughRequest.mk device_id target_vm)).
Proof. apply request_from_message. Qed.

Lemma passthrough_request_round_trip_witness :
  dpm.PassthroughRequest.from_message (sample.request "D" "vm-b")
  = Ok (Some (dpm.PassthroughRequest.mk "D" "vm-b")).
Proof. by apply (passthrough_request_round_trip "D" "vm-b"). Defined.

Section dpm_round_trips.
Import dpm.
#[local] Arguments _str_ok : simpl never.
#[local] Arguments _is_list_of_str : simpl never.
#[local] Arguments str_items : simpl never.
#[local] Arguments str_or_none : simpl never.
#[local] Arguments of_strs : simpl never.
#[local] Arguments of_opt_str : simpl never.


Lemma clean_info_info_dict (i : ConnectedDevices.info) :
  reg_rel.valid_info i →
  ConnectedDevices.clean_info (JObj (ConnectedDevices.info_dict i)) = Ok i.
Proof.
  intros [Hv Hp]. destruct i as [v p perm cur]. simpl in *.
  unfold ConnectedDevices.clean_info. simpl.
  rewrite !str_ok_nonempty by done. cbn [res_bind].
  rewrite is_list_of_str_of_strs, str_items_of_strs, str_or_none_of_opt_str.
  done.
Qed.

Lemma clean_items_info_dicts (items acc : pydict ConnectedDevices.info) :
  NoDup (acc.*1 ++ items.*1) → Forall (λ kv, reg_rel.valid_info kv.2) items →
  ConnectedDevices.clean_items
    (prod_map id (λ i, JObj (ConnectedDevices.info_dict i)) <$> items) acc
  = Ok (acc ++ items).
Proof.
  revert acc. induction items as [|[k i] items IH]; intros acc Hnd Hval.
  - simpl. by rewrite app_nil_r.
  - inversion Hval as [|? ? Hi Hval']; subst. simpl in Hi.
    rewrite fmap_cons. cbn [prod_map fst snd id ConnectedDevices.clean_items].
    rewrite clean_info_info_dict by done. cbn [res_bind].
    simpl in Hnd. apply NoDup_app in Hnd as (Hacc & Hdisj & Hitems).
    rewrite dict_set_fresh.
    2:{ intros Hin. apply (Hdisj _ Hin). by left. }
    rewrite IH; [| | done].
    + by rewrite <- (assoc_L (++)).
    + rewrite fmap_app. simpl. rewrite <- (assoc_L (++)). simpl.
      apply NoDup_app. split; [done|]. split; [|done].
      intros x Hx. by apply Hdisj.
Qed.

Lemma connected_devices_from_message (m : ConnectedDevices.t) :
  NoDup (ConnectedDevices.devices m).*1 →
  Forall (λ kv, reg_rel.valid_info kv.2) (ConnectedDevices.devices m) →
  ConnectedDevices.from_message (ConnectedDevices.to_json m) = Ok (Some m).
Proof.
  intros Hnd Hval. destruct m as [items]. simpl in *.
  unfold ConnectedDevices.from_message. simpl.
  unfold ConnectedDevices.from_payload. simpl.
  unfold ConnectedDevices.init.
  by rewrite clean_items_info_dicts.
Qed.
End dpm_round_trips.

(** A [connected_devices] message survives [to_json] and [from_message]
    when its devices have non-empty vendor and product names. *)
Theorem connected_devices_round_trip (m : dpm.ConnectedDevices.t) :
  NoDup (dpm.ConnectedDevices.devices m).*1 →
  Forall (λ kv, reg_rel.valid_info kv.2) (dpm.ConnectedDevices.devices m) →
  dpm.ConnectedDevices.from_message (dpm.ConnectedDevices.to_json m) = Ok (Some m).
Proof. apply connected_devices_from_message. Qed.

Lemma connected_devices_round_trip_witness :
  dpm.ConnectedDevices.from_message (dpm.ConnectedDevices.to_json sample.snapshot)
  = Ok (Some sample.snapshot).
Proof.
  apply (connected_devices_round_trip sample.snapshot).
  - apply (bool_decide_unpack _). by vm_compute.
  - repeat constructor; by vm_compute.
Defined.


Section dpm_kinds.
Import dpm.

Lemma str_eqb_true (x : json) (text : string) :
  str_eqb x text = true → x = JStr text.
Proof.
  destruct x; try done. simpl. intros Hs.
  apply bool_decide_eq_true in Hs. by subst.
Qed.

(** A [from_message] that returns a message has seen its own type. *)
Ltac decodes_type :=
  intros msg; destruct (get msg "type") as [ty|] eqn:Hty; simpl; [|done];
  destruct (str_eqb ty _) eqn:Heq; [|done];
  intros _; f_equal; by apply str_eqb_true.

Lemma decodes_device_connected msg :
  decodes (DeviceConnected.from_message msg) = true →
  get msg "type" = Ok (JStr DeviceConnected.MSG_TYPE).
Proof. revert msg. unfold DeviceConnected.from_message. decodes_type. Qed.

Lemma decodes_device_removed msg :
  decodes (DeviceRemoved.from_message msg) = true →
  get msg "type" = Ok (JStr DeviceRemoved.MSG_TYPE).
Proof. revert msg. unfold DeviceRemoved.from_message. decodes_type. Qed.

Lemma decodes_passthrough_ack msg :
  decodes (PassthroughAck.from_message msg) = true →
  get msg "type" = Ok (JStr PassthroughAck.MSG_TYPE).
Proof. revert msg. unfold PassthroughAck.from_message. decodes_type. Qed.

Lemma decodes_connected_devices msg :
  decodes (ConnectedDevices.from_message msg) = true →
  get msg "type" = Ok (JStr ConnectedDevices.MSG_TYPE).
Proof. revert msg. unfold ConnectedDevices.from_message. decodes_type. Qed.

Lemma decodes_get_devices msg :
  decodes (GetDevices.from_message msg) = true →
  get msg "type" = Ok (JStr GetDevices.MSG_TYPE).
Proof. revert msg. unfold GetDevices.from_message. decodes_type. Qed.

Lemma decodes_reset msg :
  decodes (Reset.from_message msg) = true →
  get msg "type" = Ok (JStr Reset.MSG_TYPE).
Proof. revert msg. unfold Reset.from_message. decodes_type. Qed.

Lemma decodes_passthrough_request msg :
  decodes (PassthroughRequest.from_message msg) = true →
  get msg "type" = Ok (JStr PassthroughRequest.MSG_TYPE).
Proof. revert msg. unfold PassthroughRequest.from_message. decodes_type. Qed.

(** No message is decoded by two classes: of the seven [from_message]
    functions at most one returns a message, the others return [None] or
    raise. *)
Theorem message_kinds_exclusive (msg : json) :
  length (filter (λ b, b = true)
            [decodes (DeviceConnected.from_message msg);
             decodes (DeviceRemoved.from_message msg);
             decodes (PassthroughAck.from_message msg);
             decodes (ConnectedDevices.from_message msg);
             decodes (GetDevices.from_message msg);
             decodes (Reset.from_message msg);
             decodes (PassthroughRequest.from_message msg)]) ≤ 1.
Proof.
  pose proof (decodes_device_connected msg) as H1.
  pose proof (decodes_device_removed msg) as H2.
  pose proof (decodes_passthrough_ack msg) as H3.
  pose proof (decodes_connected_devices msg) as H4.
  pose proof (decodes_get_devices msg) as H5.
  pose proof (decodes_reset msg) as H6.
  pose proof (decodes_passthrough_request msg) as H7.
  unfold DeviceConnected.MSG_TYPE, DeviceRemoved.MSG_TYPE,
    PassthroughAck.MSG_TYPE, ConnectedDevices.MSG_TYPE, GetDevices.MSG_TYPE,
    Reset.MSG_TYPE, PassthroughRequest.MSG_TYPE in *.
  destruct (get msg "type") as [ty|e].
  - destruct (decodes (DeviceConnected.from_message msg));
    destruct (decodes (DeviceRemoved.from_message msg));
    destruct (decodes (PassthroughAck.from_message msg));
    destruct (decodes (ConnectedDevices.from_message msg));
    destruct (decodes (GetDevices.from_message msg));
    destruct (decodes (Reset.from_message msg));
    destruct (decodes (PassthroughRequest.from_message msg));
    try (cbv; lia);
    repeat match goal with
           | H : true = true → _ |- _ => specialize (H eq_refl)
           end; congruence.
  - destruct (decodes (DeviceConnected.from_message msg)); [by specialize (H1 eq_refl)|].
    destruct (decodes (DeviceRemoved.from_message msg)); [by specialize (H2 eq_refl)|].
    destruct (decodes (PassthroughAck.from_message msg)); [by specialize (H3 eq_refl)|].
    destruct (decodes (ConnectedDevices.from_message msg)); [by specialize (H4 eq_refl)|].
    destruct (decodes (GetDevices.from_message msg)); [by specialize (H5 eq_refl)|].
    destruct (decodes (Reset.from_message msg)); [by specialize (H6 eq_refl)|].
    destruct (decodes (PassthroughRequest.from_message msg)); [by specialize (H7 eq_refl)|].
    cbv. lia.
Qed.

(** An envelope without a payload is read as one with an empty payload:
    the two kinds that carry nothing are decoded, the five others raise
    [ValueError] for the field they miss. *)
Theorem missing_payload (kvs : pydict json) (ty : string) :
  dict_get "type" kvs = Some (JStr ty) →
  dict_get "payload" kvs = None →
  (ty = GetDevices.MSG_TYPE → GetDevices.from_message (JObj kvs) = Ok (Some tt))
  ∧ (ty = Reset.MSG_TYPE → Reset.from_message (JObj kvs) = Ok (Some tt))
  ∧ (ty = DeviceConnected.MSG_TYPE →
     DeviceConnected.from_message (JObj kvs) = Raise ValueError)
  ∧ (ty = DeviceRemoved.MSG_TYPE →
     DeviceRemoved.from_message (JObj kvs) = Raise ValueError)
  ∧ (ty = PassthroughAck.MSG_TYPE →
     PassthroughAck.from_message (JObj kvs) = Raise ValueError)
  ∧ (ty = ConnectedDevices.MSG_TYPE →
     ConnectedDevices.from_message (JObj kvs) = Raise ValueError)
  ∧ (ty = PassthroughRequest.MSG_TYPE →
     PassthroughRequest.from_message (JObj kvs) = Raise ValueError).
Proof.
  intros Hty Hpl.
  repeat split; intros ->;
    unfold GetDevices.from_message, Reset.from_message,
      DeviceConnected.from_message, DeviceRemoved.from_message,
      PassthroughAck.from_message, ConnectedDevices.from_message,
      PassthroughRequest.from_message;
    cbn [get get_or res_bind]; rewrite Hty, Hpl; done.
Qed.
End dpm_kinds.

Lemma missing_payload_witness :
  dpm.GetDevices.from_message (JObj [("type", JStr "get_devices")]) = Ok (Some tt)
  ∧ dpm.DeviceRemoved.from_message (JObj [("type", JStr "device_removed")])
    = Raise ValueError.
Proof.
  split.
  - by apply (missing_payload [("type", JStr "get_devices")] "get_devices").
  - by apply (missing_payload [("type", JStr "device_removed")] "device_removed").
Defined.


(** *** Relations kept by every run *)

Section keeps_facts.
Context {W : Type} (R : W → W → Prop) `{!Reflexive R} `{!Transitive R}.

Lemma keeps_ret {A} (a : A) : keeps R (ret a).
Proof. intros w. simpl. reflexivity. Qed.

Lemma keeps_raise {A} (e : exn) : keeps R (@raise W A e).
Proof. intros w. simpl. reflexivity. Qed.

Lemma keeps_lift {A} (r : res A) : keeps R (lift r).
Proof. intros w. simpl. reflexivity. Qed.

Lemma keeps_gets {A} (f : W → A) : keeps R (gets f).
Proof. intros w. simpl. reflexivity. Qed.

Lemma keeps_modify (f : W → W) : (∀ w, R w (f w)) → keeps R (modify f).
Proof. intros Hf w. apply Hf. Qed.

Lemma keeps_bind {A B} (m : M W A) (k : A → M W B) :
  keeps R m → (∀ a, keeps R (k a)) → keeps R (bind m k).
Proof.
  intros Hm Hk w. unfold bind. specialize (Hm w).
  destruct (m w) as [[a|e] w1]; simpl in *; [|done].
  etrans; [exact Hm | apply Hk].
Qed.

Lemma keeps_try_except {A} (body : M W A) (handler : exn → M W A) :
  keeps R body → (∀ e, keeps R (handler e)) → keeps R (try_except body handler).
Proof.
  intros Hm Hk w. unfold try_except. specialize (Hm w).
  destruct (body w) as [[a|e] w1]; simpl in *; [done|].
  etrans; [exact Hm | apply Hk].
Qed.

Lemma keeps_try_except_OSError {A} (body handler : M W A) :
  keeps R body → keeps R handler → keeps R (try_except_OSError body handler).
Proof.
  intros Hm Hk w. unfold try_except_OSError. specialize (Hm w).
  destruct (body w) as [[a|e] w1]; simpl in *; [done|].
  destruct e; try done. etrans; [exact Hm | apply Hk].
Qed.
End keeps_facts.

Create HintDb keeps.
#[export] Hint Resolve keeps_ret keeps_raise keeps_lift keeps_gets : keeps.

(** One step down a computation: a [bind], a test, or a leaf. *)
Ltac keeps_step :=
  lazymatch goal with
  | |- keeps _ (bind _ _) => apply keeps_bind; [solve [apply _] .. | | intros ?]
  | |- keeps _ (try_except _ _) => apply keeps_try_except; [solve [apply _] .. | | intros ?]
  | |- keeps _ (try_except_OSError _ _) => apply keeps_try_except_OSError; [solve [apply _] .. | |]
  | |- keeps _ (if ?b then _ else _) => destruct b
  | |- keeps _ (match ?x with _ => _ end) => destruct x
  | |- keeps _ (let '(_, _) := ?x in _) => destruct x
  | |- keeps _ _ =>
      solve [ eauto with keeps
            | first [apply keeps_ret | apply keeps_raise | apply keeps_lift
                    | apply keeps_gets]; apply _ ]
  end.

(** The client's methods touch the owner through [on_disconnect] only. *)
Section client_keeps.
Context `{!JsonLib} {Owner : Type}.
Variable net : vsock.network.
Variable on_disconnect : Owner → Owner.
Variable R : vsock.world Owner → vsock.world Owner → Prop.
Context `{!Reflexive R} `{!Transitive R}.
Hypothesis R_client : ∀ w c,
  R w (vsock.mkWorld c (vsock.owner w) (vsock.trace w)).
Hypothesis R_emit : ∀ w es, Forall client_event es →
  R w (vsock.mkWorld (vsock.client w) (vsock.owner w) (vsock.trace w ++ es)).
Hypothesis R_disconnect : ∀ w,
  R w (vsock.mkWorld (vsock.client w) (on_disconnect (vsock.owner w)) (vsock.trace w)).

Lemma keeps_emit es :
  Forall client_event es → keeps R (vsock.emit (Owner:=Owner) es).
Proof. intros Hes. apply keeps_modify. intros w. by apply R_emit. Qed.

Lemma keeps_log level text : keeps R (vsock.log (Owner:=Owner) level text).
Proof. apply keeps_emit. by repeat constructor. Qed.

Lemma keeps_set_client c : keeps R (vsock.set_client (Owner:=Owner) c).
Proof. apply keeps_modify. intros w. apply R_client. Qed.

Hint Resolve keeps_log keeps_set_client : keeps.
Hint Extern 1 (keeps _ (vsock.emit _)) =>
  apply keeps_emit; rewrite ?Forall_app; repeat split;
  first [apply Forall_replicate; exact I | repeat constructor] : keeps.

Lemma keeps_server : keeps R (vsock.server (Owner:=Owner) net).
Proof. unfold vsock.server. repeat keeps_step. Qed.

Lemma keeps_sendall data : keeps R (vsock.sendall (Owner:=Owner) net data).
Proof. unfold vsock.sendall. repeat keeps_step. Qed.

Lemma keeps_close_connection : keeps R (vsock.close_connection on_disconnect).
Proof.
  unfold vsock.close_connection. repeat keeps_step.
Qed.

Hint Resolve keeps_server keeps_sendall keeps_close_connection : keeps.

Lemma keeps_send_attempts n data :
  keeps R (vsock.send_attempts net on_disconnect n data).
Proof.
  induction n as [|n IH]; cbn [vsock.send_attempts]; [auto with keeps|].
  unfold json_transport.send. repeat keeps_step.
Qed.

Lemma keeps_send data : keeps R (vsock.send net on_disconnect data).
Proof. apply keeps_send_attempts. Qed.

Lemma keeps_for_each on_message msgs :
  (∀ msg, keeps R (on_message msg)) →
  keeps R (vsock.for_each on_message msgs).
Proof.
  intros Hm. induction msgs as [|msg msgs IH]; cbn [vsock.for_each];
    repeat keeps_step.
Qed.

Lemma keeps_run_once on_message sock :
  (∀ msg, keeps R (on_message msg)) →
  keeps R (vsock.run_once net on_disconnect on_message sock).
Proof.
  intros Hm. pose proof (keeps_for_each on_message) as Hfor.
  unfold vsock.run_once. repeat keeps_step.
Qed.
End client_keeps.

Lemma moved_refl : Reflexive reg_rel.moved.
Proof. intros e. by left. Qed.

Lemma moved_trans : Transitive reg_rel.moved.
Proof.
  intros e1 e2 e3 [->|[Hin2 H2]] [->|[Hin3 H3]].
  - by left.
  - by right.
  - by right.
  - right. rewrite H2 in Hin3, H3. simpl in *. by split.
Qed.

#[export] Existing Instances moved_refl moved_trans.

Lemma step_refl : Reflexive reg_rel.step.
Proof. intros reg. apply Forall2_same_length_lookup_2; [done|].
  intros i x y Hx Hy. assert (x = y) as -> by congruence. done. Qed.

Lemma step_trans : Transitive reg_rel.step.
Proof.
  intros r1 r2 r3 H12. unfold reg_rel.step in *. revert r3.
  induction H12 as [|x y r1 r2 [Hk Hm] H12 IH]; intros r3 H23.
  - by inversion H23.
  - inversion H23 as [|? z ? r3' [Hk' Hm'] H23']; subst.
    constructor; [split; [congruence | by trans y.2] | by apply IH].
Qed.

#[export] Existing Instances step_refl step_trans.

Lemma dict_set_step (k : string) (e e' : host.entry) (reg : pydict host.entry) :
  dict_get k reg = Some e → reg_rel.moved e e' →
  reg_rel.step reg (dict_set k e' reg).
Proof.
  induction reg as [|[k0 e0] reg IH]; simpl; [done|].
  destruct (decide (k0 = k)) as [->|Hne].
  - intros [= ->] Hm. constructor; [done | reflexivity].
  - intros He Hm. constructor; [done | by apply IH].
Qed.

Section host_step.
Context `{!JsonLib}.
Variable net : vsock.network.
Variable handler : option (string → string → bool).
Import host.

(** A relation on worlds that only looks at the registry. *)
Variable Rreg : pydict entry → pydict entry → Prop.
Context `{!Reflexive Rreg} `{!Transitive Rreg}.

Abbreviation on_registry := (reg_rel.on_registry Rreg).

Lemma on_registry_refl : Reflexive on_registry.
Proof. intros w. unfold reg_rel.on_registry. reflexivity. Qed.

Lemma on_registry_trans : Transitive on_registry.
Proof. intros w1 w2 w3. unfold reg_rel.on_registry. apply transitivity. Qed.

#[local] Existing Instances on_registry_refl on_registry_trans.

Lemma keeps_gui_vm_send data : keeps on_registry (gui_vm_send net data).
Proof.
  apply keeps_send; try apply _.
  - intros w c. unfold reg_rel.on_registry. simpl. reflexivity.
  - intros w es _. unfold reg_rel.on_registry. simpl. reflexivity.
  - intros w. unfold reg_rel.on_registry. simpl. reflexivity.
Qed.

Lemma keeps_host_emit es : keeps on_registry (vsock.emit es).
Proof.
  apply keeps_modify. intros w. unfold reg_rel.on_registry. simpl. reflexivity.
Qed.

Lemma keeps_host_log level text : keeps on_registry (host.log level text).
Proof. apply keeps_host_emit. Qed.

Lemma keeps_registry : keeps on_registry registry.
Proof. apply keeps_gets; apply _. Qed.

Hint Resolve keeps_gui_vm_send keeps_host_log keeps_host_emit keeps_registry : keeps.

Lemma keeps_call_passthrough_handler d t :
  keeps on_registry (call_passthrough_handler handler d t).
Proof. unfold call_passthrough_handler. repeat keeps_step. Qed.

Hint Resolve keeps_call_passthrough_handler : keeps.

(** [handle_request] changes the registry through
    [notify_device_passthrough] only. *)
Lemma keeps_handle_request msg :
  (∀ d t, keeps on_registry (notify_device_passthrough net d t)) →
  keeps on_registry (handle_request net handler msg).
Proof.
  intros Hn. unfold handle_request. repeat keeps_step.
Qed.
End host_step.

#[export] Hint Extern 1 (keeps _ (host.gui_vm_send _ _)) =>
  apply keeps_gui_vm_send; apply _ : keeps.
#[export] Hint Extern 1 (keeps _ (host.log _ _)) =>
  apply keeps_host_log; apply _ : keeps.
#[export] Hint Extern 1 (keeps _ (vsock.emit _)) =>
  apply keeps_host_emit; apply _ : keeps.
#[export] Hint Extern 1 (keeps _ host.registry) =>
  apply keeps_registry; apply _ : keeps.

(** *** The client *)

Section client_run.
Context `{!JsonLib} {Owner : Type}.
Variable net : vsock.network.
Variable on_disconnect : Owner → Owner.
Import vsock.

Ltac run_client :=
  unfold server, sendall, close_connection, log, emit, set_client,
    json_transport.send, json_transport.wire, try_except,
    bind, ret, raise, lift, gets, modify; simpl.

Lemma send_attempts_connection (n : nat) (data : pyobj) (w : world Owner) :
  (send_attempts net on_disconnect (S n) data w).1
  = Ok (conn (client (send_attempts net on_disconnect (S n) data w).2)).
Proof.
  revert w. induction n as [|n IH]; intros w.
  - destruct w as [[c k i] o t]. cbn [send_attempts].
    destruct (sendall_ok net i) eqn:Hs;
      destruct data as [j|cls]; destruct c; run_client;
      rewrite ?Hs; by run_client.
  - remember (S n) as m. cbn [send_attempts].
    destruct w as [[c k i] o t].
    destruct (sendall_ok net i) eqn:Hs;
      destruct data as [j|cls]; destruct c; run_client;
      rewrite ?Hs; run_client; first [done | apply IH].
Qed.

(** On a network whose peer accepts in the end, as every [vsock.network]
    is (so [server()] returns; against a peer that never accepts it
    would retry for ever), [send] never raises, whatever object it is
    given and whichever writes fail, and it returns [True] exactly when
    it leaves the connection open. *)
Theorem send_reports_connection (data : pyobj) (w : world Owner) :
  let out := send net on_disconnect data w in
  out.1 = Ok (conn (client out.2)).
Proof. apply send_attempts_connection. Qed.

(** What one turn of [run] does depends on the bytes received, not on
    how [recv] cut them. *)
Theorem run_once_chunking (on_message : json → M (world Owner) unit)
    (chunks : list bytes) (tail : list json_transport.recv_result)
    (w : world Owner) :
  Forall (λ c, c ≠ []) chunks → framing.at_eof tail →
  run_once net on_disconnect on_message ((json_transport.Recv <$> chunks) ++ tail) w
  = run_once net on_disconnect on_message [json_transport.Recv (concat chunks)] w.
Proof.
  intros Hne Htail. unfold run_once.
  rewrite receive_lines by done.
  destruct (decide (concat chunks = [])) as [Hnil|Hcat].
  - rewrite Hnil. done.
  - change [json_transport.Recv (concat chunks)]
      with ((json_transport.Recv <$> [concat chunks]) ++ []).
    rewrite (receive_lines [concat chunks] []).
    + simpl. by rewrite app_nil_r.
    + by repeat constructor.
    + done.
Qed.

(** A line that [json.loads] refuses ends [run] with the decoder's
    exception: the connection is opened, no message is handed over, and
    [close_connection] is not reached. *)
Theorem run_once_malformed_line (on_message : json → M (world Owner) unit)
    (l : bytes) (e : exn) (w : world Owner) :
  nl ∉ l → strip l ≠ [] → json_loads (strip l) = Raise e → e ≠ OSError →
  run_once net on_disconnect on_message [json_transport.Recv (l ++ [nl])] w
  = (Raise e, (server net w).2).
Proof.
  intros Hnl Hne Hload He. unfold run_once.
  change [json_transport.Recv (l ++ [nl])]
    with ((json_transport.Recv <$> [l ++ [nl]]) ++ []).
  rewrite receive_lines; [| repeat constructor; by destruct l | done].
  simpl concat. rewrite app_nil_r.
  unfold framing.complete_lines.
  rewrite (lines_of_line l []) by done. simpl.
  destruct (strip l) as [|c cs] eqn:Hs; [done|]. rewrite Hload.
  unfold bind at 1, try_except_OSError. unfold bind at 1.
  assert ((server net w).1 = Ok tt) as Hserver.
  { destruct w as [[c0 k i] o t]. destruct c0; by run_client. }
  destruct (server net w) as [r w1]. simpl in *. subst r.
  cbn [for_each]. unfold bind, ret, raise. by destruct e.
Qed.

End client_run.

(** An announcement read in two pieces, and read in one. *)
Lemma run_once_chunking_witness :
  @vsock.run_once RefJson.lib _ sample.good_net guest.on_disconnect guest.on_msg
    ((json_transport.Recv <$> sample.cut 10 (sample.stream [sample.E1])) ++ [])
    sample.guest0
  = @vsock.run_once RefJson.lib _ sample.good_net guest.on_disconnect guest.on_msg
      [json_transport.Recv (concat (sample.cut 10 (sample.stream [sample.E1])))]
      sample.guest0.
Proof.
  apply (@run_once_chunking RefJson.lib).
  - repeat constructor; by vm_compute.
  - exact I.
Defined.

(** A line that holds an opening brace and nothing else. *)
Lemma run_once_malformed_line_witness :
  @vsock.run_once RefJson.lib _ sample.good_net guest.on_disconnect guest.on_msg
    [json_transport.Recv ([x7b] ++ [nl])] sample.guest0
  = (Raise JSONDecodeError, (vsock.server sample.good_net sample.guest0).2).
Proof.
  apply (@run_once_malformed_line RefJson.lib).
  - apply (bool_decide_unpack _). by vm_compute.
  - by vm_compute.
  - by vm_compute.
  - done.
Defined.

Section one_message.
Context `{!JsonLib} {Owner : Type}.
Variable net : vsock.network.
Variable on_disconnect : Owner → Owner.

(** One turn of [run] on a stream that holds one valid envelope. *)
Lemma run_once_one (on_message : json → M (vsock.world Owner) unit)
    (E : json) (chunks : list bytes) (tail : list json_transport.recv_result)
    (w : vsock.world Owner) :
  framing.valid_envelope E →
  concat chunks = json_dumps E ++ [nl] →
  Forall (λ c, c ≠ []) chunks → framing.at_eof tail →
  vsock.run_once net on_disconnect on_message
    ((json_transport.Recv <$> chunks) ++ tail) w
  = bind (try_except_OSError
            (bind (vsock.server net)
               (λ _, bind (bind (on_message E) (λ _, ret tt)) (λ _, ret tt)))
            (vsock.log LError "VSOCK server error"))
      (λ _, vsock.close_connection on_disconnect) w.
Proof.
  intros HE Hcat Hne Htail. unfold vsock.run_once.
  rewrite (receive_sent [E]);
    [done | constructor; [exact HE | constructor] | | done | done].
  rewrite Hcat. simpl. by rewrite app_nil_r.
Qed.
(** The same turn when the handler accepts the message. *)
Lemma run_once_one_ok (on_message : json → M (vsock.world Owner) unit)
    (E : json) (chunks : list bytes) (tail : list json_transport.recv_result)
    (w w1 w2 : vsock.world Owner) :
  framing.valid_envelope E →
  concat chunks = json_dumps E ++ [nl] →
  Forall (λ c, c ≠ []) chunks → framing.at_eof tail →
  vsock.server net w = (Ok tt, w1) →
  on_message E w1 = (Ok tt, w2) →
  vsock.run_once net on_disconnect on_message
    ((json_transport.Recv <$> chunks) ++ tail) w
  = vsock.close_connection on_disconnect w2.
Proof.
  intros HE Hcat Hne Htail Hs Hm.
  rewrite (run_once_one on_message E) by done.
  unfold bind, try_except_OSError, ret. by rewrite Hs, Hm.
Qed.

Lemma server_returns (w : vsock.world Owner) :
  ∃ c t, vsock.server net w = (Ok tt, vsock.mkWorld c (vsock.owner w) t).
Proof.
  destruct w as [[c k i] o t]. unfold vsock.server, vsock.emit,
    vsock.set_client, bind, ret, gets, modify. simpl.
  destruct c; simpl; by eexists _, _.
Qed.

Lemma close_connection_owner (w : vsock.world Owner) :
  (vsock.close_connection on_disconnect w).1 = Ok tt
  ∧ (vsock.owner (vsock.close_connection on_disconnect w).2 = vsock.owner w
     ∨ vsock.owner (vsock.close_connection on_disconnect w).2
       = on_disconnect (vsock.owner w)).
Proof.
  destruct w as [[c k i] o t]. unfold vsock.close_connection, vsock.emit,
    vsock.set_client, bind, ret, gets, modify. simpl.
  destruct c; simpl; auto.
Qed.
End one_message.


Section send_ok.
Context `{!JsonLib} {Owner : Type}.
Variable net : vsock.network.
Variable on_disconnect : Owner → Owner.

(** One write that goes through, for any owner. *)
Lemma send_ok (data : json) (w : vsock.world Owner) :
  vsock.sendall_ok net (vsock.sendalls (vsock.client w)) = true →
  (vsock.send net on_disconnect (PJson data) w).1 = Ok true
  ∧ vsock.owner (vsock.send net on_disconnect (PJson data) w).2 = vsock.owner w
  ∧ sent (vsock.trace (vsock.send net on_disconnect (PJson data) w).2)
    = sent (vsock.trace w) ++ [json_dumps data ++ [nl]].
Proof.
  intros Hok. destruct w as [[c k i] o t]. simpl in Hok.
  unfold vsock.send. cbn [vsock.send_attempts].
  unfold json_transport.send, json_transport.wire, vsock.server, vsock.sendall,
    vsock.emit, vsock.set_client, try_except, bind, ret, raise, lift, gets,
    modify; simpl.
  destruct c; simpl; rewrite Hok; simpl.
  - split; [done|]. split; [done|].
    change (sent (t ++ [ESendall (json_dumps data ++ [nl])])
            = sent t ++ [json_dumps data ++ [nl]]).
    by rewrite sent_app.
  - split; [done|]. split; [done|].
    change (sent ((t ++ replicate (vsock.connect_failures net k) EConnectFailed
                     ++ [EConnected])
                  ++ [ESendall (json_dumps data ++ [nl])])
            = sent t ++ [json_dumps data ++ [nl]]).
    rewrite !sent_app, sent_connect_failed. simpl. by rewrite app_nil_r.
Qed.
End send_ok.


Lemma same_calls_refl {Owner} : Reflexive (same_calls (Owner:=Owner)).
Proof. by intros w. Qed.

Lemma same_calls_trans {Owner} : Transitive (same_calls (Owner:=Owner)).
Proof. intros w1 w2 w3. unfold same_calls. congruence. Qed.

#[export] Existing Instances same_calls_refl same_calls_trans.

Lemma handler_calls_client_events (es : list event) :
  Forall client_event es → handler_calls es = [].
Proof.
  induction 1 as [|e es He _ IH]; [done|].
  destruct e; try done; exact IH.
Qed.

Section calls.
Context `{!JsonLib} {Owner : Type}.
Variable net : vsock.network.
Variable on_disconnect : Owner → Owner.

Lemma same_calls_client (w : vsock.world Owner) c :
  same_calls w (vsock.mkWorld c (vsock.owner w) (vsock.trace w)).
Proof. done. Qed.

Lemma same_calls_emit (w : vsock.world Owner) es :
  Forall client_event es →
  same_calls w (vsock.mkWorld (vsock.client w) (vsock.owner w) (vsock.trace w ++ es)).
Proof.
  intros Hes. unfold same_calls. simpl.
  rewrite handler_calls_app, (handler_calls_client_events es) by done.
  apply app_nil_r.
Qed.

Lemma same_calls_disconnect (w : vsock.world Owner) :
  same_calls w
    (vsock.mkWorld (vsock.client w) (on_disconnect (vsock.owner w)) (vsock.trace w)).
Proof. done. Qed.

Lemma same_calls_send data :
  keeps same_calls (vsock.send net on_disconnect data).
Proof.
  apply keeps_send; try apply _;
    auto using same_calls_client, same_calls_emit, same_calls_disconnect.
Qed.

Lemma same_calls_server : keeps same_calls (vsock.server (Owner:=Owner) net).
Proof.
  apply keeps_server; try apply _;
    auto using same_calls_client, same_calls_emit.
Qed.

Lemma same_calls_close : keeps same_calls (vsock.close_connection on_disconnect).
Proof.
  apply keeps_close_connection; try apply _;
    auto using same_calls_client, same_calls_emit, same_calls_disconnect.
Qed.

Lemma same_calls_log level text :
  keeps same_calls (vsock.log (Owner:=Owner) level text).
Proof. apply keeps_log; try apply _; auto using same_calls_emit. Qed.
End calls.


(** *** The host service *)

Section host_registry_facts.
Context `{!JsonLib}.
Variable net : vsock.network.
Variable handler : option (string → string → bool).
Import host.

Ltac run_notify :=
  unfold notify_device_connected, notify_device_disconnected,
    registry, log, set_registry,
    vsock.log, vsock.emit, try_except, bind, ret, raise, lift, gets, modify;
  cbn [fst snd vsock.client vsock.owner vsock.trace device_registry connected].

(** One write that goes through. *)
Lemma send_json_ok (data : json) (w : host.W) :
  vsock.sendall_ok net (vsock.sendalls (vsock.client w)) = true →
  ∃ c', gui_vm_send net (PJson data) w
        = (Ok true,
           vsock.mkWorld c' (vsock.owner w)
             (vsock.trace w
              ++ (if vsock.conn (vsock.client w) then []
                  else replicate (vsock.connect_failures net
                                    (vsock.connects (vsock.client w)))
                         EConnectFailed ++ [EConnected])
              ++ [ESendall (json_dumps data ++ [nl])])).
Proof.
  intros Hok. destruct w as [[c k i] o t]. simpl in Hok.
  unfold gui_vm_send, vsock.send. cbn [vsock.send_attempts].
  unfold json_transport.send, json_transport.wire, vsock.server, vsock.sendall,
    vsock.emit, vsock.set_client, try_except, bind, ret, raise, lift, gets,
    modify; simpl.
  destruct c; simpl; eexists; rewrite Hok; simpl.
  - done.
  - by rewrite <- !(assoc_L (++)).
Qed.

Lemma notify_new_device (w : host.W) (device_id vendor product : string)
    (permitted_vms : list string) (current_vm : string) :
  device_id ≠ "" → vendor ≠ "" → product ≠ "" →
  dict_has device_id (device_registry (vsock.owner w)) = false →
  vsock.sendall_ok net (vsock.sendalls (vsock.client w)) = true →
  let out := notify_device_connected net device_id vendor product permitted_vms
               current_vm w in
  out.1 = Ok true
  ∧ device_registry (vsock.owner out.2)
    = dict_set device_id
        (mk_entry device_id vendor product permitted_vms current_vm)
        (device_registry (vsock.owner w))
  ∧ sent (vsock.trace out.2)
    = sent (vsock.trace w)
      ++ [json_dumps
            (dpm.DeviceConnected.to_json
               (dpm.DeviceConnected.mk device_id vendor product permitted_vms
                  (Some current_vm)))
          ++ [nl]].
Proof.
  intros Hd Hv Hp Hin Hok out. subst out.
  destruct w as [c [reg conn] t]. simpl in Hin, Hok.
  run_notify. rewrite Hin. run_notify.
  unfold dpm.DeviceConnected.init, dpm._str_ok. rewrite !decide_False by done.
  cbn [res_bind].
  match goal with
  | |- context [gui_vm_send net (PJson ?d) ?w1] =>
      destruct (send_json_ok d w1 Hok) as (c' & ->)
  end.
  simpl. split; [done|]. split; [done|].
  rewrite !sent_app. simpl. f_equal.
  destruct (vsock.conn c); simpl; [done|].
  by rewrite sent_app, sent_connect_failed.
Qed.

(** A new device is registered with the fields given and announced to the
    peer. *)
Theorem new_device_registered (w : host.W) (device_id vendor product : string)
    (permitted_vms : list string) (current_vm : string) :
  device_id ≠ "" → vendor ≠ "" → product ≠ "" →
  dict_has device_id (device_registry (vsock.owner w)) = false →
  vsock.sendall_ok net (vsock.sendalls (vsock.client w)) = true →
  let out := notify_device_connected net device_id vendor product permitted_vms
               current_vm w in
  out.1 = Ok true
  ∧ device_registry (vsock.owner out.2)
    = dict_set device_id
        (mk_entry device_id vendor product permitted_vms current_vm)
        (device_registry (vsock.owner w))
  ∧ sent (vsock.trace out.2)
    = sent (vsock.trace w)
      ++ [json_dumps
            (dpm.DeviceConnected.to_json
               (dpm.DeviceConnected.mk device_id vendor product permitted_vms
                  (Some current_vm)))
          ++ [nl]].
Proof. apply notify_new_device. Qed.

(** A device that is not registered cannot be removed: the call reports
    failure and changes nothing. *)
Theorem unknown_device_not_removed (w : host.W) (device_id : string) :
  dict_has device_id (device_registry (vsock.owner w)) = false →
  notify_device_disconnected net device_id w
  = (Ok false,
     vsock.mkWorld (vsock.client w) (vsock.owner w)
       (vsock.trace w ++
        [ELog LError ("Device " +:+ device_id
                      +:+ " not found in registry, disconnection request ignored.")])).
Proof.
  intros Hin. destruct w as [c [reg conn] t]. simpl in Hin.
  run_notify. by rewrite Hin.
Qed.

Lemma notify_known_removed (w : host.W) (device_id : string) :
  device_id ≠ "" →
  dict_has device_id (device_registry (vsock.owner w)) = true →
  vsock.sendall_ok net (vsock.sendalls (vsock.client w)) = true →
  let out := notify_device_disconnected net device_id w in
  out.1 = Ok true
  ∧ device_registry (vsock.owner out.2)
    = dict_del device_id (device_registry (vsock.owner w))
  ∧ sent (vsock.trace out.2)
    = sent (vsock.trace w)
      ++ [json_dumps (dpm.DeviceRemoved.to_json (dpm.DeviceRemoved.mk device_id))
          ++ [nl]].
Proof.
  intros Hne Hin Hok out. subst out.
  destruct w as [c [reg conn] t]. simpl in Hin, Hok.
  unfold notify_device_disconnected. run_notify. rewrite Hin. run_notify.
  unfold dpm.DeviceRemoved.init, dpm._str_ok. rewrite decide_False by done.
  cbn [res_bind].
  match goal with
  | |- context [gui_vm_send net (PJson ?d) ?w1] =>
      destruct (send_json_ok d w1 Hok) as (c' & ->)
  end.
  simpl. split; [done|]. split; [done|].
  rewrite !sent_app. simpl. f_equal.
  destruct (vsock.conn c); simpl; [done|].
  by rewrite sent_app, sent_connect_failed.
Qed.

(** A registered device is deleted and its removal announced. *)
Theorem known_device_removed (w : host.W) (device_id : string) :
  device_id ≠ "" →
  dict_has device_id (device_registry (vsock.owner w)) = true →
  vsock.sendall_ok net (vsock.sendalls (vsock.client w)) = true →
  let out := notify_device_disconnected net device_id w in
  out.1 = Ok true
  ∧ device_registry (vsock.owner out.2)
    = dict_del device_id (device_registry (vsock.owner w))
  ∧ sent (vsock.trace out.2)
    = sent (vsock.trace w)
      ++ [json_dumps (dpm.DeviceRemoved.to_json (dpm.DeviceRemoved.mk device_id))
          ++ [nl]].
Proof. apply notify_known_removed. Qed.
End host_registry_facts.

Lemma new_device_registered_witness :
  let out :=
    @host.notify_device_connected RefJson.lib sample.good_net
      "E" "Acme" "Mouse" ["vm-a"] "" sample.host0 in
  out.1 = Ok true
  ∧ host.device_registry (vsock.owner out.2)
    = [("D", sample.D); ("E", host.mk_entry "E" "Acme" "Mouse" ["vm-a"] "")]
  ∧ sent (vsock.trace out.2)
    = [] ++ [RefJson.dumps
               (dpm.DeviceConnected.to_json
                  (dpm.DeviceConnected.mk "E" "Acme" "Mouse" ["vm-a"] (Some "")))
             ++ [nl]].
Proof.
  apply (@new_device_registered RefJson.lib sample.good_net sample.host0
           "E" "Acme" "Mouse" ["vm-a"] ""); done.
Defined.

Lemma unknown_device_not_removed_witness :
  @host.notify_device_disconnected RefJson.lib sample.good_net "E" sample.host0
  = (Ok false,
     vsock.mkWorld (vsock.client sample.host0) (vsock.owner sample.host0)
       (vsock.trace sample.host0 ++
        [ELog LError "Device E not found in registry, disconnection request ignored."])).
Proof.
  by apply (@unknown_device_not_removed RefJson.lib sample.good_net sample.host0 "E").
Defined.

Lemma known_device_removed_witness :
  let out :=
    @host.notify_device_disconnected RefJson.lib sample.good_net "D" sample.host0 in
  out.1 = Ok true
  ∧ host.device_registry (vsock.owner out.2) = []
  ∧ sent (vsock.trace out.2)
    = [] ++ [RefJson.dumps (dpm.DeviceRemoved.to_json (dpm.DeviceRemoved.mk "D"))
             ++ [nl]].
Proof.
  apply (@known_device_removed RefJson.lib sample.good_net sample.host0 "D"); done.
Defined.

Section host_registry_steps.
Context `{!JsonLib}.
Variable net : vsock.network.
Variable handler : option (string → string → bool).
Import host.

#[local] Existing Instances on_registry_refl on_registry_trans.

Lemma notify_device_passthrough_step d t :
  keeps (reg_rel.on_registry reg_rel.step) (notify_device_passthrough net d t).
Proof.
  intros w. unfold notify_device_passthrough.
  unfold bind at 1, registry at 1, gets at 1.
  destruct (dict_get d _) as [e|] eqn:He.
  - destruct (bool_decide (t ∈ permitted_vms e)) eqn:Hperm.
    + destruct (bool_decide (t ≠ current_vm e)).
      * unfold bind at 1, set_registry at 1, modify at 1.
        match goal with
        | |- reg_rel.on_registry _ _ (?k ?w1).2 =>
            trans w1; [| change (reg_rel.on_registry reg_rel.step w1 (k w1).2)]
        end.
        -- unfold reg_rel.on_registry. simpl. eapply dict_set_step; [exact He|].
           right. simpl. split; [|done]. by apply bool_decide_eq_true in Hperm.
        -- match goal with
           | |- reg_rel.on_registry _ ?w1 (?k ?w1).2 =>
               assert (keeps (reg_rel.on_registry reg_rel.step) k) as Hk;
                 [| exact (Hk w1)]
           end.
           repeat keeps_step.
      * simpl. reflexivity.
    + match goal with
      | |- _ _ w (?m w).2 =>
          assert (keeps (reg_rel.on_registry reg_rel.step) m) as Hk;
            [repeat keeps_step | exact (Hk w)]
      end.
  - match goal with
    | |- _ _ w (?m w).2 =>
        assert (keeps (reg_rel.on_registry reg_rel.step) m) as Hk;
          [repeat keeps_step | exact (Hk w)]
    end.
Qed.

Lemma handle_request_step (msg : json) :
  keeps (reg_rel.on_registry reg_rel.step) (handle_request net handler msg).
Proof.
  apply (keeps_handle_request net handler reg_rel.step msg).
  apply notify_device_passthrough_step.
Qed.

(** Whatever the message, [handle_request] leaves every device of the
    registry where it was or moves it to a VM of its permitted list; it
    adds no device and removes none.  The same holds of a turn of the
    receiver that hands the messages to it, whatever bytes arrive. *)
Theorem handle_request_moves_within_permitted (msg : json)
    (sock : list json_transport.recv_result) (w : host.W) :
  reg_rel.step (device_registry (vsock.owner w))
    (device_registry (vsock.owner (handle_request net handler msg w).2))
  ∧ reg_rel.step (device_registry (vsock.owner w))
      (device_registry
         (vsock.owner
            (vsock.run_once net on_disconnect (handle_request net handler)
               sock w).2)).
Proof.
  split; [apply handle_request_step|].
  apply (keeps_run_once net on_disconnect (reg_rel.on_registry reg_rel.step));
    try apply _.
  - intros w1 c. unfold reg_rel.on_registry. simpl. reflexivity.
  - intros w1 es _. unfold reg_rel.on_registry. simpl. reflexivity.
  - intros w1. unfold reg_rel.on_registry. simpl. reflexivity.
  - apply handle_request_step.
Qed.
End host_registry_steps.


Section host_request_branches.
Context `{!JsonLib}.
Variable net : vsock.network.
Variable handler : option (string → string → bool).
Import host.

Abbreviation request d t :=
  (dpm.PassthroughRequest.to_json (dpm.PassthroughRequest.mk d t)).


(** When the handler reports failure, nothing is sent and the registry
    stays as it was. *)
Theorem failed_handler_changes_nothing (device_id target_vm : string)
    (h : string → string → bool) (w : host.W) :
  handler = Some h → h device_id target_vm = false →
  device_id ≠ "" → target_vm ≠ "" →
  dict_has device_id (device_registry (vsock.owner w)) = true →
  let out := handle_request net handler (request device_id target_vm) w in
  out.1 = Ok tt
  ∧ vsock.client out.2 = vsock.client w
  ∧ vsock.owner out.2 = vsock.owner w
  ∧ sent (vsock.trace out.2) = sent (vsock.trace w)
  ∧ handler_calls (vsock.trace out.2)
    = handler_calls (vsock.trace w) ++ [(device_id, target_vm)].
Proof.
  intros Hh Hfalse Hd Ht Hin out. subst out.
  rewrite handle_request_passthrough by done. rewrite Hin, Hh.
  unfold call_passthrough_handler, log, vsock.log, vsock.emit,
    bind, ret, modify. simpl. rewrite Hfalse. simpl.
  rewrite !sent_app, !handler_calls_app. simpl. by rewrite !app_nil_r.
Qed.

(** A service built without a handler cannot serve a request for a
    registered device: the call of [None] raises. *)
Theorem missing_handler_raises (device_id target_vm : string) (w : host.W) :
  handler = None →
  device_id ≠ "" → target_vm ≠ "" →
  dict_has device_id (device_registry (vsock.owner w)) = true →
  handle_request net handler (request device_id target_vm) w
  = (Raise TypeError, w).
Proof.
  intros Hh Hd Ht Hin.
  rewrite handle_request_passthrough by done. by rewrite Hin, Hh.
Qed.

(** A [passthrough_request] whose payload lacks [device_id] or
    [target_vm] raises [ValueError] before the registry is looked at. *)
Theorem request_without_names_raises (pl : pydict json) (w : host.W) :
  dict_get "device_id" pl = None ∨ dict_get "target_vm" pl = None →
  handle_request net handler
    (dpm.envelope dpm.PassthroughRequest.MSG_TYPE (JObj pl)) w
  = (Raise ValueError, w).
Proof.
  intros Hmiss.
  assert (dpm.PassthroughRequest.from_message
            (dpm.envelope dpm.PassthroughRequest.MSG_TYPE (JObj pl))
          = Raise ValueError) as Hraise.
  { unfold dpm.PassthroughRequest.from_message. simpl.
    unfold dpm.PassthroughRequest.from_payload. simpl.
    destruct (dict_get "device_id" pl) as [v|] eqn:Hd; simpl; [|done].
    destruct Hmiss as [?|Ht]; [done|]. rewrite Ht. simpl.
    unfold dpm._str_ok. destruct v; simpl; try done. by case_decide. }
  unfold handle_request.
  change (dpm.get_message_type
            (dpm.envelope dpm.PassthroughRequest.MSG_TYPE (JObj pl)))
    with (Ok (JStr dpm.PassthroughRequest.MSG_TYPE) : res json).
  unfold bind at 1, lift at 1.
  change (dpm.str_eqb (JStr dpm.PassthroughRequest.MSG_TYPE) dpm.GetDevices.MSG_TYPE)
    with false.
  change (dpm.str_eqb (JStr dpm.PassthroughRequest.MSG_TYPE)
            dpm.PassthroughRequest.MSG_TYPE) with true.
  cbv iota. by rewrite Hraise.
Qed.
End host_request_branches.

Section snapshot_facts.
Import dpm.
#[local] Arguments _str_ok : simpl never.
#[local] Arguments _is_list_of_str : simpl never.
#[local] Arguments str_items : simpl never.
#[local] Arguments of_strs : simpl never.

Lemma clean_info_entry (e : host.entry) :
  reg_rel.valid e →
  ConnectedDevices.clean_info (host.entry_dict e) = Ok (reg_rel.info_of e).
Proof.
  intros [Hv Hp]. destruct e as [d v p perm cur]. simpl in *.
  unfold ConnectedDevices.clean_info, reg_rel.info_of. simpl.
  rewrite !str_ok_nonempty by done. cbn [res_bind].
  rewrite is_list_of_str_of_strs, str_items_of_strs. done.
Qed.

Lemma clean_info_invalid (e : host.entry) :
  ¬ reg_rel.valid e →
  ConnectedDevices.clean_info (host.entry_dict e) = Raise ValueError.
Proof.
  intros Hbad. destruct e as [d v p perm cur].
  unfold reg_rel.valid in Hbad. simpl in *.
  unfold ConnectedDevices.clean_info. simpl. unfold _str_ok.
  destruct (decide (v = "")) as [->|Hv]; [done|]. simpl.
  destruct (decide (p = "")) as [->|Hp]; [done|]. tauto.
Qed.

Lemma clean_items_entries (reg : pydict host.entry)
    (acc : pydict ConnectedDevices.info) :
  NoDup (acc.*1 ++ reg.*1) → Forall (λ kv, reg_rel.valid kv.2) reg →
  ConnectedDevices.clean_items (prod_map id host.entry_dict <$> reg) acc
  = Ok (acc ++ (prod_map id reg_rel.info_of <$> reg)).
Proof.
  revert acc. induction reg as [|[k e] reg IH]; intros acc Hnd Hval.
  - simpl. by rewrite app_nil_r.
  - inversion Hval as [|? ? He Hval']; subst. simpl in He.
    rewrite fmap_cons. cbn [prod_map fst snd id ConnectedDevices.clean_items].
    rewrite clean_info_entry by done. cbn [res_bind].
    simpl in Hnd. apply NoDup_app in Hnd as (Hacc & Hdisj & Hreg).
    rewrite dict_set_fresh.
    2:{ intros Hin. apply (Hdisj _ Hin). by left. }
    rewrite IH; [| | done].
    + rewrite fmap_cons. by rewrite <- (assoc_L (++)).
    + rewrite fmap_app. simpl. rewrite <- (assoc_L (++)). simpl.
      apply NoDup_app. split; [done|]. split; [|done].
      intros x Hx. by apply Hdisj.
Qed.

Lemma clean_items_invalid (reg : pydict host.entry)
    (acc : pydict ConnectedDevices.info) :
  Exists (λ kv, ¬ reg_rel.valid kv.2) reg →
  ConnectedDevices.clean_items (prod_map id host.entry_dict <$> reg) acc
  = Raise ValueError.
Proof.
  intros Hex. revert acc. induction Hex as [[k e] reg Hbad|[k e] reg Hex IH];
    intros acc; rewrite fmap_cons;
    cbn [prod_map fst snd id ConnectedDevices.clean_items].
  - simpl in Hbad. by rewrite clean_info_invalid.
  - destruct (ConnectedDevices.clean_info (host.entry_dict e)) as [c|x] eqn:Hc.
    + cbn [res_bind]. apply IH.
    + assert (¬ reg_rel.valid e) as Hbad.
      { intros Hv. by rewrite clean_info_entry in Hc. }
      rewrite clean_info_invalid in Hc by done. by inversion Hc.
Qed.
End snapshot_facts.

Section host_snapshot.
Context `{!JsonLib}.
Variable net : vsock.network.
Variable handler : option (string → string → bool).
Import host.

Lemma handle_request_get_devices (w : host.W) :
  handle_request net handler dpm.GetDevices.to_json w
  = bind (lift (dpm.ConnectedDevices.init
                  (prod_map id entry_dict <$> device_registry (vsock.owner w))))
      (λ connected_devices,
         bind (gui_vm_send net
                 (PJson (dpm.ConnectedDevices.to_json connected_devices)))
           (λ sent : bool,
              if sent then ret tt
              else log LError "System error! Service restart required.")) w.
Proof.
  unfold handle_request.
  change (dpm.get_message_type dpm.GetDevices.to_json)
    with (Ok (JStr dpm.GetDevices.MSG_TYPE) : res json).
  unfold bind at 1, lift at 1.
  change (dpm.str_eqb (JStr dpm.GetDevices.MSG_TYPE) dpm.GetDevices.MSG_TYPE)
    with true.
  cbv iota. unfold bind at 1, registry at 1, gets at 1. done.
Qed.

Lemma get_devices_reply (w : host.W) :
  NoDup (device_registry (vsock.owner w)).*1 →
  Forall (λ kv, reg_rel.valid kv.2) (device_registry (vsock.owner w)) →
  vsock.sendall_ok net (vsock.sendalls (vsock.client w)) = true →
  let out := handle_request net handler dpm.GetDevices.to_json w in
  out.1 = Ok tt
  ∧ vsock.owner out.2 = vsock.owner w
  ∧ sent (vsock.trace out.2)
    = sent (vsock.trace w)
      ++ [json_dumps
            (dpm.ConnectedDevices.to_json
               (dpm.ConnectedDevices.mk
                  (prod_map id reg_rel.info_of
                     <$> device_registry (vsock.owner w))))
          ++ [nl]].
Proof.
  intros Hnd Hval Hok out.
  set (reply := dpm.ConnectedDevices.to_json
                  (dpm.ConnectedDevices.mk
                     (prod_map id reg_rel.info_of
                        <$> device_registry (vsock.owner w)))).
  destruct (send_json_ok net reply w Hok) as (c' & Hsend).
  assert (out = (Ok tt,
                 vsock.mkWorld c' (vsock.owner w)
                   (vsock.trace w
                    ++ (if vsock.conn (vsock.client w) then []
                        else replicate (vsock.connect_failures net
                                          (vsock.connects (vsock.client w)))
                               EConnectFailed ++ [EConnected])
                    ++ [ESendall (json_dumps reply ++ [nl])]))) as ->.
  { subst out. rewrite handle_request_get_devices.
    unfold dpm.ConnectedDevices.init.
    rewrite clean_items_entries by done. cbn [res_bind app].
    unfold bind at 1, lift at 1. unfold bind at 1. fold reply.
    by rewrite Hsend. }
  simpl. split; [done|]. split; [done|].
  rewrite !sent_app. simpl. f_equal.
  destruct (vsock.conn (vsock.client w)); simpl; [done|].
  by rewrite sent_app, sent_connect_failed.
Qed.

(** [get_devices] is answered with the registry as it stands: every
    device, in order, with its vendor, product, permitted VMs and
    current VM. *)
Theorem get_devices_sends_snapshot (w : host.W) :
  NoDup (device_registry (vsock.owner w)).*1 →
  Forall (λ kv, reg_rel.valid kv.2) (device_registry (vsock.owner w)) →
  vsock.sendall_ok net (vsock.sendalls (vsock.client w)) = true →
  let out := handle_request net handler dpm.GetDevices.to_json w in
  out.1 = Ok tt
  ∧ vsock.owner out.2 = vsock.owner w
  ∧ sent (vsock.trace out.2)
    = sent (vsock.trace w)
      ++ [json_dumps
            (dpm.ConnectedDevices.to_json
               (dpm.ConnectedDevices.mk
                  (prod_map id reg_rel.info_of
                     <$> device_registry (vsock.owner w))))
          ++ [nl]].
Proof. apply get_devices_reply. Qed.

(** One entry with an empty vendor or product name is enough for
    [get_devices] to raise, with nothing sent. *)
Theorem get_devices_refuses_invalid_entry (w : host.W) (k : string) (e : entry) :
  (k, e) ∈ device_registry (vsock.owner w) →
  vendor e = "" ∨ product e = "" →
  handle_request net handler dpm.GetDevices.to_json w = (Raise ValueError, w).
Proof.
  intros Hin Hbad. rewrite handle_request_get_devices.
  unfold dpm.ConnectedDevices.init. rewrite clean_items_invalid; [done|].
  apply Exists_exists. exists (k, e). split; [done|]. simpl.
  unfold reg_rel.valid. tauto.
Qed.

(** [notify_device_connected] stores the device before it checks the
    names: with an empty [device_id], vendor or product the call raises
    and sends nothing, and the entry stays in the registry. *)
Theorem invalid_device_still_registered (w : host.W)
    (device_id vendor product : string) (permitted_vms : list string)
    (current_vm : string) :
  dict_has device_id (device_registry (vsock.owner w)) = false →
  device_id = "" ∨ vendor = "" ∨ product = "" →
  notify_device_connected net device_id vendor product permitted_vms
    current_vm w
  = (Raise ValueError,
     vsock.mkWorld (vsock.client w)
       (mk (dict_set device_id
              (mk_entry device_id vendor product permitted_vms current_vm)
              (device_registry (vsock.owner w)))
           (connected (vsock.owner w)))
       (vsock.trace w)).
Proof.
  intros Hin Hbad. destruct w as [c [reg conn] t]. simpl in Hin.
  unfold notify_device_connected, registry, set_registry,
    bind, lift, gets, modify. simpl. rewrite Hin. simpl.
  unfold dpm.DeviceConnected.init, dpm._str_ok.
  destruct Hbad as [->|[->| ->]]; repeat (case_decide; simpl; try done).
Qed.
End host_snapshot.

Section host_calls.
Context `{!JsonLib}.
Variable net : vsock.network.
Variable handler : option (string → string → bool).
Import host.

Lemma same_calls_set_registry reg : keeps same_calls (set_registry reg).
Proof. by intros w. Qed.

Lemma same_calls_notify_device_passthrough d t :
  keeps same_calls (notify_device_passthrough net d t).
Proof.
  pose proof (same_calls_send net on_disconnect) as Hsend.
  pose proof same_calls_set_registry as Hset.
  pose proof (same_calls_log (Owner:=HostService)) as Hlog.
  unfold notify_device_passthrough, gui_vm_send, log, registry.
  repeat keeps_step.
Qed.

Abbreviation request d t :=
  (dpm.PassthroughRequest.to_json (dpm.PassthroughRequest.mk d t)).

Lemma handle_request_calls (device_id target_vm : string)
    (h : string → string → bool) (w : host.W) :
  handler = Some h →
  device_id ≠ "" → target_vm ≠ "" →
  dict_has device_id (device_registry (vsock.owner w)) = true →
  handler_calls (vsock.trace (handle_request net handler (request device_id target_vm) w).2)
  = handler_calls (vsock.trace w) ++ [(device_id, target_vm)].
Proof.
  intros Hh Hd Ht Hin.
  rewrite handle_request_passthrough by done. rewrite Hin, Hh.
  unfold bind at 1. unfold call_passthrough_handler at 1.
  unfold bind at 1, vsock.emit, modify, ret. cbn [fst snd].
  match goal with
  | |- handler_calls (vsock.trace (?k ?w1).2) = _ =>
      assert (keeps same_calls k) as Hk
  end.
  { pose proof same_calls_notify_device_passthrough as Hn.
    pose proof (same_calls_log (Owner:=HostService)) as Hlog.
    unfold log. repeat keeps_step. }
  rewrite Hk. simpl. by rewrite handler_calls_app.
Qed.

(** A well-formed request for a registered device calls the handler
    once, with the device and the VM of the request, whatever the
    outcome of the request. *)
Theorem handler_called_once (device_id target_vm : string)
    (h : string → string → bool) (w : host.W) :
  handler = Some h →
  device_id ≠ "" → target_vm ≠ "" →
  dict_has device_id (device_registry (vsock.owner w)) = true →
  handler_calls (vsock.trace (handle_request net handler (request device_id target_vm) w).2)
  = handler_calls (vsock.trace w) ++ [(device_id, target_vm)].
Proof. apply handle_request_calls. Qed.
End host_calls.


Lemma failed_handler_changes_nothing_witness :
  vsock.owner
    (@host.handle_request RefJson.lib sample.good_net sample.handler_no
       (sample.request "D" "vm-b") sample.host0).2
  = vsock.owner sample.host0.
Proof.
  by apply (@failed_handler_changes_nothing RefJson.lib sample.good_net
              sample.handler_no "D" "vm-b" (λ _ _, false) sample.host0).
Defined.

Lemma missing_handler_raises_witness :
  @host.handle_request RefJson.lib sample.good_net None
    (sample.request "D" "vm-b") sample.host0
  = (Raise TypeError, sample.host0).
Proof.
  by apply (@missing_handler_raises RefJson.lib sample.good_net None "D" "vm-b"
              sample.host0).
Defined.

Lemma request_without_names_raises_witness :
  @host.handle_request RefJson.lib sample.good_net sample.handler_ok
    (dpm.envelope dpm.PassthroughRequest.MSG_TYPE (JObj [("device_id", JStr "D")]))
    sample.host0
  = (Raise ValueError, sample.host0).
Proof.
  apply (@request_without_names_raises RefJson.lib sample.good_net
           sample.handler_ok [("device_id", JStr "D")] sample.host0).
  by right.
Defined.

Lemma get_devices_sends_snapshot_witness :
  sent (vsock.trace
          (@host.handle_request RefJson.lib sample.good_net sample.handler_ok
             dpm.GetDevices.to_json sample.host0).2)
  = [] ++ [RefJson.dumps sample.reply ++ [nl]].
Proof.
  apply (@get_devices_sends_snapshot RefJson.lib sample.good_net
           sample.handler_ok sample.host0).
  - apply (bool_decide_unpack _). by vm_compute.
  - repeat constructor; by vm_compute.
  - reflexivity.
Defined.

Lemma get_devices_refuses_invalid_entry_witness :
  @host.handle_request RefJson.lib sample.good_net sample.handler_ok
    dpm.GetDevices.to_json sample.host_bad
  = (Raise ValueError, sample.host_bad).
Proof.
  apply (@get_devices_refuses_invalid_entry RefJson.lib sample.good_net
           sample.handler_ok sample.host_bad "E"
           (host.mk_entry "E" "" "Mouse" ["vm-a"] "")).
  - by left.
  - by left.
Defined.

Lemma invalid_device_still_registered_witness :
  @host.notify_device_connected RefJson.lib sample.good_net
    "E" "" "Mouse" ["vm-a"] "" sample.host0
  = (Raise ValueError,
     vsock.mkWorld (vsock.mkClient false 0 0)
       (host.mk [("D", sample.D);
                 ("E", host.mk_entry "E" "" "Mouse" ["vm-a"] "")] false) []).
Proof.
  apply (@invalid_device_still_registered RefJson.lib sample.good_net
           sample.host0 "E" "" "Mouse" ["vm-a"] "").
  - reflexivity.
  - right. by left.
Defined.

Lemma handler_called_once_witness :
  handler_calls
    (vsock.trace
       (@host.handle_request RefJson.lib sample.good_net sample.handler_ok
          (sample.request "D" "vm-b") sample.host0).2)
  = [] ++ [("D", "vm-b")].
Proof.
  by apply (@handler_called_once RefJson.lib sample.good_net sample.handler_ok
              "D" "vm-b" (λ _ _, true) sample.host0).
Defined.

(** *** The guest mirror *)

Section guest_messages.
Import guest.

Ltac run_guest :=
  unfold registry, set_registry, atomic_write_registry,
    vsock.log, vsock.emit, bind, ret, raise, lift, gets, modify;
  cbn [fst snd vsock.client vsock.owner vsock.trace device_registry connected].

(** The type of a message picks the branch of [on_msg]. *)
Lemma on_msg_typed (kvs : pydict json) (ty : string) :
  dict_get "type" kvs = Some (JStr ty) →
  dpm.get_message_type (JObj kvs) = Ok (JStr ty).
Proof. intros Hty. unfold dpm.get_message_type, dpm.get. by rewrite Hty. Qed.



Lemma on_msg_connected_devices (m : dpm.ConnectedDevices.t) (w : guest.W) :
  NoDup (dpm.ConnectedDevices.devices m).*1 →
  Forall (λ kv, reg_rel.valid_info kv.2) (dpm.ConnectedDevices.devices m) →
  on_msg (dpm.ConnectedDevices.to_json m) w
  = (Ok tt,
     vsock.mkWorld (vsock.client w)
       (mk (dpm.ConnectedDevices.devices_dict m) (connected (vsock.owner w)))
       (vsock.trace w ++ [EWriteRegistry (dpm.ConnectedDevices.devices_dict m)])).
Proof.
  intros Hnd Hval. destruct w as [c [reg conn] t]. unfold on_msg.
  change (dpm.get_message_type _)
    with (Ok (JStr dpm.ConnectedDevices.MSG_TYPE) : res json).
  unfold bind at 1, lift at 1.
  change (dpm.str_eqb (JStr dpm.ConnectedDevices.MSG_TYPE)
            dpm.DeviceConnected.MSG_TYPE) with false.
  change (dpm.str_eqb (JStr dpm.ConnectedDevices.MSG_TYPE)
            dpm.DeviceRemoved.MSG_TYPE) with false.
  change (dpm.str_eqb (JStr dpm.ConnectedDevices.MSG_TYPE)
            dpm.ConnectedDevices.MSG_TYPE) with true.
  cbv iota. rewrite connected_devices_from_message by done.
  by run_guest.
Qed.

(** A message of type [reset] empties the mirror and rewrites the
    registry file; its payload is not looked at. *)
Theorem mirror_reset (kvs : pydict json) (w : guest.W) :
  dict_get "type" kvs = Some (JStr dpm.Reset.MSG_TYPE) →
  on_msg (JObj kvs) w
  = (Ok tt,
     vsock.mkWorld (vsock.client w) (mk [] (connected (vsock.owner w)))
       (vsock.trace w ++ [EWriteRegistry []])).
Proof.
  intros Hty. destruct w as [c [reg conn] t]. unfold on_msg.
  rewrite (on_msg_typed _ _ Hty). unfold bind at 1, lift at 1.
  change (dpm.str_eqb (JStr dpm.Reset.MSG_TYPE) dpm.DeviceConnected.MSG_TYPE)
    with false.
  change (dpm.str_eqb (JStr dpm.Reset.MSG_TYPE) dpm.DeviceRemoved.MSG_TYPE)
    with false.
  change (dpm.str_eqb (JStr dpm.Reset.MSG_TYPE) dpm.ConnectedDevices.MSG_TYPE)
    with false.
  change (dpm.str_eqb (JStr dpm.Reset.MSG_TYPE) dpm.PassthroughAck.MSG_TYPE)
    with false.
  change (dpm.str_eqb (JStr dpm.Reset.MSG_TYPE) dpm.Reset.MSG_TYPE) with true.
  cbv iota. by run_guest.
Qed.


End guest_messages.


Lemma mirror_reset_witness :
  guest.on_msg
    (JObj [("type", JStr "reset"); ("payload", JObj [("x", JNum 1)])])
    sample.guest1
  = (Ok tt,
     vsock.mkWorld (vsock.mkClient false 0 0) (guest.mk [] false)
       [EWriteRegistry []]).
Proof.
  by apply (mirror_reset [("type", JStr "reset"); ("payload", JObj [("x", JNum 1)])]
              sample.guest1).
Defined.


(** *** Host and guest together *)

Section end_to_end.
Context `{!JsonLib}.
Variable hnet gnet : vsock.network.
Variable handler : option (string → string → bool).

(** What the guest's receiver makes of one message that [on_msg]
    accepts. *)
Lemma guest_run_once_one (E : json) (chunks : list bytes)
    (tail : list json_transport.recv_result) (gw : guest.W)
    (f : pydict (pydict json) → pydict (pydict json)) :
  framing.valid_envelope E →
  concat chunks = json_dumps E ++ [nl] →
  Forall (λ c, c ≠ []) chunks → framing.at_eof tail →
  (∀ w, ∃ t',
     guest.on_msg E w
     = (Ok tt,
        vsock.mkWorld (vsock.client w)
          (guest.mk (f (guest.device_registry (vsock.owner w)))
             (guest.connected (vsock.owner w))) t')) →
  let out := vsock.run_once gnet guest.on_disconnect guest.on_msg
               ((json_transport.Recv <$> chunks) ++ tail) gw in
  out.1 = Ok tt
  ∧ guest.device_registry (vsock.owner out.2)
    = f (guest.device_registry (vsock.owner gw)).
Proof.
  intros HE Hcat Hne Htail Hmsg out. subst out.
  destruct (server_returns gnet gw) as (c & t & Hs).
  destruct (Hmsg (vsock.mkWorld c (vsock.owner gw) t)) as (t' & Hm).
  rewrite (run_once_one_ok gnet guest.on_disconnect guest.on_msg E
             chunks tail gw _ _ HE Hcat Hne Htail Hs Hm).
  match goal with
  | |- context [vsock.close_connection _ ?w2] =>
      destruct (close_connection_owner guest.on_disconnect w2) as (Hr & [Ho|Ho])
  end; rewrite Ho; done.
Qed.

(** The answer to [get_devices], once the guest has read it, is the
    guest's mirror: the host's devices in the host's order, whatever the
    mirror held and however the answer was cut on the way. *)
Theorem snapshot_reaches_mirror (hw : host.W) (gw : guest.W)
    (chunks : list bytes) (tail : list json_transport.recv_result) :
  let reg := host.device_registry (vsock.owner hw) in
  let reply := dpm.ConnectedDevices.to_json
                 (dpm.ConnectedDevices.mk (prod_map id reg_rel.info_of <$> reg)) in
  NoDup reg.*1 → Forall (λ kv, reg_rel.valid kv.2) reg →
  vsock.sendall_ok hnet (vsock.sendalls (vsock.client hw)) = true →
  framing.valid_envelope reply →
  concat chunks = json_dumps reply ++ [nl] →
  Forall (λ c, c ≠ []) chunks → framing.at_eof tail →
  let hout := host.handle_request hnet handler dpm.GetDevices.to_json hw in
  let gout := vsock.run_once gnet guest.on_disconnect guest.on_msg
                ((json_transport.Recv <$> chunks) ++ tail) gw in
  sent (vsock.trace hout.2) = sent (vsock.trace hw) ++ [concat chunks]
  ∧ gout.1 = Ok tt
  ∧ guest.device_registry (vsock.owner gout.2)
    = prod_map id (λ e, dpm.ConnectedDevices.info_dict (reg_rel.info_of e))
        <$> reg.
Proof.
  intros reg reply Hnd Hval Hok HE Hcat Hne Htail hout gout.
  split.
  { rewrite Hcat. by apply get_devices_reply. }
  subst gout.
  assert (dpm.ConnectedDevices.devices_dict
            (dpm.ConnectedDevices.mk (prod_map id reg_rel.info_of <$> reg))
          = prod_map id (λ e, dpm.ConnectedDevices.info_dict (reg_rel.info_of e))
              <$> reg) as <-.
  { unfold dpm.ConnectedDevices.devices_dict. simpl.
    rewrite <- list_fmap_compose. apply list_fmap_ext. by intros i [k e]. }
  apply (guest_run_once_one reply chunks tail gw (λ _, _)); try done.
  intros w. eexists. apply on_msg_connected_devices.
  - simpl. rewrite <- list_fmap_compose.
    erewrite list_fmap_ext; [exact Hnd|]. by intros i [k e].
  - simpl. apply Forall_fmap. eapply Forall_impl; [exact Hval|].
    by intros [k e].
Qed.

(** A device the host announces is in the guest's mirror once the guest
    has read the announcement, under its id and with the fields the host
    stored. *)
Theorem announcement_reaches_mirror (hw : host.W) (gw : guest.W)
    (device_id vendor product : string) (permitted_vms : list string)
    (current_vm : string)
    (chunks : list bytes) (tail : list json_transport.recv_result) :
  let e := host.mk_entry device_id vendor product permitted_vms current_vm in
  let E := dpm.DeviceConnected.to_json
             (dpm.DeviceConnected.mk device_id vendor product permitted_vms
                (Some current_vm)) in
  device_id ≠ "" → vendor ≠ "" → product ≠ "" →
  dict_has device_id (host.device_registry (vsock.owner hw)) = false →
  vsock.sendall_ok hnet (vsock.sendalls (vsock.client hw)) = true →
  framing.valid_envelope E →
  concat chunks = json_dumps E ++ [nl] →
  Forall (λ c, c ≠ []) chunks → framing.at_eof tail →
  let hout := host.notify_device_connected hnet device_id vendor product
                permitted_vms current_vm hw in
  let gout := vsock.run_once gnet guest.on_disconnect guest.on_msg
                ((json_transport.Recv <$> chunks) ++ tail) gw in
  (hout.1 = Ok true
   ∧ dict_get device_id (host.device_registry (vsock.owner hout.2)) = Some e
   ∧ sent (vsock.trace hout.2) = sent (vsock.trace hw) ++ [concat chunks])
  ∧ (gout.1 = Ok tt
     ∧ guest.device_registry (vsock.owner gout.2)
       = dict_set device_id (reg_rel.announced e)
           (guest.device_registry (vsock.owner gw))).
Proof.
  intros e E Hd Hv Hp Hin Hok HE Hcat Hne Htail hout gout. split.
  - destruct (notify_new_device hnet hw device_id vendor product permitted_vms
                current_vm Hd Hv Hp Hin Hok) as (Hr & Hreg & Hsent).
    subst hout. rewrite Hr, Hreg, Hsent, Hcat.
    split; [done|]. split; [apply dict_get_set | done].
  - subst gout.
    apply (guest_run_once_one E chunks tail gw
             (dict_set device_id (reg_rel.announced e))); try done.
    intros w. eexists. subst E. by rewrite on_msg_device_connected.
Qed.

End end_to_end.

Section guest_requests.
Context `{!JsonLib}.
Variable hnet gnet : vsock.network.
Variable handler : option (string → string → bool).

Lemma request_passthrough_ok (device_id new_vm : string) (gw : guest.W) :
  device_id ≠ "" → new_vm ≠ "" →
  vsock.sendall_ok gnet (vsock.sendalls (vsock.client gw)) = true →
  let out := guest.request_passthrough gnet device_id new_vm gw in
  out.1 = Ok true
  ∧ vsock.owner out.2 = vsock.owner gw
  ∧ sent (vsock.trace out.2)
    = sent (vsock.trace gw)
      ++ [json_dumps (dpm.PassthroughRequest.to_json
                        (dpm.PassthroughRequest.mk device_id new_vm))
          ++ [nl]].
Proof.
  intros Hd Hv Hok out.
  set (E := dpm.PassthroughRequest.to_json
              (dpm.PassthroughRequest.mk device_id new_vm)).
  assert (out = bind (vsock.send gnet guest.on_disconnect (PJson E))
                  (λ sent : bool,
                     if sent then ret true
                     else bind (vsock.log LError
                                  "Failed to send passthrough request to host")
                            (λ _, ret false)) gw) as ->.
  { subst out. unfold guest.request_passthrough, guest.server_send.
    unfold dpm.PassthroughRequest.init.
    rewrite !str_ok_nonempty by done. cbn [res_bind].
    by unfold bind at 1, lift at 1. }
  destruct (send_ok gnet guest.on_disconnect E gw Hok) as (Hr & Ho & Hs).
  unfold bind.
  destruct (vsock.send gnet guest.on_disconnect (PJson E) gw) as [r w1].
  simpl in *. by subst r.
Qed.

(** What the guest asks for is what the host's handler is called with:
    a request made with [request_passthrough] and read by the host's
    receiver calls the passthrough handler once, with the same device
    and VM, when the host holds the device. *)
Theorem request_reaches_handler (gw : guest.W) (hw : host.W)
    (device_id new_vm : string) (h : string → string → bool)
    (chunks : list bytes) (tail : list json_transport.recv_result) :
  let E := dpm.PassthroughRequest.to_json
             (dpm.PassthroughRequest.mk device_id new_vm) in
  handler = Some h →
  device_id ≠ "" → new_vm ≠ "" →
  vsock.sendall_ok gnet (vsock.sendalls (vsock.client gw)) = true →
  dict_has device_id (host.device_registry (vsock.owner hw)) = true →
  framing.valid_envelope E →
  concat chunks = json_dumps E ++ [nl] →
  Forall (λ c, c ≠ []) chunks → framing.at_eof tail →
  let gout := guest.request_passthrough gnet device_id new_vm gw in
  let hout := vsock.run_once hnet host.on_disconnect
                (host.handle_request hnet handler)
                ((json_transport.Recv <$> chunks) ++ tail) hw in
  gout.1 = Ok true
  ∧ sent (vsock.trace gout.2) = sent (vsock.trace gw) ++ [concat chunks]
  ∧ handler_calls (vsock.trace hout.2)
    = handler_calls (vsock.trace hw) ++ [(device_id, new_vm)].
Proof.
  intros E Hh Hd Hv Hok Hin HE Hcat Hne Htail gout hout.
  destruct (request_passthrough_ok device_id new_vm gw Hd Hv Hok)
    as (Hr & _ & Hs).
  split; [done|]. split; [by rewrite Hcat|].
  subst hout.
  rewrite (run_once_one hnet host.on_disconnect _ E) by done.
  destruct (server_returns hnet hw) as (c & t & Hserver).
  pose proof (same_calls_server hnet hw) as Hcalls1.
  rewrite Hserver in Hcalls1. unfold same_calls in Hcalls1. simpl in Hcalls1.
  pose proof (handle_request_calls hnet handler device_id new_vm h
                (vsock.mkWorld c (vsock.owner hw) t) Hh Hd Hv Hin) as Hcalls2.
  fold E in Hcalls2. simpl in Hcalls2. rewrite Hcalls1 in Hcalls2.
  unfold bind, try_except_OSError, ret. rewrite Hserver.
  destruct (host.handle_request hnet handler E _) as [[[]|e] w2];
    simpl in Hcalls2; cbv beta iota.
  - by rewrite same_calls_close.
  - destruct e; try done.
    unfold vsock.log, vsock.emit, modify. cbv beta iota.
    rewrite same_calls_close. simpl.
    rewrite handler_calls_app. simpl. by rewrite app_nil_r.
Qed.
End guest_requests.

Lemma sample_reply_valid : @framing.valid_envelope RefJson.lib sample.reply.
Proof.
  split; [split; [|split] |].
  - apply (bool_decide_unpack _). by vm_compute.
  - by vm_compute.
  - by vm_compute.
  - by vm_compute.
Defined.

Lemma sample_E3_valid : @framing.valid_envelope RefJson.lib sample.E3.
Proof.
  split; [split; [|split] |].
  - apply (bool_decide_unpack _). by vm_compute.
  - by vm_compute.
  - by vm_compute.
  - by vm_compute.
Defined.

Lemma snapshot_reaches_mirror_witness :
  guest.device_registry
    (vsock.owner
       (@vsock.run_once RefJson.lib _ sample.good_net guest.on_disconnect
          guest.on_msg
          ((json_transport.Recv <$> sample.cut 10 (RefJson.dumps sample.reply ++ [nl]))
           ++ [])
          sample.guest1).2)
  = [("D", dpm.ConnectedDevices.info_dict (reg_rel.info_of sample.D))].
Proof.
  apply (@snapshot_reaches_mirror RefJson.lib sample.good_net sample.good_net
           sample.handler_ok sample.host0 sample.guest1
           (sample.cut 10 (RefJson.dumps sample.reply ++ [nl])) []).
  - apply (bool_decide_unpack _). by vm_compute.
  - repeat constructor; by vm_compute.
  - reflexivity.
  - exact sample_reply_valid.
  - by vm_compute.
  - repeat constructor; by vm_compute.
  - exact I.
Defined.

Lemma announcement_reaches_mirror_witness :
  guest.device_registry
    (vsock.owner
       (@vsock.run_once RefJson.lib _ sample.good_net guest.on_disconnect
          guest.on_msg
          ((json_transport.Recv <$> sample.cut 10 (RefJson.dumps sample.E3 ++ [nl]))
           ++ [])
          sample.guest1).2)
  = [("D", reg_rel.announced sample.D);
     ("E", reg_rel.announced (host.mk_entry "E" "Acme" "Mouse" ["vm-a"] ""))].
Proof.
  apply (@announcement_reaches_mirror RefJson.lib sample.good_net sample.good_net
           sample.host0 sample.guest1 "E" "Acme" "Mouse" ["vm-a"] ""
           (sample.cut 10 (RefJson.dumps sample.E3 ++ [nl])) []).
  - done.
  - done.
  - done.
  - reflexivity.
  - reflexivity.
  - exact sample_E3_valid.
  - by vm_compute.
  - repeat constructor; by vm_compute.
  - exact I.
Defined.

Lemma request_reaches_handler_witness :
  handler_calls
    (vsock.trace
       (@vsock.run_once RefJson.lib _ sample.good_net host.on_disconnect
          (@host.handle_request RefJson.lib sample.good_net sample.handler_ok)
          ((json_transport.Recv <$> sample.cut 10 (RefJson.dumps sample.E2 ++ [nl]))
           ++ [])
          sample.host0).2)
  = [] ++ [("D", "vm-b")].
Proof.
  apply (@request_reaches_handler RefJson.lib sample.good_net sample.good_net
           sample.handler_ok sample.guest0 sample.host0 "D" "vm-b" (λ _ _, true)
           (sample.cut 10 (RefJson.dumps sample.E2 ++ [nl])) []).
  - reflexivity.
  - done.
  - done.
  - reflexivity.
  - reflexivity.
  - exact sample_E2_valid.
  - by vm_compute.
  - repeat constructor; by vm_compute.
  - exact I.
Defined.

(** *** [UserDevices] *)

Section user_devices.
Context {usbInfo : Type}.
Implicit Types (id : option string) (info : usbInfo)
  (self : vhotplug.UserDevices (usbInfo:=usbInfo)).
Import vhotplug.

Lemma get_add id info self : get id (add id info self) = Some info.
Proof.
  induction self as [|[id' info'] self IH]; simpl.
  - by rewrite decide_True.
  - destruct (decide (id' = id)) as [->|Hne]; simpl.
    + by rewrite decide_True.
    + by rewrite decide_False.
Qed.

Lemma get_add_ne id id' info self :
  id ≠ id' → get id' (add id info self) = get id' self.
Proof.
  intros Hne. induction self as [|[id0 info0] self IH]; simpl.
  - by rewrite decide_False.
  - destruct (decide (id0 = id)) as [->|Hid]; simpl.
    + by rewrite !decide_False.
    + by rewrite IH.
Qed.

Lemma get_None_ids id self : get id self = None ↔ id ∉ list_ids self.
Proof.
  unfold list_ids. induction self as [|[id' info'] self IH]; simpl.
  - split; [intros _; apply not_elem_of_nil | done].
  - rewrite not_elem_of_cons. destruct (decide (id' = id)) as [->|Hne].
    + split; [done | by intros [? _]].
    + rewrite IH. split; [by intros ? | by intros [_ ?]].
Qed.

Lemma list_ids_add id info self :
  list_ids (add id info self)
  = if bool_decide (is_Some (get id self)) then list_ids self
    else list_ids self ++ [id].
Proof.
  unfold list_ids. induction self as [|[id' info'] self IH]; [done|].
  cbn [add get]. destruct (decide (id' = id)) as [->|Hne].
  - by rewrite bool_decide_eq_true_2.
  - rewrite !fmap_cons, IH. by destruct (bool_decide _).
Qed.

Lemma get_remove id self :
  NoDup (list_ids self) → get id (remove id self) = None.
Proof.
  unfold list_ids. induction self as [|[id' info'] self IH]; simpl; [done|].
  intros Hnd. apply NoDup_cons in Hnd as [Hnotin Hnd].
  destruct (decide (id' = id)) as [->|Hne]; simpl.
  - by apply get_None_ids.
  - rewrite decide_False by done. by apply IH.
Qed.

Lemma get_remove_ne id id' self :
  id ≠ id' → get id' (remove id self) = get id' self.
Proof.
  intros Hne. induction self as [|[id0 info0] self IH]; simpl; [done|].
  destruct (decide (id0 = id)) as [->|Hid]; simpl.
  - by rewrite decide_False.
  - by rewrite IH.
Qed.

Lemma list_ids_remove id self :
  list_ids (remove id self) `sublist_of` list_ids self.
Proof.
  unfold list_ids. induction self as [|[id' info'] self IH]; simpl; [done|].
  destruct (decide (id' = id)); simpl.
  - by apply sublist_cons.
  - by apply sublist_skip.
Qed.

(** A device added is the device found: [get] returns what [add] was
    given, [has] answers [True] for an id that is not [None], the other
    ids keep their devices, and the ids stay distinct. *)
Theorem add_then_get id info self :
  NoDup (list_ids self) →
  let self' := add id info self in
  get id self' = Some info
  ∧ has id self' = bool_decide (id ≠ None)
  ∧ (∀ id', id' ≠ id → get id' self' = get id' self)
  ∧ NoDup (list_ids self').
Proof.
  intros Hnd self'. subst self'. split; [apply get_add|].
  split.
  { unfold has. rewrite get_add. rewrite (bool_decide_eq_true_2 (is_Some _)) by done.
    by rewrite andb_true_r. }
  split; [intros id' Hne; by apply get_add_ne|].
  rewrite list_ids_add. destruct (bool_decide _) eqn:Hin; [done|].
  apply bool_decide_eq_false in Hin.
  apply NoDup_app. split; [done|]. split; [|apply NoDup_singleton].
  intros x Hx ->%list_elem_of_singleton. apply Hin.
  destruct (get id self) eqn:Hg; [done|]. by apply get_None_ids in Hg.
Qed.

(** [delete] answers whether the device was there; afterwards it is
    not, the other ids keep their devices, and a second [delete] of the
    same id answers [False]. *)
Theorem delete_removes id self :
  NoDup (list_ids self) →
  let out := delete id self in
  out.1 = bool_decide (is_Some (get id self))
  ∧ get id out.2 = None
  ∧ (∀ id', id' ≠ id → get id' out.2 = get id' self)
  ∧ NoDup (list_ids out.2)
  ∧ delete id out.2 = (false, out.2).
Proof.
  intros Hnd out. subst out. unfold delete.
  destruct (bool_decide (is_Some (get id self))) eqn:Hin; simpl.
  - split; [done|]. split; [by apply get_remove|].
    split; [intros id' Hne; by apply get_remove_ne|].
    split; [eapply sublist_NoDup; [exact Hnd | apply list_ids_remove]|].
    by rewrite get_remove, bool_decide_eq_false_2 by (done || by intros [? [=]]).
  - apply bool_decide_eq_false in Hin.
    assert (get id self = None) as Hg.
    { destruct (get id self); [by destruct Hin | done]. }
    split; [done|]. split; [done|]. split; [done|]. split; [done|].
    by rewrite Hg, bool_decide_eq_false_2 by (by intros [? [=]]).
Qed.
End user_devices.

Lemma add_then_get_witness :
  vhotplug.get (Some "1-3") (vhotplug.add (Some "1-3") 4 sample.user_devices)
  = Some 4.
Proof.
  apply (add_then_get (Some "1-3") 4 sample.user_devices).
  apply (bool_decide_unpack _). by vm_compute.
Defined.

Lemma delete_removes_witness :
  (vhotplug.delete (Some "1-1") sample.user_devices).1 = true
  ∧ vhotplug.get (Some "1-1") (vhotplug.delete (Some "1-1") sample.user_devices).2
    = None.
Proof.
  destruct (delete_removes (Some "1-1") sample.user_devices) as (Hr & Hg & _).
  - apply (bool_decide_unpack _). by vm_compute.
  - split; [exact Hr | exact Hg].
Defined.
